(** * Flight-delay feature pipeline: a shallow embedding of the notebook's
      preprocessing functions over a small model of pandas tables.

    The functions of [Flight_Delay_Model_Training.ipynb] are written against
    pandas [DataFrame]s and [Series].  A frame is modelled as a row index
    together with an ordered association list of named columns, a column
    being a list of cells; every pandas primitive the notebook calls is
    given as a function on that model, with the exceptions pandas raises
    made explicit in a [result] type.  Floating-point cells are idealised:
    a finite float is a real number, the IEEE special values are separate
    constructors, and rounding is not modelled in the cells.  The sampling
    fraction is a binary64 number, held as the rational it denotes, and
    the products that decide how many rows are drawn are rounded to
    binary64 as Python rounds them. *)

From Stdlib Require Import List ZArith QArith Qround Qabs Qpower Reals.
From Stdlib Require Import String Ascii Bool.
From Stdlib Require Import Lia Lra Permutation Sorted.
From Stdlib Require Lqa.
Import ListNotations.

Close Scope Q_scope.
Close Scope R_scope.
Local Open Scope string_scope.
Local Open Scope list_scope.

(** ** Exceptions *)

Inductive exn : Type := KeyError | ValueError | TypeError.

Inductive result (A : Type) : Type :=
| Ok (a : A)
| Raise (e : exn).

Arguments Ok {A} a.
Arguments Raise {A} e.

Definition bind {A B : Type} (m : result A) (k : A -> result B) : result B :=
  match m with
  | Ok a => k a
  | Raise e => Raise e
  end.

Notation "x <- m ;; k" := (bind m (fun x => k))
  (at level 61, m at next level, right associativity).
Notation "' pat <- m ;; k" := (bind m (fun x => match x with pat => k end))
  (at level 61, pat pattern, m at next level, right associativity).

Fixpoint mapM {A B : Type} (f : A -> result B) (l : list A) : result (list B) :=
  match l with
  | [] => Ok []
  | a :: l' => b <- f a ;; bs <- mapM f l' ;; Ok (b :: bs)
  end.

Fixpoint foldM {A S : Type} (f : S -> A -> result S) (l : list A) (s : S)
  : result S :=
  match l with
  | [] => Ok s
  | a :: l' => s' <- f s a ;; foldM f l' s'
  end.

(** ** Cells, series and frames *)

(** A float64: a finite value (idealised as a real), an infinity or NaN. *)
Inductive float : Type :=
| Fin (r : R)
| PosInf
| NegInf
| NaN.

Inductive cell : Type :=
| Int (z : Z)
| Float (x : float)
| Bool (b : bool)
| Str (s : string).

Record Series : Type := mkSeries {
  s_index : list Z;
  values : list cell
}.

Record DataFrame : Type := mkFrame {
  index : list Z;
  data : list (string * list cell)
}.

(** [df.columns.values.tolist()] *)
Definition columns (df : DataFrame) : list string := map fst (data df).

(** [df.shape[0]] *)
Definition nrows (df : DataFrame) : nat := List.length (index df).

(** The shape invariant of a frame: labels are distinct and every column
    has one cell per row. *)
Definition wf_frame (df : DataFrame) : Prop :=
  NoDup (columns df) /\
  Forall (fun c => List.length (snd c) = nrows df) (data df).

Fixpoint lookup {A : Type} (k : string) (l : list (string * A)) : option A :=
  match l with
  | [] => None
  | (k', v) :: l' => if String.eqb k k' then Some v else lookup k l'
  end.

Fixpoint mem (k : string) (l : list string) : bool :=
  match l with
  | [] => false
  | k' :: l' => String.eqb k k' || mem k l'
  end.

Fixpoint nodupb (l : list string) : bool :=
  match l with
  | [] => true
  | k :: l' => negb (mem k l') && nodupb l'
  end.

Definition labels_eqb (a b : list string) : bool :=
  if list_eq_dec string_dec a b then true else false.

(** [df[col]]: the column's cells, [KeyError] when the label is absent. *)
Definition getitem (df : DataFrame) (col : string) : result (list cell) :=
  match lookup col (data df) with
  | Some v => Ok v
  | None => Raise KeyError
  end.

(** [df.reindex(columns=labels, fill_value=fill)].  An axis equal to the
    requested labels is returned as it is; otherwise pandas refuses to
    reindex an axis holding duplicate labels. *)
Definition reindex_columns (df : DataFrame) (labels : list string)
    (fill_value : cell) : result DataFrame :=
  if labels_eqb (columns df) labels then Ok df
  else if nodupb (columns df) then
    Ok {| index := index df;
          data := map (fun c =>
                         (c, match lookup c (data df) with
                             | Some v => v
                             | None => repeat fill_value (nrows df)
                             end)) labels |}
  else Raise ValueError.

(** ** SchemaAligner *)

(** [missing_cat_add(X_train, X_val)] *)
Definition missing_cat_add (X_train X_val : DataFrame) : result DataFrame :=
  reindex_columns X_val (columns X_train) (Int 0).

(** ** Row selection, column assignment and sampling *)

(** Positional selection, as [take] does on one axis. *)
Definition take {A : Type} (ps : list nat) (l : list A) (d : A) : list A :=
  map (fun p => nth p l d) ps.

Definition take_rows (ps : list nat) (df : DataFrame) : DataFrame :=
  {| index := take ps (index df) 0%Z;
     data := map (fun c => (fst c, take ps (snd c) (Float NaN))) (data df) |}.

(** The row positions a boolean mask keeps, in order. *)
Definition mask_positions (m : list bool) : list nat :=
  filter (fun i => nth i m false) (seq 0 (List.length m)).

(** [df[mask]] *)
Definition mask_rows (m : list bool) (df : DataFrame) : DataFrame :=
  take_rows (mask_positions m) df.

(** Writing a column: an existing label keeps its place, a new one is
    appended. *)
Fixpoint set_col (c : string) (v : list cell) (l : list (string * list cell))
  : list (string * list cell) :=
  match l with
  | [] => [(c, v)]
  | (c', v') :: l' =>
      if String.eqb c c' then (c, v) :: l' else (c', v') :: set_col c v l'
  end.

Definition index_eqb (a b : list Z) : bool :=
  if list_eq_dec Z.eq_dec a b then true else false.

Fixpoint memZ (k : Z) (l : list Z) : bool :=
  match l with
  | [] => false
  | k' :: l' => Z.eqb k k' || memZ k l'
  end.

Fixpoint nodupZ (l : list Z) : bool :=
  match l with
  | [] => true
  | k :: l' => negb (memZ k l') && nodupZ l'
  end.

Fixpoint lookupZ (k : Z) (l : list (Z * cell)) : option cell :=
  match l with
  | [] => None
  | (k', v) :: l' => if Z.eqb k k' then Some v else lookupZ k l'
  end.

(** The values of a series brought onto a frame's row index: used as they
    are when the two indexes are equal, looked up label by label otherwise
    (NaN where the series has no such label); a series with duplicate
    labels cannot be realigned. *)
Definition reindex_series (s : Series) (idx : list Z) : result (list cell) :=
  if index_eqb (s_index s) idx then Ok (values s)
  else if nodupZ (s_index s) then
    Ok (map (fun l => match lookupZ l (combine (s_index s) (values s)) with
                      | Some v => v
                      | None => Float NaN
                      end) idx)
  else Raise ValueError.

(** [df[c] = s] for a series [s].  A frame without rows takes over the
    index of a non-empty series, its other columns becoming NaN. *)
Definition setitem_series (df : DataFrame) (c : string) (s : Series)
  : result DataFrame :=
  match index df, values s with
  | [], _ :: _ =>
      Ok {| index := s_index s;
            data := set_col c (values s)
                      (map (fun col => (fst col,
                                        repeat (Float NaN)
                                          (List.length (s_index s))))
                           (data df)) |}
  | _, _ =>
      v <- reindex_series s (index df) ;;
      Ok {| index := index df; data := set_col c v (data df) |}
  end.

(** [df[c]] as a series carrying the frame's index. *)
Definition getitem_series (df : DataFrame) (c : string) : result Series :=
  v <- getitem df c ;; Ok {| s_index := index df; values := v |}.

(** [df.drop([c], axis=1)] *)
Definition drop_column (df : DataFrame) (c : string) : result DataFrame :=
  if mem c (columns df) then
    Ok {| index := index df;
          data := filter (fun col => negb (String.eqb c (fst col))) (data df) |}
  else Raise KeyError.

(** [column == b] on one cell: numpy compares a boolean with a number by
    value. *)
Definition eq_bool (b : bool) (c : cell) : bool :=
  match c with
  | Bool b' => Bool.eqb b b'
  | Int z => Z.eqb z (if b then 1 else 0)
  | Float (Fin r) => if Req_dec_T r (if b then 1 else 0) then true else false
  | _ => false
  end.

(** Python's [round]: to the nearest integer, halves to the even one. *)
Definition py_round (x : Q) : Z :=
  let f := Qfloor x in
  match Qcompare (x - inject_Z f)%Q (1 # 2)%Q with
  | Lt => f
  | Gt => (f + 1)%Z
  | Eq => if Z.even f then f else (f + 1)%Z
  end.

(** ** Binary64 arithmetic *)

(** The integer [L] with [2^L <= x < 2^(L+1)], for a positive [x]. *)
Definition floor_log2 (x : Q) : Z :=
  if Qle_bool 1 x then Z.log2 (Qfloor x)
  else (- Z.log2_up (Qceiling (/ x)))%Z.

(** The exponent of the last place of the binary64 numbers around a
    positive [x]: 53 significant bits, and no exponent below -1074. *)
Definition float_exponent (x : Q) : Z :=
  Z.max (-1074) (floor_log2 x - 52).

(** A positive [x] rounded to the nearest multiple of [2^e], [e] its
    exponent, halves to the even multiple. *)
Definition round_magnitude (x : Q) : Q :=
  let e := float_exponent x in
  (inject_Z (py_round (x / 2 ^ e)) * 2 ^ e)%Q.

(** The binary64 number an exact result is rounded to (round to nearest,
    ties to even).  The exponent is not bounded above: no product of the
    program comes near the largest binary64 number. *)
Definition round_float64 (x : Q) : Q :=
  match Qcompare x 0 with
  | Eq => 0%Q
  | Gt => round_magnitude x
  | Lt => (- round_magnitude (- x))%Q
  end.

(** [float(n)] for a Python integer, and the product of two floats. *)
Definition float_of_int (n : Z) : Q := round_float64 (inject_Z n).
Definition float_mul (a b : Q) : Q := round_float64 (a * b)%Q.

(** [df.sample(n=n, random_state=0)].  [choice N k] stands for the [k]
    row positions the seeded generator draws, without replacement, out of
    [N]. *)
Definition sample_n (choice : nat -> nat -> list nat) (df : DataFrame) (n : Z)
  : result DataFrame :=
  if (n <? 0)%Z then Raise ValueError
  else if (Z.of_nat (nrows df) <? n)%Z then Raise ValueError
  else Ok (take_rows (choice (nrows df) (Z.to_nat n)) df).

(** [df.sample(frac=frac, random_state=0)]: a fraction above 1 is refused
    and so is, from pandas 1.4 on, a negative one; the number of rows is
    [round(frac * len)], the product being a float. *)
Definition sample_frac (choice : nat -> nat -> list nat) (df : DataFrame)
    (frac : Q) : result DataFrame :=
  if Qlt_le_dec 1 frac then Raise ValueError
  else if Qlt_le_dec frac 0 then Raise ValueError
  else sample_n choice df
         (py_round (float_mul frac (float_of_int (Z.of_nat (nrows df))))).

Definition column_or_nan (df : DataFrame) (c : string) : list cell :=
  match lookup c (data df) with
  | Some v => v
  | None => repeat (Float NaN) (nrows df)
  end.

(** [a.append(b)]: the rows of [b] after those of [a], over the labels of
    [a] followed by the labels only [b] has. *)
Definition append (a b : DataFrame) : DataFrame :=
  let labels :=
    columns a ++ filter (fun c => negb (mem c (columns a))) (columns b) in
  {| index := index a ++ index b;
     data := map (fun c => (c, column_or_nan a c ++ column_or_nan b c))
               labels |}.

(** ** Subsampler *)

(** [rand_subset(X, y, subset_frac, rand_state=0)] *)
Definition rand_subset (choice : nat -> nat -> list nat)
    (X : DataFrame) (y : Series) (subset_frac : Q)
  : result (DataFrame * Series) :=
  if Qlt_le_dec subset_frac 1 then
    X_copy <- setitem_series X "y" y ;;
    samp <- sample_frac choice X_copy subset_frac ;;
    y_samp <- getitem_series samp "y" ;;
    X_samp <- drop_column samp "y" ;;
    Ok (X_samp, y_samp)
  else Ok (X, y).

(** [imbalanced_subsample(X, y, subset_frac, rand_state=0)].  [num_samp]
    is a float, the product of the row count and the fraction, and
    [num_samp//2] is the floor of its half. *)
Definition imbalanced_subsample (choice : nat -> nat -> list nat)
    (X : DataFrame) (y : Series) (subset_frac : Q)
  : result (DataFrame * Series) :=
  if Qlt_le_dec subset_frac 1 then
    X_copy <- setitem_series X "y" y ;;
    yT <- getitem X_copy "y" ;;
    let X_copy_T := mask_rows (map (eq_bool true) yT) X_copy in
    yF <- getitem X_copy "y" ;;
    let X_copy_F := mask_rows (map (eq_bool false) yF) X_copy in
    let num_samp :=
      float_mul (float_of_int (Z.of_nat (nrows X_copy))) subset_frac in
    let half := Qfloor (num_samp / 2)%Q in
    samp_T <- (if (half <=? Z.of_nat (nrows X_copy_T))%Z
               then sample_n choice X_copy_T half
               else Ok X_copy_T) ;;
    samp_F <- (if (half <=? Z.of_nat (nrows X_copy_F))%Z
               then sample_n choice X_copy_F half
               else Ok X_copy_F) ;;
    let samp := append samp_T samp_F in
    y_samp <- getitem_series samp "y" ;;
    X_samp <- drop_column samp "y" ;;
    Ok (X_samp, y_samp)
  else Ok (X, y).

(** ** AirportSelector *)

(** The group keys of a column.  Airport codes are strings; rows whose key
    is NaN are left out of every group, and a key of another type is not
    covered by this model of [groupby] and is rejected. *)
Fixpoint group_keys (l : list cell) : result (list string) :=
  match l with
  | [] => Ok []
  | Str s :: l' => ks <- group_keys l' ;; Ok (s :: ks)
  | Float NaN :: l' => group_keys l'
  | _ :: _ => Raise TypeError
  end.

Fixpoint insert_label (k : string) (l : list string) : list string :=
  match l with
  | [] => [k]
  | k' :: l' => if String.leb k k' then k :: l else k' :: insert_label k l'
  end.

(** The distinct labels of a list, in ascending order. *)
Definition sorted_unique (l : list string) : list string :=
  fold_right insert_label [] (nodup string_dec l).

(** [df.groupby([col]).size()]: one entry per distinct key, keys ascending,
    each with the number of rows carrying it. *)
Definition groupby_size (df : DataFrame) (col : string)
  : result (list (string * Z)) :=
  v <- getitem df col ;;
  ks <- group_keys v ;;
  Ok (map (fun k => (k, Z.of_nat (count_occ string_dec ks k)))
        (sorted_unique ks)).

(** [a + b] on two series of counts: the result is indexed by the union of
    the two indexes; a label that one side lacks gets NaN ([None]). *)
Definition series_add (a b : list (string * Z)) : list (string * option Z) :=
  map (fun k => (k, match lookup k a, lookup k b with
                    | Some x, Some y => Some (x + y)%Z
                    | _, _ => None
                    end))
      (sorted_unique (map fst a ++ map fst b)).

(** [l[:K]] *)
Definition slice_to {A : Type} (K : Z) (l : list A) : list A :=
  if (0 <=? K)%Z then firstn (Z.to_nat K) l
  else firstn (List.length l - Z.to_nat (- K)) l.

(** [airport_select(df, num_airports)].  [sort_values_desc] stands for
    [Series.sort_values(ascending=False)] with its default, unstable sort:
    what it guarantees is stated as [sort_contract] below. *)
Definition airport_select
    (sort_values_desc : list (string * option Z) -> list (string * option Z))
    (df : DataFrame) (num_airports : Z) : result (list string) :=
  arrivals <- groupby_size df "Dest" ;;
  departures <- groupby_size df "Origin" ;;
  let flights := series_add arrivals departures in
  let airports :=
    map fst (slice_to num_airports (sort_values_desc flights)) in
  Ok airports.

(** Descending order of sort keys, NaN after every number. *)
Definition key_geb (a b : option Z) : bool :=
  match a, b with
  | Some x, Some y => (y <=? x)%Z
  | _, None => true
  | None, Some _ => false
  end.

Definition key_ge (a b : option Z) : Prop := key_geb a b = true.

(** What [sort_values(ascending=False)] promises: the same entries,
    numbers in non-increasing order, NaN last.  The order among equal
    values is left open. *)
Definition sort_contract
    (sorter : list (string * option Z) -> list (string * option Z)) : Prop :=
  forall s, Permutation (sorter s) s /\
            StronglySorted (fun p q => key_ge (snd p) (snd q)) (sorter s).

Fixpoint insert_desc (p : string * option Z) (l : list (string * option Z))
  : list (string * option Z) :=
  match l with
  | [] => [p]
  | q :: l' => if key_geb (snd p) (snd q) then p :: l
               else q :: insert_desc p l'
  end.

(** One sort that meets the contract: a stable insertion sort. *)
Definition stable_sort_desc (s : list (string * option Z))
  : list (string * option Z) :=
  fold_right insert_desc [] s.

(** ** TimeDecoder *)

(** [v//100 + (v%100)/60] on one cell.  Python's [//] and [%] round towards
    minus infinity, as [Z.div] and [Z.modulo] do; a boolean counts as 0 or
    1. *)
Definition hours_of_int (v : Z) : R :=
  (IZR (v / 100) + IZR (v mod 100) / 60)%R.

Definition hours_of_float (x : float) : float :=
  match x with
  | Fin r =>
      let q := IZR (Int_part (r / 100)) in
      Fin (q + (r - 100 * q) / 60)%R
  | _ => NaN
  end.

Definition hours_cell (c : cell) : result cell :=
  match c with
  | Int v => Ok (Float (Fin (hours_of_int v)))
  | Bool b => Ok (Float (Fin (hours_of_int (if b then 1 else 0))))
  | Float x => Ok (Float (hours_of_float x))
  | Str _ => Raise TypeError
  end.

(** [df[c] = v] for a column [v] computed from the frame itself. *)
Definition assign (df : DataFrame) (c : string) (v : list cell) : DataFrame :=
  {| index := index df; data := set_col c v (data df) |}.

(** [convert_hours(df, columns)] *)
Definition convert_hours (df : DataFrame) (cols : list string)
  : result DataFrame :=
  foldM (fun df_copy col =>
           v <- getitem df col ;;
           h <- mapM hours_cell v ;;
           Ok (assign df_copy col h))
        cols df.

(** ** CyclicalEncoder *)

(** A Python dict with string keys, in insertion order. *)
Definition dict (A : Type) : Type := list (string * A).

Definition dict_keys {A : Type} (d : dict A) : list string := map fst d.

Definition dict_get {A : Type} (d : dict A) (k : string) : result A :=
  match lookup k d with
  | Some v => Ok v
  | None => Raise KeyError
  end.

Definition to_float (c : cell) : result float :=
  match c with
  | Int z => Ok (Fin (IZR z))
  | Float x => Ok x
  | Bool b => Ok (Fin (if b then 1 else 0))
  | Str _ => Raise TypeError
  end.

(** [f(2*np.pi*x/max_value)] for [f] the sine or the cosine.  A zero
    [max_value] makes the quotient infinite or NaN, and so does a cell that
    is not finite; [f] of either is NaN. *)
Definition cyclical (f : R -> R) (max_value : Z) (x : float) : float :=
  match x with
  | Fin r => if (max_value =? 0)%Z then NaN
             else Fin (f (2 * PI * r / IZR max_value)%R)
  | _ => NaN
  end.

Definition cyclical_cell (f : R -> R) (max_value : Z) (c : cell)
  : result cell :=
  x <- to_float c ;; Ok (Float (cyclical f max_value x)).

(** The body of the loop of [convert_cyclical]: the sine and cosine
    columns of [col] are written, then [col] is dropped. *)
Definition encode_column (col_name_maxval_dict : dict Z)
    (df_copy : DataFrame) (col : string) : result DataFrame :=
  max_value <- dict_get col_name_maxval_dict col ;;
  v <- getitem df_copy col ;;
  s <- mapM (cyclical_cell sin max_value) v ;;
  let df_copy := assign df_copy ("sin(" ++ col ++ ")") s in
  v <- getitem df_copy col ;;
  c <- mapM (cyclical_cell cos max_value) v ;;
  let df_copy := assign df_copy ("cos(" ++ col ++ ")") c in
  drop_column df_copy col.

(** [convert_cyclical(df, col_name_maxval_dict)] *)
Definition convert_cyclical (df : DataFrame) (col_name_maxval_dict : dict Z)
  : result DataFrame :=
  foldM (encode_column col_name_maxval_dict)
        (dict_keys col_name_maxval_dict) df.

(** The two-argument arctangent the round-trip property is stated with:
    the angle in (-pi, pi] of the point (x, y). *)
Definition atan2 (y x : R) : R :=
  if Rlt_dec 0 x then atan (y / x)
  else if Rlt_dec x 0 then
    (if Rle_dec 0 y then atan (y / x) + PI else atan (y / x) - PI)%R
  else if Rlt_dec 0 y then (PI / 2)%R
  else if Rlt_dec y 0 then (- (PI / 2))%R
  else 0%R.

(** ** Normalizer *)

(** [df.loc[:, labels]] *)
Definition loc_columns (df : DataFrame) (labels : list string)
  : result DataFrame :=
  cols <- mapM (fun c => v <- getitem df c ;; Ok (c, v)) labels ;;
  Ok {| index := index df; data := cols |}.

(** [np.log] on one cell.  numpy does not raise outside the domain of the
    logarithm: it warns and yields minus infinity at zero and NaN below. *)
Definition np_log (c : cell) : result cell :=
  match c with
  | Int z =>
      Ok (Float (if (0 <? z)%Z then Fin (ln (IZR z))
                 else if (z =? 0)%Z then NegInf else NaN))
  | Float (Fin r) =>
      Ok (Float (if Rlt_dec 0 r then Fin (ln r)
                 else if Req_dec_T r 0 then NegInf else NaN))
  | Float PosInf => Ok (Float PosInf)
  | Float NegInf => Ok (Float NaN)
  | Float NaN => Ok (Float NaN)
  | Bool b => Ok (Float (if b then Fin 0 else NegInf))
  | Str _ => Raise TypeError
  end.

(** [np.log(df)] *)
Definition np_log_frame (df : DataFrame) : result DataFrame :=
  cols <- mapM (fun c => v <- mapM np_log (snd c) ;; Ok (fst c, v)) (data df) ;;
  Ok {| index := index df; data := cols |}.

(** [df[labels] = value] for a frame or a two-dimensional array [value]:
    the i-th label receives the i-th column. *)
Definition setitem_columns (df : DataFrame) (labels : list string)
    (value : list (list cell)) : result DataFrame :=
  if Nat.eqb (List.length labels) (List.length value) then
    Ok (fold_left (fun d cv => assign d (fst cv) (snd cv))
          (combine labels value) df)
  else Raise ValueError.

(** The fitted state of a [StandardScaler]. *)
Record StandardScaler : Type := mkScaler {
  mean_ : list float;
  scale_ : list float
}.

Definition is_inf (x : float) : bool :=
  match x with
  | PosInf | NegInf => true
  | _ => false
  end.

(** Input validation of the scaler: every cell must convert to a float,
    there must be at least one row and one column, and no cell may be
    infinite.  NaN is let through. *)
Definition check_array (df : DataFrame) : result (list (list float)) :=
  match mapM (fun c => mapM to_float (snd c)) (data df) with
  | Raise _ => Raise ValueError
  | Ok cols =>
      if existsb (existsb is_inf) cols then Raise ValueError
      else if Nat.eqb (nrows df) 0 then Raise ValueError
      else if Nat.eqb (List.length cols) 0 then Raise ValueError
      else Ok cols
  end.

Definition finite_values (l : list float) : list R :=
  flat_map (fun x => match x with Fin r => [r] | _ => [] end) l.

Definition Rsum (l : list R) : R := fold_right Rplus 0%R l.

(** Mean and population variance over the cells that are not NaN. *)
Definition nanmean (l : list float) : float :=
  match finite_values l with
  | [] => NaN
  | vs => Fin (Rsum vs / INR (List.length vs))%R
  end.

Definition nanvar (l : list float) : float :=
  match finite_values l with
  | [] => NaN
  | vs =>
      let m := (Rsum vs / INR (List.length vs))%R in
      Fin (Rsum (map (fun v => (v - m) * (v - m))%R vs)
           / INR (List.length vs))%R
  end.

(** The scale of a column: its standard deviation, or 1 when that is 0. *)
Definition scale_of (var : float) : float :=
  match var with
  | Fin v => if Req_dec_T v 0 then Fin 1 else Fin (sqrt v)
  | x => x
  end.

Definition standardize (m s x : float) : float :=
  match x, m, s with
  | Fin r, Fin mu, Fin sd => Fin ((r - mu) / sd)%R
  | _, _, _ => NaN
  end.

Fixpoint map3 {A B C D : Type} (f : A -> B -> C -> D)
    (la : list A) (lb : list B) (lc : list C) : list D :=
  match la, lb, lc with
  | a :: la', b :: lb', c :: lc' => f a b c :: map3 f la' lb' lc'
  | _, _, _ => []
  end.

(** [scaler.fit(df)] *)
Definition fit (df : DataFrame) : result StandardScaler :=
  cols <- check_array df ;;
  Ok {| mean_ := map nanmean cols;
        scale_ := map (fun c => scale_of (nanvar c)) cols |}.

(** [scaler.transform(df)] *)
Definition transform (scaler : StandardScaler) (df : DataFrame)
  : result (list (list cell)) :=
  cols <- check_array df ;;
  if Nat.eqb (List.length cols) (List.length (mean_ scaler)) then
    Ok (map3 (fun m s c => map (fun x => Float (standardize m s x)) c)
          (mean_ scaler) (scale_ scaler) cols)
  else Raise ValueError.

(** [scaler.fit_transform(df)] *)
Definition fit_transform (df : DataFrame)
  : result (StandardScaler * list (list cell)) :=
  scaler <- fit df ;;
  scaled <- transform scaler df ;;
  Ok (scaler, scaled).

(** [normalize(X_train, X_val, X_vars_normalize, X_vars_log)] *)
Definition normalize (X_train X_val : DataFrame)
    (X_vars_normalize X_vars_log : list string)
  : result (DataFrame * DataFrame * StandardScaler) :=
  train_to_scale <- loc_columns X_train X_vars_normalize ;;
  val_to_scale <- loc_columns X_val X_vars_normalize ;;
  train_to_log <- loc_columns train_to_scale X_vars_log ;;
  val_to_log <- loc_columns val_to_scale X_vars_log ;;
  let X_train_out := X_train in
  let X_val_out := X_val in
  train_logged <- np_log_frame train_to_log ;;
  train_to_scale <-
    setitem_columns train_to_scale X_vars_log (map snd (data train_logged)) ;;
  ' (scaler, train_scaled) <- fit_transform train_to_scale ;;
  X_train_out <- setitem_columns X_train_out X_vars_normalize train_scaled ;;
  val_logged <- np_log_frame val_to_log ;;
  val_to_scale <-
    setitem_columns val_to_scale X_vars_log (map snd (data val_logged)) ;;
  val_scaled <- transform scaler val_to_scale ;;
  X_val_out <- setitem_columns X_val_out X_vars_normalize val_scaled ;;
  Ok (X_train_out, X_val_out, scaler).


(** ** Vocabulary of the properties *)

(** A label vector is co-indexed with its feature matrix. *)
Definition row_aligned (X : DataFrame) (y : Series) : Prop :=
  s_index y = index X /\ List.length (values y) = List.length (s_index y).

(** What the seeded generator is relied on for: [choice N k] is [k]
    distinct positions below [N]. *)
Definition choice_ok (choice : nat -> nat -> list nat) : Prop :=
  forall N k, k <= N ->
    List.length (choice N k) = k /\
    NoDup (choice N k) /\
    Forall (fun p => p < N) (choice N k).

(** One generator that meets [choice_ok]: the first [k] positions. *)
Definition first_rows (N k : nat) : list nat := seq 0 k.

(** [(Xs, ys)] is a selection of rows of [(X, y)]: some list of row
    positions of [X] yields the index and every column of [Xs] and, with
    the same positions, the index and the labels of [ys]. *)
Definition drawn_from (X : DataFrame) (y : Series)
    (Xs : DataFrame) (ys : Series) : Prop :=
  exists ps,
    Forall (fun p => p < nrows X) ps /\
    index Xs = take ps (index X) 0%Z /\
    s_index ys = take ps (s_index y) 0%Z /\
    values ys = take ps (values y) (Float NaN) /\
    forall c vs, In (c, vs) (data Xs) ->
      exists vs', In (c, vs') (data X) /\ vs = take ps vs' (Float NaN).

(** The binary64 numbers, and the binary64 numbers nearest to a real. *)
Definition binary64 (d : Q) : Prop :=
  exists m e : Z,
    (Z.abs m < 2 ^ 53)%Z /\ (-1074 <= e <= 971)%Z /\
    (d == inject_Z m * 2 ^ e)%Q.

Definition nearest_binary64 (x t : Q) : Prop :=
  binary64 t /\ forall d, binary64 d -> (Qabs (x - t) <= Qabs (x - d))%Q.

(** The row positions whose label is [b], in order. *)
Definition positions_of (b : bool) (labels : list cell) : list nat :=
  mask_positions (map (eq_bool b) labels).

(** The number of labels equal to [b]. *)
Definition count_label (b : bool) (l : list cell) : nat :=
  List.length (filter (eq_bool b) l).

(** The two draws of the class-balanced sampler, for the labels [yv] of a
    frame of [nrows_X] rows and the half count [half]: positions of
    positive rows and positions of negative rows, none twice, [half] of
    a class that has that many and all of a class that has not. *)
Definition class_selections (yv : list cell) (nrows_X : nat) (half : Z)
    (selT selF : list nat) : Prop :=
  Forall (fun p => p < nrows_X /\
                   eq_bool true (nth p yv (Float NaN)) = true) selT /\
  Forall (fun p => p < nrows_X /\
                   eq_bool false (nth p yv (Float NaN)) = true) selF /\
  NoDup selT /\ NoDup selF /\
  Z.of_nat (List.length selT) = Z.min (Z.of_nat (count_label true yv)) half /\
  Z.of_nat (List.length selF) = Z.min (Z.of_nat (count_label false yv)) half.

(** A frame without its column ["y"]. *)
Definition without_y (df : DataFrame) : DataFrame :=
  {| index := index df;
     data := filter (fun col => negb (String.eqb "y" (fst col))) (data df) |}.

(** The number of rows in which an airport is the origin or the
    destination, given the two columns of codes. *)
Definition combined_count (origs dests : list string) (a : string) : Z :=
  Z.of_nat (count_occ string_dec origs a + count_occ string_dec dests a).

(** The airports observed in a table. *)
Definition distinct_airports (origs dests : list string) : list string :=
  nodup string_dec (dests ++ origs).

(** [x] occurs in [l] at an earlier position than [y]. *)
Definition precedes (x y : string) (l : list string) : Prop :=
  exists l1 l2 l3, l = l1 ++ x :: l2 ++ y :: l3.

(** A table of flight records holding the given origin and destination
    codes, row by row. *)
Definition flights_table (origs dests : list string) : DataFrame :=
  {| index := map Z.of_nat (seq 0 (List.length origs));
     data := [("Origin", map Str origs); ("Dest", map Str dests)] |}.

(** Six flights among three airports, each of them seen as origin and as
    destination: A occurs 6 times, B 4 times, C twice. *)
Definition ex_origs : list string := ["A"; "B"; "A"; "C"; "A"; "B"].
Definition ex_dests : list string := ["B"; "A"; "C"; "A"; "B"; "A"].

(** Sixty-five flights in which X occurs 50 times, as an origin only, Y 30
    times, 15 as origin and 15 as destination, and Z as a destination
    only. *)
Definition one_way_origs : list string := repeat "X" 50 ++ repeat "Y" 15.
Definition one_way_dests : list string :=
  repeat "Y" 15 ++ repeat "Z" 35 ++ repeat "Z" 15.

(** A matrix with one packed-time column and one other column. *)
Definition ex_times : DataFrame :=
  {| index := [0; 1; 2]%Z;
     data := [("CRSDepTime", [Int 1415; Int 0; Int 2359]);
              ("Month", [Int 1; Int 6; Int 12])] |}.

(** The encoded column: [f(2*pi*r/P)] for each finite value [r]. *)
Definition encoded (f : R -> R) (P : Z) (xs : list R) : list cell :=
  map (fun r => Float (Fin (f (2 * PI * r / IZR P)%R))) xs.

(** A matrix with a month column, and the period of that column. *)
Definition ex_months : DataFrame :=
  {| index := [0]%Z; data := [("Month", [Int 9])] |}.
Definition ex_periods : dict Z := [("Month", 12%Z)].

(** No key of the dictionary is itself the name of a column the encoder
    emits for a key. *)
Definition no_derived_keys (keys : list string) : Prop :=
  forall k k', In k keys -> In k' keys ->
    k <> ("sin(" ++ k' ++ ")")%string /\ k <> ("cos(" ++ k' ++ ")")%string.

(** A cell holding the number zero. *)
Definition zero_cell (c : cell) : Prop := c = Int 0 \/ c = Float (Fin 0%R).

(** The column [c] of [df], or nothing when [df] has no such column. *)
Definition column_of (df : DataFrame) (c : string) : list cell :=
  match lookup c (data df) with
  | Some v => v
  | None => []
  end.

(** A training and a validation matrix whose elapsed-time column is to be
    logged and scaled; the training column holds a negative value. *)
Definition ex_negative_train : DataFrame :=
  {| index := [0; 1; 2]%Z;
     data := [("CRSElapsedTime", [Int (-5); Int 60; Int 120]);
              ("Origin_JFK", [Bool true; Bool false; Bool true])] |}.
Definition ex_negative_val : DataFrame :=
  {| index := [0; 1]%Z;
     data := [("CRSElapsedTime", [Int 75; Int 130]);
              ("Origin_JFK", [Bool false; Bool true])] |}.

(** The same with a zero in the training column. *)
Definition ex_zero_train : DataFrame :=
  {| index := [0; 1; 2]%Z;
     data := [("CRSElapsedTime", [Int 0; Int 60; Int 120]);
              ("Origin_JFK", [Bool true; Bool false; Bool true])] |}.

(** A reference and a target matrix whose category columns differ. *)
Definition ex_train : DataFrame :=
  {| index := [0; 1; 2]%Z;
     data := [("CRSElapsedTime", [Int 60; Int 95; Int 120]);
              ("Origin_ATL", [Bool true; Bool false; Bool false]);
              ("Origin_JFK", [Bool false; Bool true; Bool true])] |}.
Definition ex_val : DataFrame :=
  {| index := [0; 1]%Z;
     data := [("CRSElapsedTime", [Int 75; Int 130]);
              ("Origin_JFK", [Bool true; Bool false]);
              ("Origin_SEA", [Bool false; Bool true])] |}.

(** A thousand rows of which the first hundred are delayed. *)
Definition ex_thousand_X : DataFrame :=
  {| index := map Z.of_nat (seq 0 1000);
     data := [("CRSElapsedTime",
               map (fun i => Int (Z.of_nat i)) (seq 0 1000))] |}.
Definition ex_thousand_y : Series :=
  {| s_index := map Z.of_nat (seq 0 1000);
     values := repeat (Bool true) 100 ++ repeat (Bool false) 900 |}.

(** A matrix of [n] rows and its labels, the first [p] of them positive. *)
Definition ex_rows_X (n : nat) : DataFrame :=
  {| index := map Z.of_nat (seq 0 n);
     data := [("CRSElapsedTime", map (fun i => Int (Z.of_nat i)) (seq 0 n))] |}.
Definition ex_rows_y (n p : nat) : Series :=
  {| s_index := map Z.of_nat (seq 0 n);
     values := repeat (Bool true) p ++ repeat (Bool false) (n - p) |}.

(** ** Missing values *)

Definition is_na (c : cell) : bool :=
  match c with
  | Float NaN => true
  | _ => false
  end.

(** [df.dropna()]: the rows in which no cell is missing, in order. *)
Definition dropna (df : DataFrame) : DataFrame :=
  take_rows
    (filter (fun i => forallb (fun col => negb (is_na (nth i (snd col) (Int 0))))
                        (data df))
            (seq 0 (nrows df)))
    df.

(** ** Airport restriction *)

(** [value in airports] for one cell of a column, as [isin] computes it. *)
Definition isin (airports : list string) (c : cell) : bool :=
  match c with
  | Str s => mem s airports
  | _ => false
  end.

(** [a & b] on two boolean columns of one frame. *)
Definition and_mask (a b : list bool) : list bool :=
  map (fun p => andb (fst p) (snd p)) (combine a b).

(** [airport_restrict(df, airports)] *)
Definition airport_restrict (df : DataFrame) (airports : list string)
  : result DataFrame :=
  dest <- getitem df "Dest" ;;
  orig <- getitem df "Origin" ;;
  let restricted :=
    mask_rows (and_mask (map (isin airports) dest) (map (isin airports) orig))
      df in
  Ok restricted.

(** ** Airline names *)

(** Whether a cell is the given dictionary key.  Carrier codes are strings;
    a missing code is NaN, which is found under a NaN key.  Keys of other
    types are not covered and never match. *)
Definition same_key (k c : cell) : bool :=
  match k, c with
  | Str a, Str b => String.eqb a b
  | Float NaN, Float NaN => true
  | _, _ => false
  end.

(** [d.get(c)] in the dictionary built by [to_dict] from the rows of a
    series: of several rows with one key the last one counts. *)
Fixpoint dict_last (rows : list (cell * cell)) (c : cell) : option cell :=
  match rows with
  | [] => None
  | (k, v) :: rows' =>
      match dict_last rows' c with
      | Some v' => Some v'
      | None => if same_key k c then Some v else None
      end
  end.

(** [series.map(d)] on one cell: a value that is no key becomes NaN. *)
Definition map_dict (rows : list (cell * cell)) (c : cell) : cell :=
  match dict_last rows c with
  | Some v => v
  | None => Float NaN
  end.

(** The merger the function hard-codes. *)
Definition merged_name : string := "Virgin America".
Definition successor_name : string := "Alaska Airlines Inc.".

Definition rename_merged (c : cell) : cell :=
  match c with
  | Str s => if String.eqb s merged_name then Str successor_name else c
  | _ => c
  end.

(** [airline_names(df)], with [carriers] the table read from the carrier
    lookup file. *)
Definition airline_names (carriers : DataFrame) (df : DataFrame)
  : result DataFrame :=
  descriptions <- getitem carriers "Description" ;;
  codes <- getitem carriers "Code" ;;
  let carrier_dict := combine codes descriptions in
  let df_new := df in
  airline <- getitem df "Reporting_Airline" ;;
  let df_new :=
    assign df_new "Reporting_Airline" (map (map_dict carrier_dict) airline) in
  airline_new <- getitem df_new "Reporting_Airline" ;;
  Ok (assign df_new "Reporting_Airline" (map rename_merged airline_new)).

(** ** Feature builder *)

(** The category of a cell of a column to encode.  Categories are strings;
    a missing value belongs to none.  Cells of other types are not covered
    by this model of [get_dummies] and are rejected. *)
Definition category_value (c : cell) : result (option string) :=
  match c with
  | Str s => Ok (Some s)
  | Float NaN => Ok None
  | _ => Raise TypeError
  end.

Definition observed (vals : list (option string)) : list string :=
  flat_map (fun v => match v with Some s => [s] | None => [] end) vals.

Definition indicator (level : string) (v : option string) : cell :=
  match v with
  | Some s => Int (if String.eqb s level then 1 else 0)
  | None => Int 0
  end.

(** The indicator columns of one column: one per observed category, in
    ascending order of category, named [<prefix>_<category>]. *)
Definition dummy_columns (prefix : string) (col : list cell)
  : result (list (string * list cell)) :=
  vals <- mapM category_value col ;;
  Ok (map (fun level => ((prefix ++ "_" ++ level)%string, map (indicator level) vals))
        (sorted_unique (observed vals))).

(** [data.drop(labels, axis=1)] for labels known to be present. *)
Definition drop_columns (df : DataFrame) (labels : list string) : DataFrame :=
  {| index := index df;
     data := filter (fun col => negb (mem (fst col) labels)) (data df) |}.

(** [pd.get_dummies(data, columns=cols)]: the columns that are not encoded,
    then the indicator columns of each encoded column.  When as many
    columns are encoded as the frame has, nothing is put in front; with
    nothing to concatenate at all, pandas raises.  A label to encode is
    taken to name one column of the frame. *)
Definition get_dummies (df : DataFrame) (cols : list string)
  : result DataFrame :=
  data_to_encode <- loc_columns df cols ;;
  let kept :=
    if Nat.eqb (List.length (data data_to_encode)) (List.length (data df))
    then []
    else [data (drop_columns df cols)] in
  dummies <- mapM (fun c => dummy_columns (fst c) (snd c))
               (data data_to_encode) ;;
  match kept ++ dummies with
  | [] => Raise ValueError
  | pieces => Ok {| index := index df; data := List.concat pieces |}
  end.

(** [value >= threshold] on one cell; NaN compares false. *)
Definition ge_cell (threshold : Z) (c : cell) : result bool :=
  match c with
  | Int z => Ok (threshold <=? z)%Z
  | Float (Fin r) => Ok (if Rle_dec (IZR threshold) r then true else false)
  | Float PosInf => Ok true
  | Float NegInf => Ok false
  | Float NaN => Ok false
  | Bool b => Ok (threshold <=? (if b then 1 else 0))%Z
  | Str _ => Raise TypeError
  end.

(** [predictors_and_target(df, X_vars, X_vars_categorical,
    target_delay_minutes)] *)
Definition predictors_and_target (df : DataFrame)
    (X_vars X_vars_categorical : list string) (target_delay_minutes : Z)
  : result (DataFrame * Series) :=
  subset <- loc_columns df X_vars ;;
  X <- get_dummies subset X_vars_categorical ;;
  delay <- getitem df "ArrDelayMinutes" ;;
  flags <- mapM (ge_cell target_delay_minutes) delay ;;
  let y := {| s_index := index df; values := map Bool flags |} in
  Ok (X, y).

(** ** Import *)

(** [airport_select(df, num_airports)] with the default [None] allowed for
    [num_airports]: the slice [[:None]] keeps everything. *)
Definition airport_select_opt
    (sort_values_desc : list (string * option Z) -> list (string * option Z))
    (df : DataFrame) (num_airports : option Z) : result (list string) :=
  match num_airports with
  | Some K => airport_select sort_values_desc df K
  | None =>
      arrivals <- groupby_size df "Dest" ;;
      departures <- groupby_size df "Origin" ;;
      Ok (map fst (sort_values_desc (series_add arrivals departures)))
  end.

(** [import_data(filenames, rand_frac, X_vars, X_vars_categorical, y_var,
    delay_minutes, X_vars_hours, X_vars_cyclical_dict, num_airports,
    airports_list, subsample_imbalanced)].  Reading the files is left to
    [read_flight_csv]; [carriers] is the carrier lookup table, and the sort
    and the random draw are those of [airport_select] and of the
    subsamplers. *)
Definition import_data
    (read_flight_csv : list string -> list string -> result DataFrame)
    (carriers : DataFrame)
    (sort_values_desc : list (string * option Z) -> list (string * option Z))
    (choice : nat -> nat -> list nat)
    (filenames : list string) (rand_frac : Q)
    (X_vars X_vars_categorical y_var : list string) (delay_minutes : Z)
    (X_vars_hours : list string) (X_vars_cyclical_dict : dict Z)
    (num_airports : option Z) (airports_list : option (list string))
    (subsample_imbalanced : bool)
  : result (DataFrame * Series * list string * DataFrame * Series) :=
  df <- read_flight_csv filenames (X_vars ++ y_var) ;;
  let df := dropna df in
  airports <- match airports_list with
              | Some l => Ok l
              | None => airport_select_opt sort_values_desc df num_airports
              end ;;
  restricted <- airport_restrict df airports ;;
  df_restricted <- airline_names carriers restricted ;;
  ' (X, y_full) <- predictors_and_target df_restricted X_vars
                     X_vars_categorical delay_minutes ;;
  X_hours <- convert_hours X X_vars_hours ;;
  X_full <- convert_cyclical X_hours X_vars_cyclical_dict ;;
  ' (X_samp, y_samp) <-
      (if subsample_imbalanced
       then imbalanced_subsample choice X_full y_full rand_frac
       else rand_subset choice X_full y_full rand_frac) ;;
  Ok (X_samp, y_samp, airports, X_full, y_full).

(** ** Vocabulary of the further properties *)

(** The indicator columns [get_dummies] makes of column [cat] of [df]
    (none when the column holds a cell that is not a category). *)
Definition dummies_of (df : DataFrame) (cat : string)
  : list (string * list cell) :=
  match mapM category_value (column_of df cat) with
  | Ok vals =>
      map (fun level => ((cat ++ "_" ++ level)%string,
                         map (indicator level) vals))
        (sorted_unique (observed vals))
  | Raise _ => []
  end.

(** The carrier lookup table. *)
Definition ex_carriers : DataFrame :=
  {| index := [0; 1; 2]%Z;
     data := [("Code", [Str "AS"; Str "DL"; Str "VX"]);
              ("Description", [Str "Alaska Airlines Inc.";
                               Str "Delta Air Lines Inc.";
                               Str "Virgin America"])] |}.

(** Six flight records; the arrival delay of the fourth is missing, and
    the carrier of the fifth is not in the lookup table. *)
Definition ex_flights : DataFrame :=
  {| index := [0; 1; 2; 3; 4; 5]%Z;
     data :=
       [("Month", [Int 1; Int 1; Int 6; Int 6; Int 12; Int 12]);
        ("CRSDepTime",
         [Int 1415; Int 600; Int 2359; Int 0; Int 930; Int 1745]);
        ("Origin", [Str "ATL"; Str "JFK"; Str "ATL";
                    Str "SEA"; Str "JFK"; Str "ATL"]);
        ("Dest", [Str "JFK"; Str "ATL"; Str "SEA";
                  Str "ATL"; Str "ATL"; Str "JFK"]);
        ("Reporting_Airline", [Str "DL"; Str "VX"; Str "AS";
                               Str "DL"; Str "ZZ"; Str "VX"]);
        ("CRSElapsedTime",
         [Int 120; Int 125; Int 300; Int 310; Int 130; Int 118]);
        ("ArrDelayMinutes",
         [Float (Fin 0); Float (Fin 22); Float (Fin 15);
          Float NaN; Float (Fin 3); Float (Fin 60)])] |}.

(** A reader that finds the records above in whatever files it is given
    and returns the columns asked for. *)
Definition ex_reader (filenames usecols : list string) : result DataFrame :=
  loc_columns ex_flights usecols.

Definition ex_predictors : list string :=
  ["Month"; "CRSDepTime"; "Origin"; "Dest"; "Reporting_Airline";
   "CRSElapsedTime"].
Definition ex_categorical : list string :=
  ["Origin"; "Dest"; "Reporting_Airline"].
Definition ex_cycles : dict Z := [("Month", 12%Z); ("CRSDepTime", 24%Z)].

(** The validation matrix of [ex_val] with its columns in another order,
    and one in which a label occurs twice. *)
Definition ex_val_reordered : DataFrame :=
  {| index := [0; 1]%Z;
     data := [("Origin_SEA", [Bool false; Bool true]);
              ("CRSElapsedTime", [Int 75; Int 130]);
              ("Origin_JFK", [Bool true; Bool false])] |}.
Definition ex_val_twice : DataFrame :=
  {| index := [0; 1]%Z;
     data := [("CRSElapsedTime", [Int 75; Int 130]);
              ("Origin_JFK", [Bool true; Bool false]);
              ("Origin_JFK", [Bool false; Bool true])] |}.

(** The cells of column [c] as the scaler receives them: logged when [c]
    is a column to log, and read as floats. *)
Definition prepared_column (df : DataFrame) (X_vars_log : list string)
    (c : string) : result (list float) :=
  v <- getitem df c ;;
  w <- (if mem c X_vars_log then mapM np_log v else Ok v) ;;
  mapM to_float w.

(** A cell scaled with the mean and the scale of a column. *)
Definition scaled_with (reference : list float) (x : float) : cell :=
  Float (standardize (nanmean reference) (scale_of (nanvar reference)) x).
(** * Properties *)

(** ** Labels and lookups *)

Lemma mem_In (k : string) (l : list string) : mem k l = true <-> In k l.
Proof.
  induction l as [|k' l IH]; simpl.
  - split; [discriminate | tauto].
  - rewrite orb_true_iff, IH, String.eqb_eq. split; intros [H|H]; auto.
Qed.

Lemma mem_not_In (k : string) (l : list string) : mem k l = false <-> ~ In k l.
Proof.
  rewrite <- mem_In. destruct (mem k l); split; congruence.
Qed.

Lemma nodupb_NoDup (l : list string) : nodupb l = true <-> NoDup l.
Proof.
  induction l as [|k l IH]; simpl.
  - split; [constructor | reflexivity].
  - rewrite andb_true_iff, negb_true_iff, mem_not_In, IH.
    split; [intros [H1 H2]; now constructor | now inversion 1].
Qed.

Lemma labels_eqb_eq (a b : list string) : labels_eqb a b = true <-> a = b.
Proof.
  unfold labels_eqb. destruct (list_eq_dec string_dec a b); split; congruence.
Qed.

Lemma lookup_None {A : Type} (k : string) (l : list (string * A)) :
  lookup k l = None <-> ~ In k (map fst l).
Proof.
  induction l as [|[k' v] l IH]; simpl.
  - tauto.
  - destruct (String.eqb_spec k k') as [->|Hne].
    + split; [discriminate | tauto].
    + rewrite IH. split; [intros H [E|I]; [congruence | tauto] | tauto].
Qed.

Lemma lookup_Some_In {A : Type} (k : string) (v : A) (l : list (string * A)) :
  lookup k l = Some v -> In (k, v) l.
Proof.
  induction l as [|[k' v'] l IH]; simpl; [discriminate|].
  destruct (String.eqb_spec k k') as [->|Hne].
  - intros [= ->]. now left.
  - auto.
Qed.

Lemma In_lookup_NoDup {A : Type} (k : string) (v : A) (l : list (string * A)) :
  NoDup (map fst l) -> In (k, v) l -> lookup k l = Some v.
Proof.
  induction l as [|[k' v'] l IH]; simpl; [tauto|].
  intros Hnd [E|I]; inversion Hnd as [|? ? Hni Hnd']; subst.
  - injection E as -> ->. now rewrite String.eqb_refl.
  - destruct (String.eqb_spec k k') as [->|Hne]; auto.
    exfalso. apply Hni. change k' with (fst (k', v)). now apply in_map.
Qed.

Lemma lookup_In_Some {A : Type} (k : string) (l : list (string * A)) :
  In k (map fst l) -> exists v, lookup k l = Some v.
Proof.
  intros H. destruct (lookup k l) as [v|] eqn:E; eauto.
  apply lookup_None in E. contradiction.
Qed.

Lemma lookup_map_key {A : Type} (g : string -> A) (k : string)
    (labels : list string) :
  In k labels -> lookup k (map (fun c => (c, g c)) labels) = Some (g k).
Proof.
  induction labels as [|k' l IH]; simpl; [tauto|].
  destruct (String.eqb_spec k k') as [->|Hne]; [reflexivity|].
  intros [E|I]; [congruence | auto].
Qed.

Lemma map_fst_key {A : Type} (g : string -> A) (labels : list string) :
  map fst (map (fun c => (c, g c)) labels) = labels.
Proof.
  rewrite map_map. simpl. apply map_id.
Qed.

(** ** SchemaAligner *)

(** The aligner returns whenever the target's labels are distinct, and what
    it returns is the target's columns fetched by the reference's labels. *)
Lemma missing_cat_add_Ok (X_train X_val : DataFrame) :
  NoDup (columns X_val) ->
  exists X_val_new,
    missing_cat_add X_train X_val = Ok X_val_new /\
    index X_val_new = index X_val /\
    columns X_val_new = columns X_train /\
    (forall c vs, In (c, vs) (data X_val_new) ->
        In c (columns X_train) /\
        vs = match lookup c (data X_val) with
             | Some v => v
             | None => repeat (Int 0) (nrows X_val)
             end).
Proof.
  intros Hnd. unfold missing_cat_add, reindex_columns.
  destruct (labels_eqb (columns X_val) (columns X_train)) eqn:E.
  - apply labels_eqb_eq in E. exists X_val. repeat split; auto.
    + rewrite <- E. unfold columns. change c with (fst (c, vs)).
      now apply in_map.
    + now rewrite (In_lookup_NoDup c vs (data X_val) Hnd H).
  - apply nodupb_NoDup in Hnd. rewrite Hnd. eexists. split; [reflexivity|].
    simpl. repeat split.
    + unfold columns. simpl. apply map_fst_key.
    + apply in_map_iff in H. destruct H as [c' [[= -> _] Hc]]. exact Hc.
    + apply in_map_iff in H. destruct H as [c' [[= -> <-] Hc]]. reflexivity.
Qed.

(** C1.  For a target matrix with distinct column labels, [missing_cat_add]
    returns a matrix whose column list is the reference's, label for label
    and in the same order; a reference column the target lacks is all
    zeros in the output (one zero per target row), and a target column the
    reference lacks is not in the output. *)
Theorem missing_cat_add_reference_schema (X_train X_val : DataFrame) :
  NoDup (columns X_val) ->
  exists X_val_new,
    missing_cat_add X_train X_val = Ok X_val_new /\
    columns X_val_new = columns X_train /\
    (forall c, In c (columns X_train) -> ~ In c (columns X_val) ->
        In c (columns X_val_new) /\
        getitem X_val_new c = Ok (repeat (Int 0) (nrows X_val)) /\
        forall vs, In (c, vs) (data X_val_new) ->
                   vs = repeat (Int 0) (nrows X_val)) /\
    (forall c, In c (columns X_val) -> ~ In c (columns X_train) ->
        ~ In c (columns X_val_new)).
Proof.
  intros Hnd.
  destruct (missing_cat_add_Ok X_train X_val Hnd)
    as [out [Hrun [_ [Hcols Hdata]]]].
  exists out. split; [exact Hrun|]. split; [exact Hcols|]. split.
  - intros c Hin Hnot.
    assert (Hzero : forall vs, In (c, vs) (data out) ->
                               vs = repeat (Int 0) (nrows X_val)).
    { intros vs Hvs. destruct (Hdata c vs Hvs) as [_ ->].
      apply lookup_None in Hnot. unfold columns in Hnot.
      now rewrite Hnot. }
    split; [now rewrite Hcols|]. split; [|exact Hzero].
    unfold getitem.
    destruct (lookup_In_Some c (data out)) as [vs Hvs].
    { fold (columns out). now rewrite Hcols. }
    rewrite Hvs. f_equal. apply Hzero. now apply lookup_Some_In.
  - intros c _ Hnot. now rewrite Hcols.
Qed.

(** C10.  For a well-formed target matrix, [missing_cat_add] keeps the
    target's rows: the output has the target's row index, every output
    column has one cell per target row, and a column that both matrices
    have carries the target's cells unchanged. *)
Theorem missing_cat_add_keeps_rows (X_train X_val : DataFrame) :
  wf_frame X_val ->
  exists X_val_new,
    missing_cat_add X_train X_val = Ok X_val_new /\
    index X_val_new = index X_val /\
    nrows X_val_new = nrows X_val /\
    Forall (fun col => List.length (snd col) = nrows X_val)
           (data X_val_new) /\
    (forall c, In c (columns X_train) -> In c (columns X_val) ->
        getitem X_val_new c = getitem X_val c /\
        forall vs, In (c, vs) (data X_val_new) -> In (c, vs) (data X_val)).
Proof.
  intros [Hnd Hlen].
  destruct (missing_cat_add_Ok X_train X_val Hnd)
    as [out [Hrun [Hidx [Hcols Hdata]]]].
  exists out. split; [exact Hrun|]. split; [exact Hidx|].
  split; [unfold nrows; now rewrite Hidx|]. split.
  - apply Forall_forall. intros [c vs] Hin. simpl.
    destruct (Hdata c vs Hin) as [_ ->].
    destruct (lookup c (data X_val)) as [v|] eqn:E.
    + apply lookup_Some_In in E.
      rewrite Forall_forall in Hlen. exact (Hlen (c, v) E).
    + apply repeat_length.
  - intros c Hin Hval.
    destruct (lookup_In_Some c (data X_val) Hval) as [v Hv].
    assert (Hsame : forall vs, In (c, vs) (data out) -> vs = v).
    { intros vs Hvs. destruct (Hdata c vs Hvs) as [_ ->]. now rewrite Hv. }
    split.
    + unfold getitem. rewrite Hv.
      destruct (lookup_In_Some c (data out)) as [vs Hvs].
      { fold (columns out). now rewrite Hcols. }
      rewrite Hvs. f_equal. apply Hsame. now apply lookup_Some_In.
    + intros vs Hvs. rewrite (Hsame vs Hvs). now apply lookup_Some_In.
Qed.

(** * Binary64 rounding *)

Section Binary64.

Local Open Scope Q_scope.

(** ** Rounding to an integer *)

Lemma py_round_cases (y : Q) :
  (py_round y = Qfloor y /\ y - inject_Z (Qfloor y) <= 1 # 2 /\
   (y - inject_Z (Qfloor y) == 1 # 2 -> Z.even (Qfloor y) = true)) \/
  (py_round y = (Qfloor y + 1)%Z /\ 1 # 2 <= y - inject_Z (Qfloor y) /\
   (y - inject_Z (Qfloor y) == 1 # 2 -> Z.even (Qfloor y) = false)).
Proof.
  unfold py_round.
  destruct (Qcompare (y - inject_Z (Qfloor y)) (1 # 2)) eqn:E.
  - apply Qeq_alt in E. destruct (Z.even (Qfloor y)) eqn:Ev.
    + left. split; [reflexivity|]. split; [rewrite E; apply Qle_refl | auto].
    + right. split; [reflexivity|]. split; [rewrite E; apply Qle_refl | auto].
  - apply Qlt_alt in E. left. split; [reflexivity|].
    split; [now apply Qlt_le_weak|].
    intros H. rewrite H in E. discriminate E.
  - apply Qgt_alt in E. right. split; [reflexivity|].
    split; [now apply Qlt_le_weak|].
    intros H. rewrite H in E. discriminate E.
Qed.

Lemma floor_bounds (y : Q) :
  inject_Z (Qfloor y) <= y /\ y < inject_Z (Qfloor y) + 1.
Proof.
  split; [apply Qfloor_le|].
  pose proof (Qlt_floor y) as H. now rewrite inject_Z_plus in H.
Qed.

Lemma Qabs_bounds (a : Q) : a <= Qabs a /\ - a <= Qabs a.
Proof.
  split; [apply Qle_Qabs|]. rewrite <- Qabs_opp. apply Qle_Qabs.
Qed.

(** [py_round y] is an integer nearest to [y]. *)
Lemma py_round_nearest (y : Q) (k : Z) :
  Qabs (y - inject_Z (py_round y)) <= Qabs (y - inject_Z k).
Proof.
  destruct (floor_bounds y) as [Hlo Hhi].
  destruct (Qabs_bounds (y - inject_Z k)) as [B1 B2].
  assert (Hk : inject_Z k <= inject_Z (Qfloor y) \/
               inject_Z (Qfloor y) + 1 <= inject_Z k).
  { destruct (Z_le_gt_dec k (Qfloor y)) as [H|H].
    - left. now rewrite <- Zle_Qle.
    - right. rewrite <- (inject_Z_plus _ 1), <- Zle_Qle. lia. }
  apply Qabs_Qle_condition.
  destruct (py_round_cases y) as [[-> [Hr _]]|[-> [Hr _]]];
    [|rewrite inject_Z_plus; change (inject_Z 1) with 1];
    destruct Hk; split; Lqa.lra.
Qed.

Lemma py_round_half (y : Q) : Qabs (y - inject_Z (py_round y)) <= 1 # 2.
Proof.
  destruct (floor_bounds y) as [Hlo Hhi].
  apply Qabs_Qle_condition.
  destruct (py_round_cases y) as [[-> [Hr _]]|[-> [Hr _]]];
    [|rewrite inject_Z_plus; change (inject_Z 1) with 1]; split; Lqa.lra.
Qed.

(** At a tie it is the even one. *)
Lemma py_round_even (y : Q) :
  Qabs (y - inject_Z (py_round y)) == 1 # 2 -> Z.even (py_round y) = true.
Proof.
  destruct (floor_bounds y) as [Hlo Hhi].
  destruct (py_round_cases y) as [[-> [Hr Hev]]|[-> [Hr Hev]]]; intros H.
  - apply Hev. rewrite Qabs_pos in H by Lqa.lra. exact H.
  - rewrite inject_Z_plus in H. change (inject_Z 1) with 1 in H.
    rewrite Qabs_neg in H by Lqa.lra.
    rewrite Z.even_add, Hev; [reflexivity|]. Lqa.lra.
Qed.

Lemma py_round_range (y : Q) (a b : Z) :
  inject_Z a <= y -> y <= inject_Z b -> (a <= py_round y <= b)%Z.
Proof.
  intros Ha Hb.
  pose proof (py_round_nearest y a) as Na.
  pose proof (py_round_nearest y b) as Nb.
  rewrite (Qabs_pos (y - inject_Z a)) in Na by Lqa.lra.
  rewrite (Qabs_neg (y - inject_Z b)) in Nb by Lqa.lra.
  apply Qabs_Qle_condition in Na. apply Qabs_Qle_condition in Nb.
  destruct Na as [Na1 Na2], Nb as [Nb1 Nb2].
  split; rewrite Zle_Qle; Lqa.lra.
Qed.

(** ** Powers of two *)

Lemma two_pow_pos (e : Z) : 0 < 2 ^ e.
Proof. now apply Qpower_0_lt. Qed.

Lemma two_pow_plus (a b : Z) : 2 ^ (a + b) == 2 ^ a * 2 ^ b.
Proof. now apply Qpower_plus. Qed.

Lemma two_pow_le (a b : Z) : (a <= b)%Z -> 2 ^ a <= 2 ^ b.
Proof. intros H. now apply Qpower_le_compat_l. Qed.

Lemma two_pow_Z (k : Z) : (0 <= k)%Z -> inject_Z (2 ^ k) == 2 ^ k.
Proof. intros H. now rewrite Zpower_Qpower. Qed.

Lemma two_pow_le_inv (a b : Z) : 2 ^ a <= 2 ^ b -> (a <= b)%Z.
Proof. intros H. now apply (Qpower_le_compat_l_inv 2). Qed.

Lemma two_pow_lt_inv (a b : Z) : 2 ^ a < 2 ^ b -> (a < b)%Z.
Proof. intros H. now apply (Qpower_lt_compat_l_inv 2). Qed.

(** [2 ^ a / 2 ^ b] *)
Lemma two_pow_div (a b : Z) : 2 ^ a / 2 ^ b == 2 ^ (a - b).
Proof.
  unfold Z.sub. rewrite two_pow_plus, Qpower_opp. reflexivity.
Qed.

(** ** The exponent of a positive number *)

Lemma floor_log2_spec (x : Q) :
  0 < x -> 2 ^ floor_log2 x <= x /\ x < 2 ^ (floor_log2 x + 1).
Proof.
  intros Hx. unfold floor_log2. destruct (Qle_bool 1 x) eqn:E.
  - apply Qle_bool_iff in E.
    destruct (floor_bounds x) as [Hlo Hhi].
    assert (Hn : (1 <= Qfloor x)%Z).
    { change 1%Z with (Qfloor 1). now apply Qfloor_resp_le. }
    destruct (Z.log2_spec (Qfloor x)) as [H1 H2]; [lia|].
    pose proof (Z.log2_nonneg (Qfloor x)) as H0.
    split.
    + rewrite <- two_pow_Z by exact H0.
      apply Qle_trans with (inject_Z (Qfloor x)); [|exact Hlo].
      now rewrite <- Zle_Qle.
    + rewrite <- two_pow_Z by lia.
      apply Qlt_le_trans with (inject_Z (Qfloor x) + 1); [exact Hhi|].
      rewrite <- (inject_Z_plus _ 1), <- Zle_Qle.
      change (Z.log2 (Qfloor x) + 1)%Z with (Z.succ (Z.log2 (Qfloor x))). lia.
  - assert (Hx1 : x < 1).
    { apply Qnot_le_lt. intros H. apply Qle_bool_iff in H. congruence. }
    assert (Hinv : / x * x == 1).
    { rewrite Qmult_comm. apply Qmult_inv_r. intros H. rewrite H in Hx.
      discriminate Hx. }
    assert (Hix : 1 < / x).
    { apply Qlt_shift_inv_l; [exact Hx|]. now rewrite Qmult_1_l. }
    pose proof (Qle_ceiling (/ x)) as Hc.
    pose proof (Qceiling_lt (/ x)) as Hc'.
    assert (Hc1 : (1 < Qceiling (/ x))%Z).
    { rewrite Zlt_Qlt. eapply Qlt_le_trans; eauto. }
    destruct (Z.log2_up_spec (Qceiling (/ x)) Hc1) as [H1 H2].
    pose proof (Z.log2_up_pos (Qceiling (/ x)) Hc1) as Hk.
    set (k := Z.log2_up (Qceiling (/ x))) in *.
    split.
    + rewrite Qpower_opp. apply Qle_shift_inv_r; [apply two_pow_pos|].
      rewrite <- two_pow_Z by lia.
      assert (H : / x <= inject_Z (2 ^ k)).
      { eapply Qle_trans; [exact Hc|]. now rewrite <- Zle_Qle. }
      apply Qle_trans with (x * / x);
        [rewrite Qmult_comm, Hinv; apply Qle_refl|].
      rewrite Qmult_le_l by exact Hx. exact H.
    + replace (- k + 1)%Z with (- (k - 1))%Z by lia.
      rewrite Qpower_opp. apply Qlt_shift_inv_l; [apply two_pow_pos|].
      rewrite <- two_pow_Z by lia.
      assert (H : inject_Z (2 ^ (k - 1)) < / x).
      { eapply Qle_lt_trans; [|exact Hc']. rewrite <- Zle_Qle.
        replace (k - 1)%Z with (Z.pred k) by lia. lia. }
      apply Qlt_le_trans with (x * / x);
        [|rewrite Qmult_comm, Hinv; apply Qle_refl].
      rewrite Qmult_lt_l by exact Hx. exact H.
Qed.

(** ** Rounding to binary64 *)

Lemma scaled_back (x : Q) (e : Z) : x / 2 ^ e * 2 ^ e == x.
Proof.
  rewrite Qmult_comm. apply Qmult_div_r.
  intros H. pose proof (two_pow_pos e) as Hp. rewrite H in Hp.
  discriminate Hp.
Qed.

(** On the grid of its exponent, [round_magnitude x] is nearest to [x]. *)
Lemma grid_nearest (x : Q) (k : Z) :
  Qabs (x - round_magnitude x)
  <= Qabs (x - inject_Z k * 2 ^ float_exponent x).
Proof.
  unfold round_magnitude. set (e := float_exponent x).
  set (y := x / 2 ^ e).
  assert (Hx : x == y * 2 ^ e) by (symmetry; apply scaled_back).
  pose proof (two_pow_pos e) as Hp.
  assert (E1 : x - inject_Z (py_round y) * 2 ^ e
               == (y - inject_Z (py_round y)) * 2 ^ e)
    by (rewrite Hx at 1; ring).
  assert (E2 : x - inject_Z k * 2 ^ e == (y - inject_Z k) * 2 ^ e)
    by (rewrite Hx at 1; ring).
  rewrite E1, E2, !Qabs_Qmult, (Qabs_pos (2 ^ e)) by now apply Qlt_le_weak.
  apply Qmult_le_compat_r; [apply py_round_nearest | now apply Qlt_le_weak].
Qed.

Lemma binary64_opp (d : Q) : binary64 d -> binary64 (- d).
Proof.
  intros [m [e [Hm [He Hd]]]]. exists (- m)%Z, e.
  split; [now rewrite Z.abs_opp|]. split; [exact He|].
  rewrite Hd, inject_Z_opp. ring.
Qed.

Lemma binary64_Z (n : Z) : (Z.abs n < 2 ^ 53)%Z -> binary64 (inject_Z n).
Proof.
  intros H. exists n, 0%Z. split; [exact H|]. split; [lia|].
  change (2 ^ 0) with 1. ring.
Qed.

Lemma round_magnitude_nearest (x : Q) :
  0 < x -> x <= 2 ^ 1023 -> nearest_binary64 x (round_magnitude x).
Proof.
  intros Hx Hmax.
  destruct (floor_log2_spec x Hx) as [Hlo Hhi].
  pose proof (grid_nearest x) as Hgrid. revert Hgrid.
  unfold round_magnitude, float_exponent.
  set (L := floor_log2 x) in *. set (e := Z.max (-1074) (L - 52)).
  set (y := x / 2 ^ e). intros Hgrid.
  pose proof (two_pow_pos e) as Hp.
  assert (HL : (L <= 1023)%Z)
    by (apply two_pow_le_inv; eapply Qle_trans; eauto).
  assert (He : (-1074 <= e <= 971)%Z) by (unfold e; lia).
  assert (Hy0 : 0 <= y).
  { unfold y. apply Qle_shift_div_l; [exact Hp|]. rewrite Qmult_0_l.
    now apply Qlt_le_weak. }
  assert (Hy53 : y <= inject_Z (2 ^ 53)).
  { rewrite two_pow_Z by lia. unfold y.
    apply Qle_shift_div_r; [exact Hp|]. rewrite <- two_pow_plus.
    apply Qlt_le_weak. eapply Qlt_le_trans; [exact Hhi|].
    apply two_pow_le. unfold e. lia. }
  destruct (py_round_range y 0 (2 ^ 53) Hy0 Hy53) as [Hm0 Hm53].
  split.
  - (* the result is a binary64 number *)
    destruct (Z_lt_le_dec (py_round y) (2 ^ 53)) as [Hlt|Hge].
    + exists (py_round y), e. split; [lia|]. split; [exact He|]. reflexivity.
    + assert (Em : py_round y = (2 ^ 53)%Z) by lia.
      assert (He' : (e <= 970)%Z).
      { destruct (Z_le_gt_dec e 970) as [?|Hgt]; [assumption|]. exfalso.
        assert (Ee : e = 971%Z) by lia.
        assert (Hy52 : y <= inject_Z (2 ^ 52)).
        { rewrite two_pow_Z by lia. unfold y.
          apply Qle_shift_div_r; [exact Hp|]. rewrite <- two_pow_plus.
          rewrite Ee. exact Hmax. }
        destruct (py_round_range y 0 (2 ^ 52) Hy0 Hy52) as [_ H].
        rewrite Em in H. revert H. apply Z.lt_nge.
        apply Z.pow_lt_mono_r; lia. }
      exists (2 ^ 52)%Z, (e + 1)%Z. split; [|split; [lia|]].
      * rewrite Z.abs_eq by (apply Z.pow_nonneg; lia).
        apply Z.pow_lt_mono_r; lia.
      * rewrite Em, !two_pow_Z by lia. rewrite <- !two_pow_plus.
        replace (53 + e)%Z with (52 + (e + 1))%Z by lia. reflexivity.
  - (* no binary64 number is nearer *)
    intros d [m' [e' [Hm' [He'' Hd]]]].
    destruct (Z_le_gt_dec e e') as [Hee|Hee].
    + assert (Ed : d == inject_Z (m' * 2 ^ (e' - e)) * 2 ^ e).
      { rewrite Hd, inject_Z_mult, two_pow_Z by lia.
        rewrite <- Qmult_assoc, <- two_pow_plus.
        replace (e' - e + e)%Z with e' by lia. reflexivity. }
      rewrite Ed. apply Hgrid.
    + assert (Ee : e = (L - 52)%Z) by (unfold e in *; lia).
      set (g := inject_Z (2 ^ 52) * 2 ^ e).
      assert (Hg : g <= x).
      { unfold g. rewrite two_pow_Z by lia. rewrite <- two_pow_plus.
        replace (52 + e)%Z with L by lia. exact Hlo. }
      assert (Hdg : d <= g).
      { unfold g. rewrite Hd.
        apply Qle_trans with (inject_Z (2 ^ 53) * 2 ^ e').
        - apply Qmult_le_compat_r; [|apply Qlt_le_weak, two_pow_pos].
          rewrite <- Zle_Qle. lia.
        - rewrite !two_pow_Z by lia. rewrite <- !two_pow_plus.
          apply two_pow_le. lia. }
      apply Qle_trans with (Qabs (x - g)); [apply Hgrid|].
      rewrite Qabs_pos by Lqa.lra.
      destruct (Qabs_bounds (x - d)) as [B _]. Lqa.lra.
Qed.

Lemma nearest_binary64_opp (x t : Q) :
  nearest_binary64 x t -> nearest_binary64 (- x) (- t).
Proof.
  intros [Ht Hn]. split; [now apply binary64_opp|].
  intros d Hd. specialize (Hn (- d) (binary64_opp d Hd)).
  assert (E1 : - x - - t == - (x - t)) by ring.
  assert (E2 : - x - d == - (x - - d)) by ring.
  now rewrite E1, E2, !Qabs_opp.
Qed.

Lemma nearest_binary64_eq (x x' t t' : Q) :
  x == x' -> t == t' -> nearest_binary64 x t -> nearest_binary64 x' t'.
Proof.
  intros Ex Et [[m [e [Hm [He Ht]]]] Hn]. split.
  - exists m, e. split; [exact Hm|]. split; [exact He|]. now rewrite <- Et.
  - intros d Hd. rewrite <- Ex, <- Et. now apply Hn.
Qed.

(** [round_float64 x] is a binary64 number, and no binary64 number is
    nearer to [x]. *)
Lemma round_float64_nearest (x : Q) :
  Qabs x <= 2 ^ 1023 -> nearest_binary64 x (round_float64 x).
Proof.
  intros Hmax. apply Qabs_Qle_condition in Hmax. destruct Hmax as [H1 H2].
  unfold round_float64. destruct (Qcompare x 0) eqn:E.
  - apply Qeq_alt in E. split.
    + apply (binary64_Z 0). reflexivity.
    + intros d _. rewrite E. change (0 - 0) with 0. apply Qabs_nonneg.
  - apply Qlt_alt in E.
    apply (nearest_binary64_eq (- - x) x (- round_magnitude (- x))
             (- round_magnitude (- x))); [ring | reflexivity|].
    apply nearest_binary64_opp. apply round_magnitude_nearest; Lqa.lra.
  - apply Qgt_alt in E. now apply round_magnitude_nearest.
Qed.

Lemma nearest_le (x t b : Q) :
  nearest_binary64 x t -> binary64 b -> x <= b -> t <= b.
Proof.
  intros [_ Hn] Hb Hxb. specialize (Hn b Hb).
  rewrite (Qabs_neg (x - b)) in Hn by Lqa.lra.
  destruct (Qabs_bounds (x - t)) as [_ B]. Lqa.lra.
Qed.

Lemma nearest_ge (x t a : Q) :
  nearest_binary64 x t -> binary64 a -> a <= x -> a <= t.
Proof.
  intros [_ Hn] Ha Hax. specialize (Hn a Ha).
  rewrite (Qabs_pos (x - a)) in Hn by Lqa.lra.
  destruct (Qabs_bounds (x - t)) as [B _]. Lqa.lra.
Qed.

Lemma nearest_exact (x t : Q) :
  nearest_binary64 x t -> binary64 x -> t == x.
Proof.
  intros Hn Hx. apply Qle_antisym.
  - apply (nearest_le x t x Hn Hx). apply Qle_refl.
  - apply (nearest_ge x t x Hn Hx). apply Qle_refl.
Qed.

(** The float product that decides a row count lies between 0 and the
    count, for a fraction between 0 and 1 and a count that is a binary64
    number. *)
Lemma float_of_int_exact (n : Z) :
  (Z.abs n < 2 ^ 53)%Z -> float_of_int n == inject_Z n.
Proof.
  intros Hn. apply nearest_exact; [|now apply binary64_Z].
  apply round_float64_nearest. apply Qabs_Qle_condition.
  assert (H : inject_Z (2 ^ 53) <= 2 ^ 1023).
  { rewrite two_pow_Z by lia. apply two_pow_le. lia. }
  assert (H1 : inject_Z n <= inject_Z (2 ^ 53)) by (rewrite <- Zle_Qle; lia).
  assert (H2 : inject_Z (- 2 ^ 53) <= inject_Z n)
    by (rewrite <- Zle_Qle; lia).
  rewrite inject_Z_opp in H2. split; Lqa.lra.
Qed.

Lemma float_product_nearest (n : Z) (f : Q) :
  (0 <= n < 2 ^ 53)%Z -> 0 <= f -> f <= 1 ->
  nearest_binary64 (inject_Z n * f) (float_mul (float_of_int n) f) /\
  nearest_binary64 (f * inject_Z n) (float_mul f (float_of_int n)).
Proof.
  intros Hn Hf0 Hf1.
  assert (En : float_of_int n == inject_Z n)
    by (apply float_of_int_exact; lia).
  assert (Hn0 : 0 <= inject_Z n)
    by (change 0 with (inject_Z 0); rewrite <- Zle_Qle; lia).
  assert (Hmax : inject_Z n <= 2 ^ 1023).
  { apply Qle_trans with (inject_Z (2 ^ 53)); [rewrite <- Zle_Qle; lia|].
    rewrite two_pow_Z by lia. apply two_pow_le. lia. }
  assert (Hle : inject_Z n * f <= inject_Z n).
  { rewrite Qmult_comm. rewrite <- (Qmult_1_l (inject_Z n)) at 2.
    now apply Qmult_le_compat_r. }
  assert (H0 : 0 <= inject_Z n * f) by now apply Qmult_le_0_compat.
  assert (Habs : Qabs (inject_Z n * f) <= 2 ^ 1023).
  { apply Qabs_Qle_condition. pose proof (two_pow_pos 1023). split; Lqa.lra. }
  split.
  - apply (nearest_binary64_eq (float_of_int n * f) _
             (float_mul (float_of_int n) f) _);
      [now rewrite En | reflexivity|].
    apply round_float64_nearest. now rewrite En.
  - apply (nearest_binary64_eq (f * float_of_int n) _
             (float_mul f (float_of_int n)) _);
      [now rewrite En | reflexivity|].
    apply round_float64_nearest. now rewrite En, Qmult_comm.
Qed.

Lemma float_count_bounds (n : Z) (f : Q) :
  (0 <= n < 2 ^ 53)%Z -> 0 <= f -> f <= 1 ->
  0 <= float_mul (float_of_int n) f <= inject_Z n /\
  0 <= float_mul f (float_of_int n) <= inject_Z n.
Proof.
  intros Hn Hf0 Hf1.
  destruct (float_product_nearest n f Hn Hf0 Hf1) as [N1 N2].
  assert (Hn0 : 0 <= inject_Z n)
    by (change 0 with (inject_Z 0); rewrite <- Zle_Qle; lia).
  assert (Hle : inject_Z n * f <= inject_Z n).
  { rewrite Qmult_comm. rewrite <- (Qmult_1_l (inject_Z n)) at 2.
    now apply Qmult_le_compat_r. }
  assert (H0 : 0 <= inject_Z n * f) by now apply Qmult_le_0_compat.
  assert (Bn : binary64 (inject_Z n)) by (apply binary64_Z; lia).
  assert (B0 : binary64 0) by (apply (binary64_Z 0); reflexivity).
  repeat split.
  - exact (nearest_ge _ _ 0 N1 B0 H0).
  - exact (nearest_le _ _ _ N1 Bn Hle).
  - apply (nearest_ge _ _ 0 N2 B0). now rewrite Qmult_comm.
  - apply (nearest_le _ _ _ N2 Bn). now rewrite Qmult_comm.
Qed.

End Binary64.

(** ** Row selection *)

Lemma take_length {A : Type} (ps : list nat) (l : list A) (d : A) :
  List.length (take ps l d) = List.length ps.
Proof. apply length_map. Qed.

Lemma take_app {A : Type} (ps qs : list nat) (l : list A) (d : A) :
  take (ps ++ qs) l d = take ps l d ++ take qs l d.
Proof. apply map_app. Qed.

Lemma take_take {A : Type} (ps qs : list nat) (l : list A) (d : A) :
  Forall (fun p => p < List.length qs) ps ->
  take ps (take qs l d) d = take (take ps qs 0) l d.
Proof.
  intros H. unfold take. rewrite map_map. apply map_ext_in.
  intros p Hp. rewrite Forall_forall in H.
  rewrite (nth_indep _ d (nth 0 l d)) by (rewrite length_map; auto).
  apply (map_nth (fun q => nth q l d)).
Qed.

Lemma take_seq {A : Type} (l : list A) (d : A) :
  take (seq 0 (List.length l)) l d = l.
Proof.
  apply nth_ext with (d := d) (d' := d).
  - now rewrite take_length, length_seq.
  - intros n Hn. rewrite take_length, length_seq in Hn. unfold take.
    rewrite (nth_indep _ d (nth 0 l d)) by (now rewrite length_map, length_seq).
    rewrite (map_nth (fun q => nth q l d)). now rewrite seq_nth.
Qed.

Lemma take_rows_take_rows (ps qs : list nat) (df : DataFrame) :
  Forall (fun p => p < List.length qs) ps ->
  take_rows ps (take_rows qs df) = take_rows (take ps qs 0) df.
Proof.
  intros H. unfold take_rows. simpl. f_equal.
  - now apply take_take.
  - rewrite map_map. apply map_ext. intros [c v]. simpl.
    f_equal. now apply take_take.
Qed.

Lemma nrows_take_rows (ps : list nat) (df : DataFrame) :
  nrows (take_rows ps df) = List.length ps.
Proof. unfold nrows. simpl. apply take_length. Qed.

Lemma columns_take_rows (ps : list nat) (df : DataFrame) :
  columns (take_rows ps df) = columns df.
Proof.
  unfold columns, take_rows. simpl. rewrite map_map. reflexivity.
Qed.

Lemma lookup_take_rows (ps : list nat) (df : DataFrame) (c : string) :
  lookup c (data (take_rows ps df)) =
  option_map (fun v => take ps v (Float NaN)) (lookup c (data df)).
Proof.
  unfold take_rows. simpl. induction (data df) as [|[c' v] l IH]; simpl.
  - reflexivity.
  - destruct (String.eqb c c'); [reflexivity | exact IH].
Qed.

(** ** Column assignment *)

Lemma lookup_set_col_same (c : string) (v : list cell)
    (l : list (string * list cell)) :
  lookup c (set_col c v l) = Some v.
Proof.
  induction l as [|[c' v'] l IH]; simpl.
  - now rewrite String.eqb_refl.
  - destruct (String.eqb c c') eqn:E; simpl.
    + now rewrite String.eqb_refl.
    + now rewrite E.
Qed.

Lemma In_set_col (c c' : string) (v vs : list cell)
    (l : list (string * list cell)) :
  In (c', vs) (set_col c v l) -> (c' = c /\ vs = v) \/ In (c', vs) l.
Proof.
  induction l as [|[k w] l IH]; simpl.
  - intros [[= <- <-]|[]]. now left.
  - destruct (String.eqb c k).
    + intros [[= <- <-]|H]; [now left | right; now right].
    + intros [E|H]; [right; now left|].
      destruct (IH H) as [?|?]; [now left | right; now right].
Qed.

Lemma columns_set_col_In (c : string) (v : list cell)
    (l : list (string * list cell)) (k : string) :
  In k (map fst (set_col c v l)) <-> k = c \/ In k (map fst l).
Proof.
  induction l as [|[c' v'] l IH]; simpl.
  - intuition.
  - destruct (String.eqb_spec c c') as [->|Hne]; simpl.
    + intuition.
    + rewrite IH. intuition.
Qed.

Lemma NoDup_set_col (c : string) (v : list cell)
    (l : list (string * list cell)) :
  NoDup (map fst l) -> NoDup (map fst (set_col c v l)).
Proof.
  induction l as [|[c' v'] l IH]; simpl; intros Hnd.
  - repeat constructor. tauto.
  - inversion Hnd as [|? ? Hni Hnd']; subst.
    destruct (String.eqb_spec c c') as [->|Hne]; simpl.
    + now constructor.
    + constructor; [|auto].
      rewrite columns_set_col_In. intros [E|I]; [congruence | tauto].
Qed.

Lemma In_set_col_other (c c' : string) (v vs : list cell)
    (l : list (string * list cell)) :
  c' <> c -> In (c', vs) l -> In (c', vs) (set_col c v l).
Proof.
  intros Hne. induction l as [|[k w] l IH]; simpl; [tauto|].
  destruct (String.eqb_spec c k) as [->|Hck].
  - intros [[= -> ->]|H]; [congruence | now right].
  - intros [E|H]; [now left | right; auto].
Qed.

Lemma setitem_series_aligned (X : DataFrame) (c : string) (y : Series) :
  row_aligned X y ->
  setitem_series X c y = Ok (assign X c (values y)).
Proof.
  intros [Hidx Hlen].
  assert (R : reindex_series y (index X) = Ok (values y)).
  { unfold reindex_series, index_eqb.
    destruct (list_eq_dec Z.eq_dec (s_index y) (index X)); congruence. }
  unfold setitem_series, assign. rewrite Hidx in Hlen.
  destruct (index X) eqn:EX; destruct (values y) eqn:EV;
    try discriminate; rewrite R; reflexivity.
Qed.

(** ** Masks *)

Lemma filter_seq_shift (P : nat -> bool) (n : nat) :
  filter P (seq 1 n) = map S (filter (fun i => P (S i)) (seq 0 n)).
Proof.
  rewrite <- seq_shift. induction (seq 0 n) as [|a l IH]; simpl.
  - reflexivity.
  - destruct (P (S a)); simpl; now rewrite IH.
Qed.

Lemma mask_positions_length (m : list bool) :
  List.length (mask_positions m) = List.length (filter (fun b => b) m).
Proof.
  unfold mask_positions. induction m as [|b m IH]; [reflexivity|].
  cbn [List.length seq filter nth].
  rewrite filter_seq_shift. cbn [nth].
  destruct b; cbn [List.length]; rewrite length_map; now rewrite IH.
Qed.

Lemma mask_positions_spec (m : list bool) (p : nat) :
  In p (mask_positions m) <-> p < List.length m /\ nth p m false = true.
Proof.
  unfold mask_positions. rewrite filter_In, in_seq. intuition lia.
Qed.

Lemma filter_map_length {A : Type} (f : A -> bool) (l : list A) :
  List.length (filter (fun b => b) (map f l)) = List.length (filter f l).
Proof.
  induction l as [|a l IH]; simpl; [reflexivity|].
  destruct (f a); simpl; now rewrite IH.
Qed.

Lemma mask_label_spec (b : bool) (yv : list cell) (p : nat) :
  In p (mask_positions (map (eq_bool b) yv)) ->
  p < List.length yv /\ eq_bool b (nth p yv (Float NaN)) = true.
Proof.
  rewrite mask_positions_spec, length_map. intros [Hp Hn]. split; [exact Hp|].
  rewrite (nth_indep _ false (eq_bool b (Float NaN))) in Hn
    by now rewrite length_map.
  now rewrite (map_nth (eq_bool b)) in Hn.
Qed.

Lemma eq_bool_exclusive (c : cell) :
  eq_bool true c = true -> eq_bool false c = true -> False.
Proof.
  destruct c as [z|[r| | |]|[|]|s]; simpl; try discriminate.
  - rewrite !Z.eqb_eq. lia.
  - destruct (Req_dec_T r 1), (Req_dec_T r 0); try discriminate. lra.
Qed.

(** ** Appending two selections of one frame *)

Lemma filter_known_labels (l : list string) :
  filter (fun c => negb (mem c l)) l = [].
Proof.
  assert (H : forall l', (forall c, In c l' -> In c l) ->
                         filter (fun c => negb (mem c l)) l' = []).
  { induction l' as [|a l' IH]; simpl; intros Hsub; [reflexivity|].
    assert (Ha : mem a l = true) by (apply mem_In, Hsub; now left).
    rewrite Ha. simpl. apply IH. intros c Hc. apply Hsub. now right. }
  apply H. auto.
Qed.

Lemma append_take_rows (ps qs : list nat) (df : DataFrame) :
  NoDup (columns df) ->
  append (take_rows ps df) (take_rows qs df) = take_rows (ps ++ qs) df.
Proof.
  intros Hnd. unfold append. rewrite !columns_take_rows.
  rewrite filter_known_labels, app_nil_r.
  unfold column_or_nan. transitivity
    {| index := take (ps ++ qs) (index df) 0%Z;
       data := map (fun col => (fst col, take (ps ++ qs) (snd col) (Float NaN)))
                 (data df) |}; [|reflexivity].
  f_equal.
  - symmetry. apply take_app.
  - unfold columns. rewrite map_map. apply map_ext_in.
    intros [c v] Hin. cbn [fst snd]. rewrite !lookup_take_rows.
    rewrite (In_lookup_NoDup c v (data df) Hnd Hin). cbn [option_map].
    now rewrite take_app.
Qed.

Lemma getitem_series_take_rows (ps : list nat) (df : DataFrame) (c : string)
    (v : list cell) :
  lookup c (data df) = Some v ->
  getitem_series (take_rows ps df) c =
  Ok {| s_index := take ps (index df) 0%Z;
        values := take ps v (Float NaN) |}.
Proof.
  intros H. unfold getitem_series, getitem.
  rewrite lookup_take_rows, H. reflexivity.
Qed.

Lemma drop_column_take_rows (ps : list nat) (df : DataFrame) (c : string)
    (v : list cell) :
  lookup c (data df) = Some v ->
  drop_column (take_rows ps df) c =
  Ok {| index := take ps (index df) 0%Z;
        data := filter (fun col => negb (String.eqb c (fst col)))
                  (data (take_rows ps df)) |}.
Proof.
  intros H. unfold drop_column. rewrite columns_take_rows.
  assert (E : mem c (columns df) = true).
  { apply mem_In. apply lookup_Some_In in H.
    unfold columns. change c with (fst (c, v)). now apply in_map. }
  now rewrite E.
Qed.

Lemma Qfloor_nonneg (x : Q) : (0 <= x)%Q -> (0 <= Qfloor x)%Z.
Proof.
  intros H. change 0%Z with (Qfloor 0). now apply Qfloor_resp_le.
Qed.

Lemma py_round_bounds (x : Q) (n : Z) :
  (0 <= x)%Q -> (x <= inject_Z n)%Q -> (0 <= py_round x <= n)%Z.
Proof.
  intros H0 Hn.
  assert (Hfl0 : (0 <= Qfloor x)%Z) by now apply Qfloor_nonneg.
  assert (Hfln : (Qfloor x <= n)%Z).
  { rewrite <- (Qfloor_Z n). now apply Qfloor_resp_le. }
  assert (Hup : Qcompare (x - inject_Z (Qfloor x))%Q (1 # 2)%Q <> Lt ->
                (Qfloor x < n)%Z).
  { intros Hc. destruct (Z_lt_le_dec (Qfloor x) n) as [?|Hge]; [assumption|].
    exfalso. apply Hc. apply Qlt_alt.
    apply Qle_lt_trans with (y := 0%Q); [|reflexivity].
    apply Qle_minus_iff. setoid_replace (0 + - (x - inject_Z (Qfloor x)))%Q
      with (inject_Z (Qfloor x) - x)%Q by ring.
    apply -> Qle_minus_iff. apply Qle_trans with (y := inject_Z n); [exact Hn|].
    rewrite <- Zle_Qle. exact Hge. }
  unfold py_round.
  destruct (Qcompare (x - inject_Z (Qfloor x))%Q (1 # 2)%Q) eqn:E.
  - destruct (Z.even (Qfloor x)); [lia|].
    assert (Qfloor x < n)%Z by (apply Hup; discriminate). lia.
  - lia.
  - assert (Qfloor x < n)%Z by (apply Hup; discriminate). lia.
Qed.

Lemma filter_take_all (b : bool) (sel : list nat) (yv : list cell) :
  Forall (fun p => eq_bool b (nth p yv (Float NaN)) = true) sel ->
  filter (eq_bool b) (take sel yv (Float NaN)) = take sel yv (Float NaN).
Proof.
  induction 1 as [|p sel Hp _ IH]; simpl; [reflexivity|].
  rewrite Hp. f_equal. exact IH.
Qed.

Lemma filter_take_none (b : bool) (sel : list nat) (yv : list cell) :
  Forall (fun p => eq_bool (negb b) (nth p yv (Float NaN)) = true) sel ->
  filter (eq_bool b) (take sel yv (Float NaN)) = [].
Proof.
  induction 1 as [|p sel Hp _ IH]; simpl; [reflexivity|].
  destruct (eq_bool b (nth p yv (Float NaN))) eqn:E; [|exact IH].
  exfalso. destruct b; simpl in Hp;
    [exact (eq_bool_exclusive _ E Hp) | exact (eq_bool_exclusive _ Hp E)].
Qed.

(** A selection of rows of [(X, y)] through the working copy that carries
    the labels as column ["y"]. *)
Lemma selection_drawn_from (X : DataFrame) (y : Series) (sel : list nat) :
  row_aligned X y ->
  Forall (fun p => p < nrows X) sel ->
  let Xs := without_y (take_rows sel (assign X "y" (values y))) in
  let ys := {| s_index := take sel (index X) 0%Z;
               values := take sel (values y) (Float NaN) |} in
  row_aligned Xs ys /\ nrows Xs = List.length (values ys) /\
  drawn_from X y Xs ys.
Proof.
  intros [Hidx Hlen] Hsel Xs ys. split; [|split].
  - split; [reflexivity|]. simpl. now rewrite !take_length.
  - unfold nrows. simpl. now rewrite !take_length.
  - exists sel. split; [exact Hsel|]. split; [reflexivity|].
    split; [simpl; now rewrite Hidx|]. split; [reflexivity|].
    intros c vs Hin. simpl in Hin. apply filter_In in Hin.
    destruct Hin as [Hin Hc]. apply in_map_iff in Hin.
    destruct Hin as [[c' v'] [[= -> <-] Hin']]. cbn [fst snd] in *.
    exists v'. split; [|reflexivity].
    apply In_set_col in Hin'. destruct Hin' as [[-> _]|?]; [|assumption].
    discriminate Hc.
Qed.

(** A frame and its labels are a selection of themselves. *)
Lemma identity_drawn_from (X : DataFrame) (y : Series) :
  wf_frame X -> row_aligned X y -> drawn_from X y X y.
Proof.
  intros [_ Hcols] [Hidx Hlen]. exists (seq 0 (nrows X)).
  split; [apply Forall_forall; intros p Hp; apply in_seq in Hp; lia|].
  split; [symmetry; apply take_seq|].
  split; [unfold nrows; rewrite <- Hidx; symmetry; apply take_seq|].
  split.
  - unfold nrows. rewrite <- Hidx, <- Hlen. symmetry. apply take_seq.
  - intros c vs Hin. exists vs. split; [exact Hin|].
    rewrite Forall_forall in Hcols. rewrite <- (Hcols _ Hin). simpl.
    symmetry. apply take_seq.
Qed.

Lemma mask_positions_NoDup (m : list bool) : NoDup (mask_positions m).
Proof. unfold mask_positions. apply NoDup_filter, seq_NoDup. Qed.

Lemma take_NoDup (cs ps : list nat) :
  NoDup ps -> NoDup cs -> Forall (fun c => c < List.length ps) cs ->
  NoDup (take cs ps 0).
Proof.
  intros Hps Hcs Hlt. unfold take.
  induction Hcs as [|c cs Hc _ IH]; simpl; [constructor|].
  inversion Hlt as [|? ? Hc0 Hlt']; subst.
  constructor; [|now apply IH].
  intros Hin. apply in_map_iff in Hin. destruct Hin as [c' [Heq Hc']].
  rewrite Forall_forall in Hlt'.
  rewrite (NoDup_nth ps 0) in Hps.
  assert (c' = c) by (apply Hps; [now apply Hlt' | exact Hc0 | exact Heq]).
  congruence.
Qed.

(** The half of the float product is not negative. *)
Lemma half_nonneg (n : nat) (f : Q) :
  (Z.of_nat n < 2 ^ 53)%Z -> (0 <= f)%Q -> (f <= 1)%Q ->
  (0 <= Qfloor (float_mul (float_of_int (Z.of_nat n)) f / 2)%Q)%Z.
Proof.
  intros Hn Hf0 Hf1. apply Qfloor_nonneg.
  apply Qle_shift_div_l; [reflexivity|]. rewrite Qmult_0_l.
  destruct (float_count_bounds (Z.of_nat n) f) as [[H _] _];
    [lia | assumption | assumption | exact H].
Qed.

(** The rounded float product is a number of rows of the frame. *)
Lemma count_in_range (n : nat) (f : Q) :
  (Z.of_nat n < 2 ^ 53)%Z -> (0 <= f)%Q -> (f <= 1)%Q ->
  (0 <= py_round (float_mul f (float_of_int (Z.of_nat n))) <= Z.of_nat n)%Z.
Proof.
  intros Hn Hf0 Hf1.
  destruct (float_count_bounds (Z.of_nat n) f) as [_ [H0 H1]];
    [lia | assumption | assumption|].
  now apply py_round_bounds.
Qed.

Section Subsampler.

Variable choice : nat -> nat -> list nat.
Hypothesis choice_good : choice_ok choice.

Lemma sample_n_Ok (df : DataFrame) (n : Z) :
  (0 <= n <= Z.of_nat (nrows df))%Z ->
  sample_n choice df n = Ok (take_rows (choice (nrows df) (Z.to_nat n)) df).
Proof.
  intros H. unfold sample_n.
  destruct (n <? 0)%Z eqn:E1; [lia|].
  destruct (Z.of_nat (nrows df) <? n)%Z eqn:E2; [lia|]. reflexivity.
Qed.

(** A sample that is returned holds rows of the frame, none twice. *)
Lemma sample_n_inv (df out : DataFrame) (n : Z) :
  sample_n choice df n = Ok out ->
  exists sel,
    out = take_rows sel df /\ NoDup sel /\
    Forall (fun p => p < nrows df) sel /\
    Z.of_nat (List.length sel) = n.
Proof.
  unfold sample_n.
  destruct (n <? 0)%Z eqn:E1; [discriminate|].
  destruct (Z.of_nat (nrows df) <? n)%Z eqn:E2; [discriminate|].
  intros [= <-]. apply Z.ltb_ge in E1, E2.
  destruct (choice_good (nrows df) (Z.to_nat n)) as [Hl [Hnd Hr]]; [lia|].
  exists (choice (nrows df) (Z.to_nat n)).
  split; [reflexivity|]. split; [exact Hnd|]. split; [exact Hr|].
  rewrite Hl. lia.
Qed.

(** Drawing one class, when the draw returns: rows at positions of the
    class, none twice; [half] of them when the class has that many, all
    of them otherwise. *)
Lemma draw_class_inv (ps : list nat) (df out : DataFrame) (half : Z) :
  NoDup ps ->
  (if (half <=? Z.of_nat (nrows (take_rows ps df)))%Z
   then sample_n choice (take_rows ps df) half
   else Ok (take_rows ps df)) = Ok out ->
  exists sel,
    out = take_rows sel df /\
    Forall (fun p => In p ps) sel /\ NoDup sel /\
    Z.of_nat (List.length sel) = Z.min (Z.of_nat (List.length ps)) half.
Proof.
  intros Hps. rewrite nrows_take_rows.
  destruct (half <=? Z.of_nat (List.length ps))%Z eqn:E.
  - apply Z.leb_le in E. intros Hrun.
    destruct (sample_n_inv _ _ _ Hrun) as [cs [-> [Hnd [Hr Hl]]]].
    rewrite nrows_take_rows in Hr.
    exists (take cs ps 0). split; [|split; [|split]].
    + now apply take_rows_take_rows.
    + apply Forall_forall. intros p Hp. unfold take in Hp.
      apply in_map_iff in Hp. destruct Hp as [q [<- Hq]].
      apply nth_In. rewrite Forall_forall in Hr. auto.
    + now apply take_NoDup.
    + rewrite take_length. lia.
  - apply Z.leb_gt in E. intros [= <-]. exists ps.
    split; [reflexivity|]. split; [apply Forall_forall; auto|].
    split; [exact Hps | lia].
Qed.

(** Drawing one class returns when [half] is not negative. *)
Lemma draw_class (ps : list nat) (df : DataFrame) (half : Z) :
  NoDup ps -> (0 <= half)%Z ->
  exists sel,
    (if (half <=? Z.of_nat (nrows (take_rows ps df)))%Z
     then sample_n choice (take_rows ps df) half
     else Ok (take_rows ps df)) = Ok (take_rows sel df) /\
    Forall (fun p => In p ps) sel /\ NoDup sel /\
    Z.of_nat (List.length sel) = Z.min (Z.of_nat (List.length ps)) half.
Proof.
  intros Hps Hh.
  destruct (if (half <=? Z.of_nat (nrows (take_rows ps df)))%Z
            then sample_n choice (take_rows ps df) half
            else Ok (take_rows ps df)) as [out|e] eqn:E.
  - destruct (draw_class_inv ps df out half Hps E) as [sel [-> H]].
    now exists sel.
  - exfalso. rewrite nrows_take_rows in E.
    destruct (half <=? Z.of_nat (List.length ps))%Z eqn:E'; [|discriminate].
    apply Z.leb_le in E'.
    rewrite sample_n_Ok in E by (rewrite nrows_take_rows; lia).
    discriminate.
Qed.

(** What [imbalanced_subsample] returns below fraction 1, when it returns:
    the rows at the drawn positive positions followed by the rows at the
    drawn negative positions. *)
Lemma imbalanced_subsample_inv (X : DataFrame) (y : Series) (f : Q)
    (X_samp : DataFrame) (y_samp : Series) :
  NoDup (columns X) -> row_aligned X y -> (f < 1)%Q ->
  imbalanced_subsample choice X y f = Ok (X_samp, y_samp) ->
  exists selT selF,
    X_samp = without_y (take_rows (selT ++ selF) (assign X "y" (values y))) /\
    y_samp = {| s_index := take (selT ++ selF) (index X) 0%Z;
                values := take (selT ++ selF) (values y) (Float NaN) |} /\
    class_selections (values y) (nrows X)
      (Qfloor (float_mul (float_of_int (Z.of_nat (nrows X))) f / 2)%Q)
      selT selF.
Proof.
  intros Hnd Hal Hf1.
  set (half := Qfloor (float_mul (float_of_int (Z.of_nat (nrows X))) f / 2)%Q).
  set (Xc := assign X "y" (values y)).
  assert (Hy : lookup "y" (data Xc) = Some (values y))
    by apply lookup_set_col_same.
  assert (HndC : NoDup (columns Xc)) by now apply NoDup_set_col.
  assert (Hrows : List.length (values y) = nrows X).
  { destruct Hal as [Hi Hl]. unfold nrows. now rewrite Hl, Hi. }
  unfold imbalanced_subsample.
  destruct (Qlt_le_dec f 1) as [_|Hge];
    [|exfalso; exact (Qlt_not_le _ _ Hf1 Hge)].
  rewrite (setitem_series_aligned X "y" y Hal). cbn [bind].
  fold Xc. unfold getitem. rewrite Hy. cbn [bind].
  unfold mask_rows. change (nrows Xc) with (nrows X). fold half.
  set (psT := mask_positions (map (eq_bool true) (values y))).
  set (psF := mask_positions (map (eq_bool false) (values y))).
  destruct (if (half <=? Z.of_nat (nrows (take_rows psT Xc)))%Z
            then sample_n choice (take_rows psT Xc) half
            else Ok (take_rows psT Xc)) as [sT|e] eqn:ET;
    [|discriminate]. cbn [bind].
  destruct (if (half <=? Z.of_nat (nrows (take_rows psF Xc)))%Z
            then sample_n choice (take_rows psF Xc) half
            else Ok (take_rows psF Xc)) as [sF|e] eqn:EF;
    [|discriminate]. cbn [bind].
  destruct (draw_class_inv _ _ _ _ (mask_positions_NoDup _) ET)
    as [selT [-> [HinT [HndT HlT]]]].
  destruct (draw_class_inv _ _ _ _ (mask_positions_NoDup _) EF)
    as [selF [-> [HinF [HndF HlF]]]].
  rewrite (append_take_rows _ _ _ HndC).
  rewrite (getitem_series_take_rows _ _ _ _ Hy). cbn [bind].
  rewrite (drop_column_take_rows _ _ _ _ Hy). cbn [bind].
  intros [= <- <-]. exists selT, selF.
  split; [reflexivity|]. split; [reflexivity|].
  split; [|split; [|split; [exact HndT|split; [exact HndF|split]]]].
  - apply Forall_forall. intros p Hp. rewrite Forall_forall in HinT.
    rewrite <- Hrows. now apply mask_label_spec, HinT.
  - apply Forall_forall. intros p Hp. rewrite Forall_forall in HinF.
    rewrite <- Hrows. now apply mask_label_spec, HinF.
  - rewrite HlT, mask_positions_length, filter_map_length. reflexivity.
  - rewrite HlF, mask_positions_length, filter_map_length. reflexivity.
Qed.

(** [imbalanced_subsample] returns below fraction 1, for a frame whose
    row count is a binary64 number. *)
Lemma imbalanced_subsample_run (X : DataFrame) (y : Series) (f : Q) :
  NoDup (columns X) -> row_aligned X y -> (0 <= f)%Q -> (f < 1)%Q ->
  (Z.of_nat (nrows X) < 2 ^ 53)%Z ->
  exists selT selF,
    imbalanced_subsample choice X y f =
      Ok (without_y (take_rows (selT ++ selF) (assign X "y" (values y))),
          {| s_index := take (selT ++ selF) (index X) 0%Z;
             values := take (selT ++ selF) (values y) (Float NaN) |}) /\
    class_selections (values y) (nrows X)
      (Qfloor (float_mul (float_of_int (Z.of_nat (nrows X))) f / 2)%Q)
      selT selF.
Proof.
  intros Hnd Hal Hf0 Hf1 Hrows.
  destruct (imbalanced_subsample choice X y f) as [[Xs ys]|e] eqn:E.
  - destruct (imbalanced_subsample_inv X y f Xs ys Hnd Hal Hf1 E)
      as [selT [selF [-> [-> H]]]].
    now exists selT, selF.
  - exfalso. revert E.
    pose proof (half_nonneg (nrows X) f Hrows Hf0 (Qlt_le_weak _ _ Hf1))
      as Hhalf.
    set (half := Qfloor _) in Hhalf.
    set (Xc := assign X "y" (values y)).
    assert (Hy : lookup "y" (data Xc) = Some (values y))
      by apply lookup_set_col_same.
    assert (HndC : NoDup (columns Xc)) by now apply NoDup_set_col.
    destruct (draw_class (mask_positions (map (eq_bool true) (values y)))
                Xc half (mask_positions_NoDup _) Hhalf) as [selT [HT _]].
    destruct (draw_class (mask_positions (map (eq_bool false) (values y)))
                Xc half (mask_positions_NoDup _) Hhalf) as [selF [HF _]].
    unfold imbalanced_subsample.
    destruct (Qlt_le_dec f 1) as [_|Hge];
      [|exfalso; exact (Qlt_not_le _ _ Hf1 Hge)].
    rewrite (setitem_series_aligned X "y" y Hal). cbn [bind].
    fold Xc. unfold getitem. rewrite Hy. cbn [bind].
    unfold mask_rows. change (nrows Xc) with (nrows X). fold half.
    rewrite HT. cbn [bind]. rewrite HF. cbn [bind].
    rewrite (append_take_rows _ _ _ HndC).
    rewrite (getitem_series_take_rows _ _ _ _ Hy). cbn [bind].
    rewrite (drop_column_take_rows _ _ _ _ Hy). cbn [bind].
    discriminate.
Qed.

(** What [rand_subset] returns below fraction 1, when it returns: the rows
    at the drawn positions. *)
Lemma rand_subset_inv (X : DataFrame) (y : Series) (f : Q)
    (X_samp : DataFrame) (y_samp : Series) :
  row_aligned X y -> (f < 1)%Q ->
  rand_subset choice X y f = Ok (X_samp, y_samp) ->
  exists sel,
    X_samp = without_y (take_rows sel (assign X "y" (values y))) /\
    y_samp = {| s_index := take sel (index X) 0%Z;
                values := take sel (values y) (Float NaN) |} /\
    NoDup sel /\ Forall (fun p => p < nrows X) sel /\
    Z.of_nat (List.length sel)
    = py_round (float_mul f (float_of_int (Z.of_nat (nrows X)))).
Proof.
  intros Hal Hf1.
  set (Xc := assign X "y" (values y)).
  assert (Hy : lookup "y" (data Xc) = Some (values y))
    by apply lookup_set_col_same.
  unfold rand_subset.
  destruct (Qlt_le_dec f 1) as [_|Hge];
    [|exfalso; exact (Qlt_not_le _ _ Hf1 Hge)].
  rewrite (setitem_series_aligned X "y" y Hal). cbn [bind]. fold Xc.
  unfold sample_frac.
  destruct (Qlt_le_dec 1 f) as [_|_]; [discriminate|].
  destruct (Qlt_le_dec f 0) as [_|_]; [discriminate|].
  destruct (sample_n choice Xc _) as [samp|e] eqn:E; [|discriminate].
  cbn [bind].
  destruct (sample_n_inv _ _ _ E) as [sel [-> [Hnd [Hr Hl]]]].
  rewrite (getitem_series_take_rows _ _ _ _ Hy). cbn [bind].
  rewrite (drop_column_take_rows _ _ _ _ Hy). cbn [bind].
  intros [= <- <-]. exists sel.
  split; [reflexivity|]. split; [reflexivity|]. split; [exact Hnd|].
  split; [exact Hr | exact Hl].
Qed.

(** [rand_subset] returns below fraction 1, for a frame whose row count
    is a binary64 number. *)
Lemma rand_subset_run (X : DataFrame) (y : Series) (f : Q) :
  row_aligned X y -> (0 <= f)%Q -> (f < 1)%Q ->
  (Z.of_nat (nrows X) < 2 ^ 53)%Z ->
  exists sel,
    rand_subset choice X y f =
      Ok (without_y (take_rows sel (assign X "y" (values y))),
          {| s_index := take sel (index X) 0%Z;
             values := take sel (values y) (Float NaN) |}) /\
    NoDup sel /\ Forall (fun p => p < nrows X) sel /\
    Z.of_nat (List.length sel)
    = py_round (float_mul f (float_of_int (Z.of_nat (nrows X)))).
Proof.
  intros Hal Hf0 Hf1 Hrows.
  destruct (rand_subset choice X y f) as [[Xs ys]|e] eqn:E.
  - destruct (rand_subset_inv X y f Xs ys Hal Hf1 E) as [sel [-> [-> H]]].
    now exists sel.
  - exfalso. revert E.
    set (Xc := assign X "y" (values y)).
    assert (Hy : lookup "y" (data Xc) = Some (values y))
      by apply lookup_set_col_same.
    pose proof (count_in_range (nrows X) f Hrows Hf0 (Qlt_le_weak _ _ Hf1))
      as Hn.
    unfold rand_subset.
    destruct (Qlt_le_dec f 1) as [_|Hge];
      [|exfalso; exact (Qlt_not_le _ _ Hf1 Hge)].
    rewrite (setitem_series_aligned X "y" y Hal). cbn [bind]. fold Xc.
    unfold sample_frac.
    destruct (Qlt_le_dec 1 f) as [Hgt|_];
      [exfalso; exact (Qlt_not_le _ _ Hgt (Qlt_le_weak _ _ Hf1))|].
    destruct (Qlt_le_dec f 0) as [Hlt|_];
      [exfalso; exact (Qlt_not_le _ _ Hlt Hf0)|].
    change (nrows Xc) with (nrows X).
    rewrite (sample_n_Ok Xc _ Hn). cbn [bind].
    rewrite (getitem_series_take_rows _ _ _ _ Hy). cbn [bind].
    rewrite (drop_column_take_rows _ _ _ _ Hy). cbn [bind].
    discriminate.
Qed.

(** C8.  Both subsampling modes return a feature matrix and a label vector
    that are still co-indexed, with as many labels as rows, and the two are
    one selection of rows of the input: each output label is the label of
    the input row its feature row was taken from.  The row count of the
    input is a binary64 number (it is below 2^53), as the product with
    the fraction takes it. *)
Theorem subsamplers_keep_row_alignment (X : DataFrame) (y : Series) (f : Q) :
  wf_frame X -> row_aligned X y -> (0 <= f)%Q ->
  (Z.of_nat (nrows X) < 2 ^ 53)%Z ->
  (exists X_samp y_samp,
      rand_subset choice X y f = Ok (X_samp, y_samp) /\
      row_aligned X_samp y_samp /\
      nrows X_samp = List.length (values y_samp) /\
      drawn_from X y X_samp y_samp) /\
  (exists X_samp y_samp,
      imbalanced_subsample choice X y f = Ok (X_samp, y_samp) /\
      row_aligned X_samp y_samp /\
      nrows X_samp = List.length (values y_samp) /\
      drawn_from X y X_samp y_samp).
Proof.
  intros Hwf Hal Hf0 Hrows.
  assert (Hid : row_aligned X y /\ nrows X = List.length (values y) /\
                drawn_from X y X y).
  { split; [exact Hal|]. split; [|now apply identity_drawn_from].
    destruct Hal as [Hi Hl]. unfold nrows. now rewrite Hl, Hi. }
  destruct (Qlt_le_dec f 1) as [Hf1|Hf1].
  - split.
    + destruct (rand_subset_run X y f Hal Hf0 Hf1 Hrows)
        as [sel [Hrun [_ [Hsel _]]]].
      do 2 eexists. split; [exact Hrun|].
      now apply selection_drawn_from.
    + destruct (imbalanced_subsample_run X y f (proj1 Hwf) Hal Hf0 Hf1 Hrows)
        as [selT [selF [Hrun [HT [HF _]]]]].
      do 2 eexists. split; [exact Hrun|].
      apply selection_drawn_from; [exact Hal|].
      apply Forall_app. split; eapply Forall_impl; eauto; simpl; tauto.
  - split; exists X, y; (split; [|exact Hid]).
    + unfold rand_subset. destruct (Qlt_le_dec f 1) as [Hlt|_];
        [exfalso; exact (Qlt_not_le _ _ Hlt Hf1) | reflexivity].
    + unfold imbalanced_subsample. destruct (Qlt_le_dec f 1) as [Hlt|_];
        [exfalso; exact (Qlt_not_le _ _ Hlt Hf1) | reflexivity].
Qed.

(** The labels of the two draws, counted. *)
Lemma class_selections_counts (yv : list cell) (n : nat) (half : Z)
    (selT selF : list nat) :
  class_selections yv n half selT selF ->
  Z.of_nat (count_label true (take (selT ++ selF) yv (Float NaN)))
  = Z.min (Z.of_nat (count_label true yv)) half /\
  Z.of_nat (count_label false (take (selT ++ selF) yv (Float NaN)))
  = Z.min (Z.of_nat (count_label false yv)) half.
Proof.
  intros [HT [HF [_ [_ [HlT HlF]]]]].
  assert (HT' : Forall (fun p => eq_bool true (nth p yv (Float NaN)) = true)
                       selT)
    by (eapply Forall_impl; eauto; simpl; tauto).
  assert (HF' : Forall (fun p => eq_bool false (nth p yv (Float NaN)) = true)
                       selF)
    by (eapply Forall_impl; eauto; simpl; tauto).
  split.
  - rewrite <- HlT. f_equal. unfold count_label.
    rewrite take_app, filter_app.
    rewrite (filter_take_all true selT _ HT').
    rewrite (filter_take_none true selF _ HF').
    now rewrite app_nil_r, take_length.
  - rewrite <- HlF. f_equal. unfold count_label.
    rewrite take_app, filter_app.
    rewrite (filter_take_none false selT _ HT').
    rewrite (filter_take_all false selF _ HF').
    cbn [app]. now rewrite take_length.
Qed.

(** C4, as the code has it.  For a fraction f strictly between 0 and 1 and
    an input of n rows (n below 2^53) with p positive and q negative
    labels, [imbalanced_subsample] returns exactly min(p, h) positive-label
    rows and exactly min(q, h) negative-label rows, with no error when a
    class is scarce, where h = floor(num_samp/2) and num_samp is the float
    product n*f: a binary64 number nearest to the exact product.  Where
    the exact product is itself a binary64 number, h is floor(n*f/2). *)
Theorem imbalanced_subsample_class_counts (X : DataFrame) (y : Series)
    (f : Q) :
  wf_frame X -> row_aligned X y -> (0 < f)%Q -> (f < 1)%Q ->
  (Z.of_nat (nrows X) < 2 ^ 53)%Z ->
  exists X_samp y_samp num_samp,
    imbalanced_subsample choice X y f = Ok (X_samp, y_samp) /\
    nrows X_samp = List.length (values y_samp) /\
    num_samp = float_mul (float_of_int (Z.of_nat (nrows X))) f /\
    nearest_binary64 (inject_Z (Z.of_nat (nrows X)) * f)%Q num_samp /\
    Z.of_nat (count_label true (values y_samp)) =
      Z.min (Z.of_nat (count_label true (values y)))
            (Qfloor (num_samp / 2)%Q) /\
    Z.of_nat (count_label false (values y_samp)) =
      Z.min (Z.of_nat (count_label false (values y)))
            (Qfloor (num_samp / 2)%Q) /\
    (binary64 (inject_Z (Z.of_nat (nrows X)) * f)%Q ->
     Qfloor (num_samp / 2)%Q
     = Qfloor (inject_Z (Z.of_nat (nrows X)) * f / 2)%Q).
Proof.
  intros Hwf Hal Hf0 Hf1 Hrows.
  destruct (imbalanced_subsample_run X y f (proj1 Hwf) Hal
              (Qlt_le_weak _ _ Hf0) Hf1 Hrows)
    as [selT [selF [Hrun Hsel]]].
  destruct (class_selections_counts _ _ _ _ _ Hsel) as [HcT HcF].
  destruct (float_product_nearest (Z.of_nat (nrows X)) f) as [Hnear _];
    [lia | now apply Qlt_le_weak | now apply Qlt_le_weak|].
  do 2 eexists. exists (float_mul (float_of_int (Z.of_nat (nrows X))) f).
  split; [exact Hrun|]. split; [|split; [reflexivity|split; [exact Hnear|]]].
  - unfold nrows. simpl. now rewrite !take_length.
  - split; [exact HcT|]. split; [exact HcF|].
    intros Hb. now rewrite (nearest_exact _ _ Hnear Hb).
Qed.

(** C9.  For a fraction f strictly between 0 and 1, the output of
    [imbalanced_subsample] is the positive draw followed by the negative
    draw.  The positive draw is a list of distinct positions of positive
    rows, min(p, h) of them, the negative draw a list of distinct positions
    of negative rows, min(q, h) of them; the row index, every feature
    column and the labels of the output are those of the input at the
    positions of the positive draw, then at those of the negative draw.
    So every positive-label row comes before every negative-label row. *)
Theorem imbalanced_subsample_positives_first (X : DataFrame) (y : Series)
    (f : Q) :
  wf_frame X -> row_aligned X y -> (0 < f)%Q -> (f < 1)%Q ->
  (Z.of_nat (nrows X) < 2 ^ 53)%Z ->
  exists X_samp y_samp pos_draw neg_draw,
    imbalanced_subsample choice X y f = Ok (X_samp, y_samp) /\
    row_aligned X_samp y_samp /\
    class_selections (values y) (nrows X)
      (Qfloor (float_mul (float_of_int (Z.of_nat (nrows X))) f / 2)%Q)
      pos_draw neg_draw /\
    index X_samp
    = take pos_draw (index X) 0%Z ++ take neg_draw (index X) 0%Z /\
    s_index y_samp
    = take pos_draw (index X) 0%Z ++ take neg_draw (index X) 0%Z /\
    values y_samp
    = take pos_draw (values y) (Float NaN)
      ++ take neg_draw (values y) (Float NaN) /\
    (forall c vs, In (c, vs) (data X_samp) ->
        exists vs', In (c, vs') (data X) /\
                    vs = take pos_draw vs' (Float NaN)
                         ++ take neg_draw vs' (Float NaN)) /\
    (forall c vs', In (c, vs') (data X) -> c <> "y" ->
        In (c, take pos_draw vs' (Float NaN)
               ++ take neg_draw vs' (Float NaN)) (data X_samp)) /\
    (forall i j ci cj,
        nth_error (values y_samp) i = Some ci ->
        nth_error (values y_samp) j = Some cj ->
        eq_bool true ci = true -> eq_bool false cj = true -> i < j).
Proof.
  intros Hwf Hal Hf0 Hf1 Hrows.
  destruct (imbalanced_subsample_run X y f (proj1 Hwf) Hal
              (Qlt_le_weak _ _ Hf0) Hf1 Hrows)
    as [selT [selF [Hrun Hsel]]].
  pose proof Hsel as [HT [HF _]].
  assert (Hpos : Forall (fun c => eq_bool true c = true)
                        (take selT (values y) (Float NaN))).
  { apply Forall_forall. intros c Hc. apply in_map_iff in Hc.
    destruct Hc as [p [<- Hp]]. rewrite Forall_forall in HT.
    now apply HT. }
  assert (Hneg : Forall (fun c => eq_bool false c = true)
                        (take selF (values y) (Float NaN))).
  { apply Forall_forall. intros c Hc. apply in_map_iff in Hc.
    destruct Hc as [p [<- Hp]]. rewrite Forall_forall in HF.
    now apply HF. }
  do 2 eexists. exists selT, selF. split; [exact Hrun|].
  split; [|split; [exact Hsel|]].
  { apply selection_drawn_from; [exact Hal|].
    apply Forall_app. split; eapply Forall_impl; eauto; simpl; tauto. }
  split; [apply take_app|]. split; [apply take_app|].
  split; [apply take_app|]. split; [|split].
  - intros c vs Hin. simpl in Hin. apply filter_In in Hin.
    destruct Hin as [Hin Hc]. apply in_map_iff in Hin.
    destruct Hin as [[c' v'] [[= -> <-] Hin']]. cbn [fst snd] in *.
    exists v'. split; [|apply take_app].
    apply In_set_col in Hin'. destruct Hin' as [[-> _]|?]; [|assumption].
    discriminate Hc.
  - intros c vs' Hin Hc. rewrite <- take_app.
    unfold without_y, take_rows, assign. cbn [data index].
    apply filter_In. split.
    + apply in_map_iff. exists (c, vs'). split; [reflexivity|].
      now apply In_set_col_other.
    + cbn [fst]. destruct (String.eqb_spec "y" c) as [E|_];
        [congruence | reflexivity].
  - cbn [values]. rewrite take_app. intros i j ci cj Hi Hj Hci Hcj.
    rewrite Forall_forall in Hpos, Hneg.
    destruct (Nat.lt_ge_cases i
                (List.length (take selT (values y) (Float NaN)))) as [Hil|Hil].
    + destruct (Nat.lt_ge_cases j
                  (List.length (take selT (values y) (Float NaN))))
        as [Hjl|Hjl]; [|lia].
      rewrite nth_error_app1 in Hj by exact Hjl.
      apply nth_error_In in Hj.
      exfalso. exact (eq_bool_exclusive _ (Hpos _ Hj) Hcj).
    + rewrite nth_error_app2 in Hi by exact Hil.
      apply nth_error_In in Hi.
      exfalso. exact (eq_bool_exclusive _ Hci (Hneg _ Hi)).
Qed.

End Subsampler.

(** ** AirportSelector *)

Lemma group_keys_Str (l : list string) : group_keys (map Str l) = Ok l.
Proof.
  induction l as [|s l IH]; simpl; [reflexivity|]. now rewrite IH.
Qed.

Lemma insert_label_perm (k : string) (l : list string) :
  Permutation (insert_label k l) (k :: l).
Proof.
  induction l as [|k' l IH]; simpl; [reflexivity|].
  destruct (String.leb k k'); [reflexivity|].
  rewrite IH. apply perm_swap.
Qed.

Lemma sorted_unique_perm (l : list string) :
  Permutation (sorted_unique l) (nodup string_dec l).
Proof.
  unfold sorted_unique. induction (nodup string_dec l) as [|k l' IH]; simpl.
  - reflexivity.
  - rewrite insert_label_perm. now constructor.
Qed.

Lemma sorted_unique_In (l : list string) (a : string) :
  In a (sorted_unique l) <-> In a l.
Proof.
  rewrite <- (nodup_In string_dec l a).
  split; apply Permutation_in;
    [apply sorted_unique_perm | symmetry; apply sorted_unique_perm].
Qed.

Lemma sorted_unique_NoDup (l : list string) : NoDup (sorted_unique l).
Proof.
  apply (Permutation_NoDup (l := nodup string_dec l)).
  - symmetry. apply sorted_unique_perm.
  - apply NoDup_nodup.
Qed.

Lemma groupby_size_codes (df : DataFrame) (col : string) (ks : list string) :
  getitem df col = Ok (map Str ks) ->
  groupby_size df col =
  Ok (map (fun k => (k, Z.of_nat (count_occ string_dec ks k)))
        (sorted_unique ks)).
Proof.
  intros H. unfold groupby_size. rewrite H. cbn [bind].
  now rewrite group_keys_Str.
Qed.

Lemma lookup_count (ks : list string) (k : string) :
  lookup k (map (fun k => (k, Z.of_nat (count_occ string_dec ks k)))
              (sorted_unique ks)) =
  if mem k ks then Some (Z.of_nat (count_occ string_dec ks k)) else None.
Proof.
  destruct (mem k ks) eqn:E.
  - apply (lookup_map_key (fun k => Z.of_nat (count_occ string_dec ks k))).
    apply sorted_unique_In. now apply mem_In.
  - apply lookup_None. rewrite map_fst_key, sorted_unique_In.
    now apply mem_not_In.
Qed.

(** The union index of the two group-by results holds exactly the
    airports observed. *)
Lemma union_index_perm (origs dests : list string) :
  Permutation (sorted_unique (sorted_unique dests ++ sorted_unique origs))
              (distinct_airports origs dests).
Proof.
  apply NoDup_Permutation.
  - apply sorted_unique_NoDup.
  - apply NoDup_nodup.
  - intros a. unfold distinct_airports.
    rewrite sorted_unique_In, nodup_In, !in_app_iff, !sorted_unique_In.
    reflexivity.
Qed.

(** The series [arrivals + departures] when every airport is seen in both
    roles: no label is lost to alignment, each holds the combined count. *)
Lemma series_add_both_roles (origs dests : list string) :
  (forall a, In a origs <-> In a dests) ->
  series_add
    (map (fun k => (k, Z.of_nat (count_occ string_dec dests k)))
       (sorted_unique dests))
    (map (fun k => (k, Z.of_nat (count_occ string_dec origs k)))
       (sorted_unique origs)) =
  map (fun k => (k, Some (combined_count origs dests k)))
    (sorted_unique (sorted_unique dests ++ sorted_unique origs)).
Proof.
  intros Hboth. unfold series_add. rewrite !map_fst_key.
  apply map_ext_in. intros k Hk. f_equal. rewrite !lookup_count.
  rewrite sorted_unique_In, in_app_iff, !sorted_unique_In in Hk.
  assert (Hd : In k dests) by (destruct Hk; [assumption | now apply Hboth]).
  assert (Ho : In k origs) by now apply Hboth.
  apply mem_In in Hd, Ho. rewrite Hd, Ho. unfold combined_count.
  f_equal. lia.
Qed.

(** ** Sorted lists and their prefixes *)

Lemma StronglySorted_app_inv {A : Type} (R : A -> A -> Prop) (l1 l2 : list A) :
  StronglySorted R (l1 ++ l2) ->
  StronglySorted R l1 /\ StronglySorted R l2 /\
  forall a b, In a l1 -> In b l2 -> R a b.
Proof.
  induction l1 as [|x l1 IH]; simpl; intros H.
  - split; [constructor|]. split; [exact H|]. intros a b [].
  - inversion H as [|? ? Hs Hf]; subst.
    destruct (IH Hs) as [H1 [H2 H12]].
    rewrite Forall_app in Hf. destruct Hf as [Hf1 Hf2].
    split; [now constructor|]. split; [exact H2|].
    intros a b [<-|Ha] Hb; [|now apply H12].
    rewrite Forall_forall in Hf2. now apply Hf2.
Qed.

Lemma sorted_precedes (cnt : string -> Z) (l : list string) (x y : string) :
  StronglySorted (fun a b => (cnt b <= cnt a)%Z) l ->
  In x l -> In y l -> (cnt y < cnt x)%Z -> precedes x y l.
Proof.
  intros Hs Hx Hy Hlt.
  destruct (in_split y l Hy) as [l1 [l3 ->]].
  destruct (StronglySorted_app_inv _ _ _ Hs) as [_ [Hs2 _]].
  inversion Hs2 as [|? ? _ Hf]; subst. rewrite Forall_forall in Hf.
  apply in_app_or in Hx. destruct Hx as [Hx|[->|Hx]].
  - destruct (in_split x l1 Hx) as [l1' [l2 ->]].
    exists l1', l2, l3. now rewrite <- app_assoc.
  - lia.
  - specialize (Hf x Hx). simpl in Hf. lia.
Qed.

Lemma sorted_keys_to_counts (cnt : string -> Z)
    (l : list (string * option Z)) :
  Forall (fun p => snd p = Some (cnt (fst p))) l ->
  StronglySorted (fun p q => key_ge (snd p) (snd q)) l ->
  StronglySorted (fun a b => (cnt b <= cnt a)%Z) (map fst l).
Proof.
  intros Hall Hs. induction Hs as [|p l Hs IH Hf]; simpl; [constructor|].
  inversion Hall as [|? ? Hp Hall']; subst.
  constructor; [now apply IH|].
  rewrite Forall_forall in *. intros b Hb. apply in_map_iff in Hb.
  destruct Hb as [q [<- Hq]]. specialize (Hf q Hq).
  unfold key_ge in Hf. rewrite Hp, (Hall' q Hq) in Hf. simpl in Hf.
  now apply Z.leb_le.
Qed.

(** ** The stable insertion sort meets the contract *)

Lemma key_geb_total (a b : option Z) : key_geb a b = false -> key_geb b a = true.
Proof.
  destruct a, b; simpl; try discriminate; try reflexivity.
  rewrite Z.leb_gt, Z.leb_le. lia.
Qed.

Lemma key_ge_trans (a b c : option Z) : key_ge a b -> key_ge b c -> key_ge a c.
Proof.
  unfold key_ge. destruct a, b, c; simpl; try discriminate; try reflexivity.
  rewrite !Z.leb_le. lia.
Qed.

Lemma insert_desc_perm (p : string * option Z) (l : list (string * option Z)) :
  Permutation (insert_desc p l) (p :: l).
Proof.
  induction l as [|q l IH]; simpl; [reflexivity|].
  destruct (key_geb (snd p) (snd q)); [reflexivity|].
  rewrite IH. apply perm_swap.
Qed.

Lemma insert_desc_sorted (p : string * option Z)
    (l : list (string * option Z)) :
  StronglySorted (fun p q => key_ge (snd p) (snd q)) l ->
  StronglySorted (fun p q => key_ge (snd p) (snd q)) (insert_desc p l).
Proof.
  induction 1 as [|q l Hs IH Hf]; simpl.
  - repeat constructor.
  - destruct (key_geb (snd p) (snd q)) eqn:E.
    + constructor; [now constructor|]. constructor; [exact E|].
      eapply Forall_impl; [|exact Hf]. intros r Hr.
      exact (key_ge_trans _ _ _ E Hr).
    + constructor; [exact IH|].
      apply (Permutation_Forall (x := p :: l)).
      * symmetry. apply insert_desc_perm.
      * constructor; [exact (key_geb_total _ _ E) | exact Hf].
Qed.

Lemma stable_sort_desc_contract : sort_contract stable_sort_desc.
Proof.
  intros s. unfold stable_sort_desc. induction s as [|p s [IHp IHs]]; simpl.
  - split; constructor.
  - split.
    + rewrite insert_desc_perm. now constructor.
    + now apply insert_desc_sorted.
Qed.

Section AirportSelector.

Variable sorter : list (string * option Z) -> list (string * option Z).
Hypothesis sorter_ok : sort_contract sorter.

(** On a table whose two airport columns hold codes, [airport_select]
    returns: the labels of the sorted sum of the two size series, cut at
    [num_airports]. *)
Lemma airport_select_codes (df : DataFrame) (origs dests : list string)
    (K : Z) :
  getitem df "Origin" = Ok (map Str origs) ->
  getitem df "Dest" = Ok (map Str dests) ->
  airport_select sorter df K =
  Ok (map fst
        (slice_to K
           (sorter
              (series_add
                 (map (fun k => (k, Z.of_nat (count_occ string_dec dests k)))
                    (sorted_unique dests))
                 (map (fun k => (k, Z.of_nat (count_occ string_dec origs k)))
                    (sorted_unique origs)))))).
Proof.
  intros Ho Hd. unfold airport_select.
  rewrite (groupby_size_codes df "Dest" dests Hd). cbn [bind].
  rewrite (groupby_size_codes df "Origin" origs Ho). reflexivity.
Qed.

Lemma airport_select_run (df : DataFrame) (origs dests : list string)
    (K : Z) :
  getitem df "Origin" = Ok (map Str origs) ->
  getitem df "Dest" = Ok (map Str dests) ->
  (forall a, In a origs <-> In a dests) ->
  (0 <= K)%Z ->
  exists full,
    airport_select sorter df K = Ok (firstn (Z.to_nat K) full) /\
    Permutation full (distinct_airports origs dests) /\
    StronglySorted
      (fun a b => (combined_count origs dests b
                   <= combined_count origs dests a)%Z) full.
Proof.
  intros Ho Hd Hboth HK.
  rewrite (airport_select_codes df origs dests K Ho Hd).
  rewrite (series_add_both_roles origs dests Hboth).
  set (U := sorted_unique (sorted_unique dests ++ sorted_unique origs)).
  set (flights := map (fun k => (k, Some (combined_count origs dests k))) U).
  destruct (sorter_ok flights) as [Hperm Hsorted].
  exists (map fst (sorter flights)). split; [|split].
  - unfold slice_to. apply Z.leb_le in HK. rewrite HK.
    now rewrite firstn_map.
  - rewrite (Permutation_map fst Hperm). unfold flights.
    rewrite map_fst_key. apply union_index_perm.
  - apply sorted_keys_to_counts; [|exact Hsorted].
    apply (Permutation_Forall (x := flights)); [now symmetry|].
    apply Forall_forall. intros p Hp. apply in_map_iff in Hp.
    now destruct Hp as [k [<- _]].
Qed.

(** X26.  On a table in which every observed airport occurs both as an
    origin and as a destination, and for K not below zero,
    [airport_select] returns min(K, number of airports) distinct airports,
    none with a smaller combined count than an airport left out, listed in
    non-increasing order of combined count; an airport with a strictly
    greater count than a returned one is returned before it.  The order
    among equal counts is that of the sort. *)
Theorem airport_select_busiest (df : DataFrame) (origs dests : list string)
    (K : Z) :
  getitem df "Origin" = Ok (map Str origs) ->
  getitem df "Dest" = Ok (map Str dests) ->
  (forall a, In a origs <-> In a dests) ->
  (0 <= K)%Z ->
  exists airports,
    airport_select sorter df K = Ok airports /\
    List.length airports =
      Nat.min (Z.to_nat K) (List.length (distinct_airports origs dests)) /\
    NoDup airports /\
    (forall a, In a airports -> In a (distinct_airports origs dests)) /\
    StronglySorted
      (fun a b => (combined_count origs dests b
                   <= combined_count origs dests a)%Z) airports /\
    (forall a b, In a airports -> In b (distinct_airports origs dests) ->
        ~ In b airports ->
        (combined_count origs dests b <= combined_count origs dests a)%Z) /\
    (forall x y,
        (combined_count origs dests y < combined_count origs dests x)%Z ->
        In y airports -> precedes x y airports).
Proof.
  intros Ho Hd Hboth HK.
  destruct (airport_select_run df origs dests K Ho Hd Hboth HK)
    as [full [Hrun [Hperm Hsorted]]].
  set (n := Z.to_nat K) in *.
  assert (Hsplit : full = firstn n full ++ skipn n full)
    by (symmetry; apply firstn_skipn).
  assert (Hnd : NoDup full).
  { apply (Permutation_NoDup (l := distinct_airports origs dests));
      [now symmetry | apply NoDup_nodup]. }
  rewrite Hsplit in Hsorted, Hnd.
  destruct (StronglySorted_app_inv _ _ _ Hsorted) as [Hs1 [_ Hcross]].
  assert (Htop : forall a b, In a (firstn n full) ->
             In b (distinct_airports origs dests) -> ~ In b (firstn n full) ->
             (combined_count origs dests b <= combined_count origs dests a)%Z).
  { intros a b Ha Hb Hnb. apply Hcross; [exact Ha|].
    apply (Permutation_in _ (Permutation_sym Hperm)) in Hb.
    rewrite Hsplit in Hb. apply in_app_or in Hb. tauto. }
  exists (firstn n full). split; [exact Hrun|].
  split; [now rewrite length_firstn, (Permutation_length Hperm)|].
  split; [exact (NoDup_app_remove_r _ _ Hnd)|].
  split.
  { intros a Ha. apply (Permutation_in _ Hperm). rewrite Hsplit.
    apply in_or_app. now left. }
  split; [exact Hs1|]. split; [exact Htop|].
  intros x y Hlt Hy. apply (sorted_precedes (combined_count origs dests));
    [exact Hs1 | | exact Hy | exact Hlt].
  destruct (in_dec string_dec x (firstn n full)) as [Hx|Hx]; [exact Hx|].
  exfalso.
  assert (Hxa : In x (distinct_airports origs dests)).
  { unfold distinct_airports. rewrite nodup_In, in_app_iff.
    assert (Hpos : (0 < combined_count origs dests x)%Z).
    { unfold combined_count in *. lia. }
    unfold combined_count in Hpos.
    destruct (in_dec string_dec x origs) as [?|Hno]; [now right|].
    destruct (in_dec string_dec x dests) as [?|Hnd']; [now left|].
    apply (count_occ_not_In string_dec) in Hno, Hnd'. lia. }
  specialize (Htop y x Hy Hxa Hx). lia.
Qed.

(** C5, as the code has it.  When K exceeds the number of distinct airports
    observed, [airport_select] raises nothing: it returns every observed
    airport once, a list shorter than K. *)
Theorem airport_select_count_too_large (df : DataFrame)
    (origs dests : list string) (K : Z) :
  getitem df "Origin" = Ok (map Str origs) ->
  getitem df "Dest" = Ok (map Str dests) ->
  (Z.of_nat (List.length (distinct_airports origs dests)) < K)%Z ->
  exists airports,
    airport_select sorter df K = Ok airports /\
    Permutation airports (distinct_airports origs dests) /\
    (Z.of_nat (List.length airports) < K)%Z.
Proof.
  intros Ho Hd HK.
  rewrite (airport_select_codes df origs dests K Ho Hd).
  set (flights := series_add _ _).
  destruct (sorter_ok flights) as [Hperm _].
  assert (Hall : Permutation (map fst (sorter flights))
                             (distinct_airports origs dests)).
  { rewrite (Permutation_map fst Hperm). unfold flights, series_add.
    rewrite !map_fst_key.
    apply (union_index_perm origs dests). }
  assert (Hlen : List.length (sorter flights) =
                 List.length (distinct_airports origs dests)).
  { rewrite <- (Permutation_length Hall). now rewrite length_map. }
  exists (map fst (sorter flights)). split; [|split].
  - unfold slice_to. destruct (0 <=? K)%Z eqn:E; [|apply Z.leb_gt in E; lia].
    rewrite firstn_all2 by lia. reflexivity.
  - exact Hall.
  - rewrite length_map, Hlen. exact HK.
Qed.

End AirportSelector.

(** On the one-way table every sort that meets the contract puts Y first:
    the two airports seen in one role only hold NaN and come after it. *)
Lemma one_way_table_any_sort
    (sorter : list (string * option Z) -> list (string * option Z)) :
  sort_contract sorter ->
  exists rest,
    airport_select sorter (flights_table one_way_origs one_way_dests) 3
    = Ok ("Y" :: rest) /\ In "X" rest.
Proof.
  intros Hsort.
  rewrite (airport_select_codes sorter
             (flights_table one_way_origs one_way_dests)
             one_way_origs one_way_dests 3 eq_refl eq_refl).
  set (flights := series_add _ _).
  assert (Hfl : flights = [("X", None); ("Y", Some 30%Z); ("Z", None)])
    by reflexivity.
  clearbody flights. subst flights.
  destruct (Hsort [("X", None); ("Y", Some 30%Z); ("Z", None)])
    as [Hperm Hsorted].
  assert (Hlen : List.length
                   (sorter [("X", None); ("Y", Some 30%Z); ("Z", None)]) = 3)
    by now rewrite (Permutation_length Hperm).
  destruct (sorter [("X", None); ("Y", Some 30%Z); ("Z", None)])
    as [|p [|q [|r [|]]]]; try discriminate Hlen.
  inversion Hsorted as [|? ? _ Hf]; subst.
  inversion Hf as [|? ? Hpq Hf']; subst.
  inversion Hf' as [|? ? Hpr _]; subst.
  assert (HY : In ("Y", Some 30%Z) [p; q; r]).
  { apply (Permutation_in _ (Permutation_sym Hperm)). simpl. tauto. }
  assert (HX : In ("X", @None Z) [p; q; r]).
  { apply (Permutation_in _ (Permutation_sym Hperm)). simpl. tauto. }
  assert (Hp : In p [("X", None); ("Y", Some 30%Z); ("Z", None)]).
  { apply (Permutation_in _ Hperm). now left. }
  assert (Hfirst : p = ("Y", Some 30%Z)).
  { unfold key_ge in Hpq, Hpr.
    destruct Hp as [<-|[<-|[<-|[]]]]; [|reflexivity|];
      destruct HY as [E|[->|[->|[]]]]; simpl in Hpq, Hpr;
      congruence. }
  subst p. exists (map fst [q; r]). split; [reflexivity|].
  destruct HX as [E|[->|[->|[]]]];
    [discriminate E | now left | right; now left].
Qed.

(** C3.  The code at the one-way table: 15 flights from X to Y, 35 from X
    to Z and 15 from Y to Z.  X and Z occur 50 times each, but in one role
    only, so the sum of the two size series holds NaN for them and the
    descending sort puts them after Y, which occurs 30 times: asked for
    the busiest airport the code returns Y, and asked for two it returns Y
    before X. *)
Lemma airport_select_one_way_airport :
  combined_count one_way_origs one_way_dests "X" = 50%Z /\
  combined_count one_way_origs one_way_dests "Y" = 30%Z /\
  combined_count one_way_origs one_way_dests "Z" = 50%Z /\
  airport_select stable_sort_desc
    (flights_table one_way_origs one_way_dests) 1 = Ok ["Y"] /\
  airport_select stable_sort_desc
    (flights_table one_way_origs one_way_dests) 2 = Ok ["Y"; "X"] /\
  ~ precedes "X" "Y" ["Y"; "X"].
Proof.
  split; [reflexivity|]. split; [reflexivity|]. split; [reflexivity|].
  split; [reflexivity|]. split; [reflexivity|].
  intros [l1 [l2 [l3 H]]].
  destruct l1 as [|a l1]; [discriminate H|].
  apply (f_equal (@List.length string)) in H.
  simpl in H. rewrite length_app in H. simpl in H.
  rewrite length_app in H. simpl in H. lia.
Qed.

(** C5, refuted as stated.  Three airports are observed and five are asked
    for: the code returns the three. *)
Lemma airport_select_five_of_three :
  List.length (distinct_airports ex_origs ex_dests) = 3 /\
  airport_select stable_sort_desc (flights_table ex_origs ex_dests) 5
  = Ok ["A"; "B"; "C"].
Proof. split; reflexivity. Qed.

(** ** TimeDecoder *)

Lemma lookup_set_col_other (c c' : string) (v : list cell)
    (l : list (string * list cell)) :
  c' <> c -> lookup c' (set_col c v l) = lookup c' l.
Proof.
  intros Hne. induction l as [|[k w] l IH]; simpl.
  - destruct (String.eqb_spec c' c); [contradiction | reflexivity].
  - destruct (String.eqb_spec c k) as [->|Hck]; simpl.
    + destruct (String.eqb_spec c' k); [contradiction | reflexivity].
    + destruct (String.eqb c' k); [reflexivity | exact IH].
Qed.

Lemma mapM_hours_Int (vs : list Z) :
  mapM hours_cell (map Int vs) =
  Ok (map (fun v => Float (Fin (IZR (v / 100) + IZR (v mod 100) / 60)%R)) vs).
Proof.
  induction vs as [|v vs IH]; simpl; [reflexivity|]. now rewrite IH.
Qed.

(** The loop of [convert_hours], started from any working copy [acc]:
    designated columns end up decoded from [df], the others are those of
    [acc]. *)
Lemma convert_hours_loop (df : DataFrame) (cols : list string) :
  Forall (fun col => exists vs, getitem df col = Ok (map Int vs)) cols ->
  forall acc,
  exists out,
    foldM (fun df_copy col =>
             v <- getitem df col ;;
             h <- mapM hours_cell v ;;
             Ok (assign df_copy col h)) cols acc = Ok out /\
    index out = index acc /\
    (forall c vs, In c cols -> getitem df c = Ok (map Int vs) ->
        getitem out c =
        Ok (map (fun v => Float (Fin (IZR (v / 100) + IZR (v mod 100) / 60)%R))
              vs)) /\
    (forall c, ~ In c cols -> getitem out c = getitem acc c).
Proof.
  induction 1 as [|col cols [vs Hcol] _ IH]; intros acc.
  - exists acc. simpl. repeat split; tauto.
  - simpl. rewrite Hcol. cbn [bind]. rewrite mapM_hours_Int. cbn [bind].
    destruct (IH (assign acc col
                    (map (fun v => Float (Fin (IZR (v / 100)
                                               + IZR (v mod 100) / 60)%R)) vs)))
      as [out [Hrun [Hidx [Hin Hout]]]].
    exists out. split; [exact Hrun|]. split; [exact Hidx|]. split.
    + intros c ws [->|Hc] Hget.
      * destruct (in_dec string_dec c cols) as [Hc|Hc]; [now apply Hin|].
        rewrite (Hout c Hc). unfold getitem, assign. simpl.
        rewrite lookup_set_col_same.
        rewrite Hcol in Hget. injection Hget as Hget.
        assert (E : vs = ws).
        { revert ws Hget. clear. induction vs as [|v vs IH];
            intros [|w ws]; simpl; try discriminate; [reflexivity|].
          intros [= -> H]. f_equal. now apply IH. }
        now rewrite E.
      * now apply Hin.
    + intros c Hc. rewrite Hout by tauto.
      unfold getitem, assign. simpl.
      rewrite lookup_set_col_other; [reflexivity|]. intros ->. tauto.
Qed.

(** C6.  When every designated column holds packed HHMM integers in
    [0, 2359], [convert_hours] returns a matrix in which each designated
    cell v has become (v integer-divided by 100) + (v mod 100)/60 and the
    other columns are unchanged; 1415 becomes 14.25, 0 becomes 0.0 and 2359
    becomes 23 + 59/60. *)
Theorem convert_hours_decodes (df : DataFrame) (cols : list string) :
  Forall (fun col => exists vs,
            getitem df col = Ok (map Int vs) /\
            Forall (fun v => 0 <= v <= 2359)%Z vs) cols ->
  exists out,
    convert_hours df cols = Ok out /\
    index out = index df /\
    (forall c vs, In c cols -> getitem df c = Ok (map Int vs) ->
        getitem out c =
        Ok (map (fun v => Float (Fin (IZR (v / 100) + IZR (v mod 100) / 60)%R))
              vs)) /\
    (forall c, ~ In c cols -> getitem out c = getitem df c) /\
    hours_cell (Int 1415) = Ok (Float (Fin (57 / 4)%R)) /\
    hours_cell (Int 0) = Ok (Float (Fin 0%R)) /\
    hours_cell (Int 2359) = Ok (Float (Fin (23 + 59 / 60)%R)).
Proof.
  intros H.
  assert (H' : Forall (fun col => exists vs, getitem df col = Ok (map Int vs))
                      cols).
  { eapply Forall_impl; [|exact H]. intros c [vs [Hc _]]. now exists vs. }
  destruct (convert_hours_loop df cols H' df) as [out [Hrun [Hidx [Hin Hout]]]].
  exists out. split; [exact Hrun|]. split; [exact Hidx|].
  split; [exact Hin|]. split; [exact Hout|].
  unfold hours_cell, hours_of_int.
  change (1415 / 100)%Z with 14%Z. change (1415 mod 100)%Z with 15%Z.
  change (0 / 100)%Z with 0%Z. change (0 mod 100)%Z with 0%Z.
  change (2359 / 100)%Z with 23%Z. change (2359 mod 100)%Z with 59%Z.
  repeat split; do 3 f_equal; lra.
Qed.

(** ** CyclicalEncoder *)

Lemma append_paren_cancel (a b : string) :
  (a ++ ")")%string = (b ++ ")")%string -> a = b.
Proof.
  revert b. induction a as [|x a IH]; intros [|y b]; simpl; intros H.
  - reflexivity.
  - injection H as _ H. destruct b; discriminate H.
  - injection H as _ H. destruct a; discriminate H.
  - injection H as -> H. f_equal. now apply IH.
Qed.

Lemma sin_name_inj (k k' : string) :
  ("sin(" ++ k ++ ")")%string = ("sin(" ++ k' ++ ")")%string -> k = k'.
Proof. simpl. intros [= H]. now apply append_paren_cancel. Qed.

Lemma cos_name_inj (k k' : string) :
  ("cos(" ++ k ++ ")")%string = ("cos(" ++ k' ++ ")")%string -> k = k'.
Proof. simpl. intros [= H]. now apply append_paren_cancel. Qed.

Lemma sin_cos_names (k k' : string) :
  ("sin(" ++ k ++ ")")%string <> ("cos(" ++ k' ++ ")")%string.
Proof. simpl. discriminate. Qed.

Lemma lookup_filter_drop (c k : string) (l : list (string * list cell)) :
  lookup c (filter (fun col => negb (String.eqb k (fst col))) l) =
  if String.eqb c k then None else lookup c l.
Proof.
  induction l as [|[k' v] l IH]; simpl.
  - now destruct (String.eqb c k).
  - destruct (String.eqb_spec k k') as [<-|Hk]; simpl.
    + rewrite IH. now destruct (String.eqb c k).
    + rewrite IH. destruct (String.eqb_spec c k') as [->|Hc].
      * destruct (String.eqb_spec k' k); [congruence | reflexivity].
      * reflexivity.
Qed.

Lemma mapM_cyclical (f : R -> R) (P : Z) (vs : list cell) (xs : list R) :
  P <> 0%Z ->
  mapM to_float vs = Ok (map Fin xs) ->
  mapM (cyclical_cell f P) vs = Ok (encoded f P xs).
Proof.
  intros HP. apply Z.eqb_neq in HP.
  revert xs. induction vs as [|v vs IH]; intros xs; simpl.
  - destruct xs; [reflexivity | discriminate].
  - unfold cyclical_cell at 1.
    destruct (to_float v) as [x|e]; [|discriminate]. cbn [bind].
    destruct (mapM to_float vs) as [ys|e] eqn:E; [|discriminate]. cbn [bind].
    destruct xs as [|r xs]; [discriminate|]. simpl.
    intros [= -> ->]. rewrite (IH xs eq_refl). cbn [bind cyclical].
    now rewrite HP.
Qed.

(** One turn of the loop on a column of finite numbers. *)
Lemma encode_column_run (d : dict Z) (acc : DataFrame) (k : string) (P : Z)
    (vs : list cell) (xs : list R) :
  lookup k d = Some P -> P <> 0%Z ->
  lookup k (data acc) = Some vs ->
  mapM to_float vs = Ok (map Fin xs) ->
  k <> ("sin(" ++ k ++ ")")%string ->
  encode_column d acc k =
  Ok {| index := index acc;
        data := filter (fun col => negb (String.eqb k (fst col)))
                  (set_col ("cos(" ++ k ++ ")") (encoded cos P xs)
                     (set_col ("sin(" ++ k ++ ")") (encoded sin P xs)
                        (data acc))) |}.
Proof.
  intros Hd HP Hk Hxs Hne. unfold encode_column, dict_get, getitem.
  rewrite Hd, Hk. cbn [bind].
  rewrite (mapM_cyclical sin P vs xs HP Hxs). cbn [bind].
  change (data (assign acc ("sin(" ++ k ++ ")") (encoded sin P xs)))
    with (set_col ("sin(" ++ k ++ ")") (encoded sin P xs) (data acc)).
  rewrite (lookup_set_col_other _ k) by exact Hne.
  rewrite Hk. cbn [bind].
  rewrite (mapM_cyclical cos P vs xs HP Hxs). cbn [bind].
  unfold drop_column.
  assert (E : mem k (columns
                (assign (assign acc ("sin(" ++ k ++ ")") (encoded sin P xs))
                   ("cos(" ++ k ++ ")") (encoded cos P xs))) = true).
  { apply mem_In. unfold columns, assign. cbn [data].
    rewrite !columns_set_col_In. right. right.
    apply lookup_Some_In in Hk. change k with (fst (k, vs)). now apply in_map. }
  rewrite E. reflexivity.
Qed.

Lemma map_Fin_inj (xs ys : list R) : map Fin xs = map Fin ys -> xs = ys.
Proof.
  revert ys. induction xs as [|x xs IH]; intros [|y ys]; simpl;
    try discriminate; [reflexivity|].
  intros [= -> H]. f_equal. now apply IH.
Qed.

(** The loop of [convert_cyclical] from a working copy [acc] in which the
    key columns still hold their finite numbers. *)
Lemma convert_cyclical_loop (d : dict Z) (keys : list string) :
  NoDup keys ->
  (forall k, In k keys -> exists P, lookup k d = Some P /\ P <> 0%Z) ->
  no_derived_keys keys ->
  forall acc,
  (forall k, In k keys -> exists vs xs,
      lookup k (data acc) = Some vs /\ mapM to_float vs = Ok (map Fin xs)) ->
  exists out,
    foldM (encode_column d) keys acc = Ok out /\
    index out = index acc /\
    (forall k P vs xs, In k keys -> lookup k d = Some P ->
        lookup k (data acc) = Some vs ->
        mapM to_float vs = Ok (map Fin xs) ->
        lookup k (data out) = None /\
        lookup ("sin(" ++ k ++ ")") (data out) = Some (encoded sin P xs) /\
        lookup ("cos(" ++ k ++ ")") (data out) = Some (encoded cos P xs)) /\
    (forall c, ~ In c keys ->
        (forall k, In k keys -> c <> ("sin(" ++ k ++ ")")%string /\
                                c <> ("cos(" ++ k ++ ")")%string) ->
        lookup c (data out) = lookup c (data acc)).
Proof.
  induction keys as [|k rest IH]; intros Hnd HP Hfresh acc Hnum.
  - exists acc. simpl. split; [reflexivity|]. split; [reflexivity|].
    split; [intros ? ? ? ? []|reflexivity].
  - inversion Hnd as [|? ? Hk Hnd']; subst.
    destruct (HP k (or_introl eq_refl)) as [P [HdP HP0]].
    destruct (Hnum k (or_introl eq_refl)) as [vs [xs [Hvs Hxs]]].
    destruct (Hfresh k k (or_introl eq_refl) (or_introl eq_refl))
      as [Hks Hkc].
    pose (acc' :=
      {| index := index acc;
         data := filter (fun col => negb (String.eqb k (fst col)))
                   (set_col ("cos(" ++ k ++ ")") (encoded cos P xs)
                      (set_col ("sin(" ++ k ++ ")") (encoded sin P xs)
                         (data acc))) |}).
    assert (Hstep : encode_column d acc k = Ok acc')
      by now apply encode_column_run with (vs := vs).
    assert (Hacc' : forall c, c <> k ->
              c <> ("sin(" ++ k ++ ")")%string ->
              c <> ("cos(" ++ k ++ ")")%string ->
              lookup c (data acc') = lookup c (data acc)).
    { intros c H1 H2 H3. unfold acc'. cbn [data].
      rewrite lookup_filter_drop.
      destruct (String.eqb_spec c k); [contradiction|].
      now rewrite !lookup_set_col_other by assumption. }
    assert (Hrest : forall k', In k' rest ->
              lookup k' (data acc') = lookup k' (data acc)).
    { intros k' Hk'.
      destruct (Hfresh k' k (or_intror Hk') (or_introl eq_refl)).
      apply Hacc'; try assumption. intros ->. contradiction. }
    destruct (IH Hnd' (fun k' H => HP k' (or_intror H))
                (fun a b Ha Hb => Hfresh a b (or_intror Ha) (or_intror Hb))
                acc')
      as [out [Hrun [Hidx [Hkeys Hframe]]]].
    { intros k' Hk'. rewrite (Hrest k' Hk'). apply Hnum. now right. }
    exists out. split; [simpl; rewrite Hstep; exact Hrun|].
    split; [exact Hidx|]. split.
    + intros q Q ws ys [<-|Hq] HdQ Hws Hys.
      * rewrite HdP in HdQ. injection HdQ as <-.
        rewrite Hvs in Hws. injection Hws as <-.
        rewrite Hxs in Hys. injection Hys as Hys.
        apply map_Fin_inj in Hys. subst ys.
        split; [|split].
        -- rewrite Hframe; [| exact Hk |].
           ++ unfold acc'. cbn [data]. rewrite lookup_filter_drop.
              now rewrite String.eqb_refl.
           ++ intros k' Hk'.
              exact (Hfresh k k' (or_introl eq_refl) (or_intror Hk')).
        -- rewrite Hframe.
           ++ unfold acc'. cbn [data]. rewrite lookup_filter_drop.
              destruct (String.eqb_spec ("sin(" ++ k ++ ")") k) as [E|_];
                [symmetry in E; contradiction|].
              rewrite lookup_set_col_other by apply sin_cos_names.
              apply lookup_set_col_same.
           ++ intros Hin.
              destruct (Hfresh _ k (or_intror Hin) (or_introl eq_refl))
                as [Hbad _]. now apply Hbad.
           ++ intros k' Hk'. split; [|apply sin_cos_names].
              intros E. apply sin_name_inj in E. subst k'. contradiction.
        -- rewrite Hframe.
           ++ unfold acc'. cbn [data]. rewrite lookup_filter_drop.
              destruct (String.eqb_spec ("cos(" ++ k ++ ")") k) as [E|_];
                [symmetry in E; contradiction|].
              apply lookup_set_col_same.
           ++ intros Hin.
              destruct (Hfresh _ k (or_intror Hin) (or_introl eq_refl))
                as [_ Hbad]. now apply Hbad.
           ++ intros k' Hk'. split.
              ** intros E. symmetry in E. revert E. apply sin_cos_names.
              ** intros E. apply cos_name_inj in E. subst k'. contradiction.
      * rewrite <- (Hrest q Hq) in Hws. now apply (Hkeys q Q ws ys).
    + intros c Hc Hder.
      destruct (Hder k (or_introl eq_refl)) as [H2 H3].
      rewrite Hframe.
      * apply Hacc'; try assumption. intros ->. apply Hc. now left.
      * intros Hin. apply Hc. now right.
      * intros k' Hk'. apply Hder. now right.
Qed.

(** ** The angle of an encoded pair *)

Section Trigonometry.

Local Open Scope R_scope.

Lemma tan_shift (t : R) : cos t <> 0 -> tan (t + PI) = tan t.
Proof.
  intros H. unfold tan. rewrite neg_sin, neg_cos. field. exact H.
Qed.

(** [atan2] inverts the pair (sine, cosine) on (-pi, pi]. *)
Lemma atan2_sin_cos (t : R) : - PI < t <= PI -> atan2 (sin t) (cos t) = t.
Proof.
  intros [Hlo Hhi]. pose proof PI_RGT_0 as Hpi. unfold atan2.
  destruct (Rlt_le_dec t (- (PI / 2))) as [H1|H1].
  -     assert (Hc : cos t < 0).
    { rewrite <- cos_neg. apply cos_lt_0; lra. }
    assert (Hs : sin t < 0) by (apply sin_lt_0_var; lra).
    destruct (Rlt_dec 0 (cos t)); [lra|].
    destruct (Rlt_dec (cos t) 0); [|lra].
    destruct (Rle_dec 0 (sin t)); [lra|].
    change (sin t / cos t) with (tan t).
    rewrite <- tan_shift by lra. rewrite atan_tan by lra. lra.
  - destruct (Rle_lt_or_eq_dec _ _ H1) as [H2|H2].
    + destruct (Rlt_le_dec t (PI / 2)) as [H3|H3].
      *         assert (Hc : 0 < cos t) by (apply cos_gt_0; lra).
        destruct (Rlt_dec 0 (cos t)); [|lra].
        change (sin t / cos t) with (tan t). apply atan_tan. lra.
      * destruct (Rle_lt_or_eq_dec _ _ H3) as [H4|H4].
        --            assert (Hc : cos t < 0) by (apply cos_lt_0; lra).
           assert (Hs : 0 <= sin t) by (apply sin_ge_0; lra).
           destruct (Rlt_dec 0 (cos t)); [lra|].
           destruct (Rlt_dec (cos t) 0); [|lra].
           destruct (Rle_dec 0 (sin t)); [|lra].
           change (sin t / cos t) with (tan t).
           replace t with ((t - PI) + PI) at 1 by ring.
           rewrite tan_shift.
           ++ rewrite atan_tan by lra. lra.
           ++ replace (t - PI) with (- (PI - t)) by ring.
              rewrite cos_neg. rewrite <- (Ropp_involutive (cos (PI - t))).
              rewrite <- neg_cos. replace (PI - t + PI) with (- t + 2 * PI) by ring.
              rewrite cos_plus, cos_2PI, sin_2PI, cos_neg. lra.
        -- subst t. rewrite cos_PI2, sin_PI2.
           destruct (Rlt_dec 0 0); [lra|].
           destruct (Rlt_dec 0 1); [|lra]. reflexivity.
    + subst t. rewrite cos_neg, sin_neg, cos_PI2, sin_PI2.
      destruct (Rlt_dec 0 0); [lra|].
      destruct (Rlt_dec 0 (Ropp 1)); [lra|].
      destruct (Rlt_dec (Ropp 1) 0); [|lra]. reflexivity.
Qed.

(** The angle read back from the pair emitted for the integer [v] under
    period [P]: the angle itself up to the half turn, a full turn less
    beyond it. *)
Lemma atan2_cyclical (P v : Z) :
  (0 <= v < P)%Z ->
  atan2 (sin (2 * PI * IZR v / IZR P)) (cos (2 * PI * IZR v / IZR P)) =
  if (2 * v <=? P)%Z then 2 * PI * IZR v / IZR P
  else 2 * PI * IZR v / IZR P - 2 * PI.
Proof.
  intros [Hv HP]. pose proof PI_RGT_0 as Hpi.
  assert (HP0 : 0 < IZR P) by (apply IZR_lt; lia).
  assert (Hv0 : 0 <= IZR v) by (apply IZR_le; lia).
  assert (HvP : IZR v < IZR P) by (apply IZR_lt; lia).
  set (x := IZR v / IZR P).
  assert (Hx : x * IZR P = IZR v) by (unfold x; field; lra).
  replace (2 * PI * IZR v / IZR P) with (2 * PI * x)
    by (unfold x; field; lra).
  assert (Hx0 : 0 <= x) by (unfold x; apply Rle_mult_inv_pos; lra).
  assert (Hx1 : x < 1).
  { apply Rmult_lt_reg_r with (r := IZR P); lra. }
  destruct (2 * v <=? P)%Z eqn:E.
  - apply Z.leb_le in E. apply IZR_le in E. rewrite mult_IZR in E.
    assert (Hh : x <= 1 / 2).
    { apply Rmult_le_reg_r with (r := IZR P); lra. }
    apply atan2_sin_cos. nra.
  - apply Z.leb_gt in E. apply IZR_lt in E. rewrite mult_IZR in E.
    assert (Hh : 1 / 2 < x).
    { apply Rmult_lt_reg_r with (r := IZR P); lra. }
    replace (sin (2 * PI * x)) with (sin (2 * PI * x - 2 * PI)).
    2:{ rewrite sin_minus, cos_2PI, sin_2PI. ring. }
    replace (cos (2 * PI * x)) with (cos (2 * PI * x - 2 * PI)).
    2:{ rewrite cos_minus, cos_2PI, sin_2PI. ring. }
    apply atan2_sin_cos. nra.
Qed.

End Trigonometry.

(** C7, as the code has it.  When the dictionary's keys are columns of
    finite numbers with non-zero periods, and no key is the name of an
    emitted column, [convert_cyclical] removes every key column c and adds
    the columns sin(c) and cos(c) holding sin(2*pi*value/P) and
    cos(2*pi*value/P).  For an integer v in [0, P), atan2 of the emitted
    pair is the angle 2*pi*v/P when 2v <= P and that angle minus 2*pi
    otherwise: the angle is recovered modulo a full turn. *)
Theorem convert_cyclical_encodes (df : DataFrame) (d : dict Z) :
  NoDup (dict_keys d) ->
  no_derived_keys (dict_keys d) ->
  (forall c P, In (c, P) d ->
      P <> 0%Z /\
      exists vs xs, getitem df c = Ok vs /\
                    mapM to_float vs = Ok (map Fin xs)) ->
  exists out,
    convert_cyclical df d = Ok out /\
    index out = index df /\
    (forall c P vs xs, In (c, P) d -> getitem df c = Ok vs ->
        mapM to_float vs = Ok (map Fin xs) ->
        ~ In c (columns out) /\
        getitem out ("sin(" ++ c ++ ")") =
          Ok (map (fun r => Float (Fin (sin (2 * PI * r / IZR P)%R))) xs) /\
        getitem out ("cos(" ++ c ++ ")") =
          Ok (map (fun r => Float (Fin (cos (2 * PI * r / IZR P)%R))) xs)) /\
    (forall P v, (0 <= v < P)%Z ->
        atan2 (sin (2 * PI * IZR v / IZR P)%R)
              (cos (2 * PI * IZR v / IZR P)%R) =
        if (2 * v <=? P)%Z then (2 * PI * IZR v / IZR P)%R
        else (2 * PI * IZR v / IZR P - 2 * PI)%R).
Proof.
  intros Hnd Hfresh Hcols.
  assert (Hget : forall c vs, getitem df c = Ok vs ->
                              lookup c (data df) = Some vs).
  { intros c vs. unfold getitem.
    destruct (lookup c (data df)); [now intros [= ->] | discriminate]. }
  assert (Hkey : forall k, In k (dict_keys d) ->
                 exists P, In (k, P) d /\ lookup k d = Some P).
  { intros k Hk. unfold dict_keys in Hk. apply in_map_iff in Hk.
    destruct Hk as [[k' P] [<- Hin]]. exists P. split; [exact Hin|].
    now apply In_lookup_NoDup. }
  destruct (convert_cyclical_loop d (dict_keys d) Hnd) with (acc := df)
    as [out [Hrun [Hidx [Hkeys _]]]].
  - intros k Hk. destruct (Hkey k Hk) as [P [Hin HdP]].
    exists P. split; [exact HdP|]. now destruct (Hcols k P Hin).
  - exact Hfresh.
  - intros k Hk. destruct (Hkey k Hk) as [P [Hin _]].
    destruct (Hcols k P Hin) as [_ [vs [xs [Hvs Hxs]]]].
    exists vs, xs. split; [now apply Hget | exact Hxs].
  - exists out. split; [exact Hrun|]. split; [exact Hidx|]. split.
    + intros c P vs xs Hin Hvs Hxs.
      assert (Hk : In c (dict_keys d)).
      { unfold dict_keys. change c with (fst (c, P)). now apply in_map. }
      destruct (Hkeys c P vs xs Hk (In_lookup_NoDup c P d Hnd Hin)
                  (Hget c vs Hvs) Hxs) as [H1 [H2 H3]].
      split; [now apply lookup_None|]. unfold getitem.
      rewrite H2, H3. split; reflexivity.
    + exact atan2_cyclical.
Qed.

(** C7, refuted as stated.  For the month 9 under period 12 the emitted
    pair is (sin, cos) of the angle 3*pi/2, and atan2 of it is not that
    angle. *)
Lemma convert_cyclical_angle_past_half_turn :
  exists s c : R,
    convert_cyclical ex_months ex_periods =
      Ok {| index := [0]%Z;
            data := [("sin(Month)", [Float (Fin s)]);
                     ("cos(Month)", [Float (Fin c)])] |} /\
    atan2 s c <> (2 * PI * 9 / 12)%R.
Proof.
  exists (sin (2 * PI * IZR 9 / IZR 12)%R), (cos (2 * PI * IZR 9 / IZR 12)%R).
  split; [reflexivity|].
  rewrite (atan2_cyclical 12 9) by lia.
  change (2 * 9 <=? 12)%Z with false. cbv iota.
  pose proof PI_RGT_0. lra.
Qed.

(** ** Normalizer *)

Lemma mapM_Forall2 {A B : Type} (f : A -> result B) (l : list A)
    (r : list B) :
  mapM f l = Ok r -> Forall2 (fun a b => f a = Ok b) l r.
Proof.
  revert r. induction l as [|a l IH]; simpl; intros r.
  - intros [= <-]. constructor.
  - destruct (f a) as [b|e] eqn:Ea; [|discriminate]. cbn [bind].
    destruct (mapM f l) as [bs|e]; [|discriminate]. cbn [bind].
    intros [= <-]. constructor; [exact Ea | now apply IH].
Qed.

Lemma Forall2_In_left {A B : Type} (R : A -> B -> Prop) (l : list A)
    (r : list B) (a : A) :
  Forall2 R l r -> In a l -> exists b, In b r /\ R a b.
Proof.
  induction 1 as [|x y l r Hxy _ IH]; simpl; [tauto|].
  intros [<-|Ha].
  - exists y. split; [now left | exact Hxy].
  - destruct (IH Ha) as [b [Hb Hab]]. exists b. split; [now right | exact Hab].
Qed.

Lemma Forall2_In_right {A B : Type} (R : A -> B -> Prop) (l : list A)
    (r : list B) (b : B) :
  Forall2 R l r -> In b r -> exists a, In a l /\ R a b.
Proof.
  induction 1 as [|x y l r Hxy _ IH]; simpl; [tauto|].
  intros [<-|Hb].
  - exists x. split; [now left | exact Hxy].
  - destruct (IH Hb) as [a [Ha Hab]]. exists a. split; [now right | exact Hab].
Qed.

(** A selection of columns holds, under each requested label, the column
    the frame has under that label. *)
Lemma loc_columns_Ok (df out : DataFrame) (labels : list string) :
  loc_columns df labels = Ok out ->
  index out = index df /\
  data out = map (fun c => (c, column_of df c)) labels /\
  Forall (fun c => lookup c (data df) = Some (column_of df c)) labels.
Proof.
  unfold loc_columns.
  destruct (mapM _ labels) as [cols|e] eqn:E; [|discriminate]. cbn [bind].
  intros [= <-]. cbn [index data]. split; [reflexivity|].
  apply mapM_Forall2 in E.
  induction E as [|c col labels cols Hc _ [IH1 IH2]]; simpl.
  - split; [reflexivity | constructor].
  - unfold getitem, column_of in *.
    destruct (lookup c (data df)) as [v|] eqn:El; [|discriminate].
    cbn [bind] in Hc. injection Hc as <-.
    split; [now rewrite IH1 | constructor; [now rewrite El | exact IH2]].
Qed.

(** The logarithm of a frame keeps the labels and logs every column. *)
Lemma np_log_frame_Ok (df out : DataFrame) :
  np_log_frame df = Ok out ->
  Forall2 (fun col col' => fst col' = fst col /\
                           mapM np_log (snd col) = Ok (snd col'))
          (data df) (data out).
Proof.
  unfold np_log_frame.
  destruct (mapM _ (data df)) as [cols|e] eqn:E; [|discriminate]. cbn [bind].
  intros [= <-]. cbn [data]. apply mapM_Forall2 in E.
  induction E as [|col col' l r Hc _ IH]; constructor; [|exact IH].
  destruct (mapM np_log (snd col)) as [v|]; [|discriminate].
  cbn [bind] in Hc. injection Hc as <-. now split.
Qed.

Lemma combine_fst_snd {A B : Type} (l : list (A * B)) :
  combine (map fst l) (map snd l) = l.
Proof.
  induction l as [|[a b] l IH]; simpl; [reflexivity | now rewrite IH].
Qed.

Lemma fold_assign_other (pairs : list (string * list cell)) (df : DataFrame)
    (c : string) :
  ~ In c (map fst pairs) ->
  lookup c (data (fold_left (fun d cv => assign d (fst cv) (snd cv)) pairs df))
  = lookup c (data df).
Proof.
  revert df. induction pairs as [|[k v] pairs IH]; intros df Hc; simpl.
  - reflexivity.
  - simpl in Hc. rewrite IH by tauto. unfold assign. cbn [data].
    apply lookup_set_col_other. intros ->. tauto.
Qed.

(** After a run of assignments in which every value written under [c] is
    [v], the frame holds [v] under [c]. *)
Lemma fold_assign_same (pairs : list (string * list cell)) (df : DataFrame)
    (c : string) (v : list cell) :
  In c (map fst pairs) ->
  (forall w, In (c, w) pairs -> w = v) ->
  lookup c (data (fold_left (fun d cv => assign d (fst cv) (snd cv)) pairs df))
  = Some v.
Proof.
  revert df. induction pairs as [|[k w] pairs IH]; intros df Hc Hall; simpl.
  - destruct Hc.
  - destruct (in_dec string_dec c (map fst pairs)) as [Hin|Hnot].
    + apply IH; [exact Hin|]. intros w' Hw'. apply Hall. now right.
    + rewrite fold_assign_other by exact Hnot.
      destruct Hc as [Hk|Hc]; [|contradiction]. simpl in Hk. subst k.
      rewrite (Hall w (or_introl eq_refl)). unfold assign. cbn [data].
      apply lookup_set_col_same.
Qed.

Lemma np_log_zero (c : cell) : zero_cell c -> np_log c = Ok (Float NegInf).
Proof.
  intros [->| ->]; simpl; [reflexivity|].
  destruct (Rlt_dec 0 0) as [H|_]; [exfalso; lra|].
  destruct (Req_dec_T 0 0) as [_|H]; [reflexivity | contradiction].
Qed.

(** The scaler refuses a frame in which some cell is minus infinity. *)
Lemma check_array_NegInf (df : DataFrame) (c : string) (v : list cell) :
  In (c, v) (data df) -> In (Float NegInf) v ->
  check_array df = Raise ValueError.
Proof.
  intros Hcol Hcell. unfold check_array.
  destruct (mapM _ (data df)) as [cols|e] eqn:E; [|reflexivity].
  apply mapM_Forall2 in E.
  destruct (Forall2_In_left _ _ _ _ E Hcol) as [fv [Hfv Hconv]].
  cbn [snd] in Hconv. apply mapM_Forall2 in Hconv.
  destruct (Forall2_In_left _ _ _ _ Hconv Hcell) as [x [Hx Hto]].
  simpl in Hto. injection Hto as <-.
  assert (Hinf : existsb (existsb is_inf) cols = true).
  { apply existsb_exists. exists fv. split; [exact Hfv|].
    apply existsb_exists. exists NegInf. now split. }
  now rewrite Hinf.
Qed.

(** C2, as the code has it.  A zero in a training column that is flagged
    for the log transform makes [normalize] fail: the logarithm of the cell
    is minus infinity, which the scaler's input check refuses (when no
    earlier step has failed already).  Nothing of the kind is promised for
    a negative value. *)
Theorem normalize_zero_fails (X_train X_val : DataFrame)
    (X_vars_normalize X_vars_log : list string) (c : string)
    (vs : list cell) :
  In c X_vars_log ->
  getitem X_train c = Ok vs ->
  Exists zero_cell vs ->
  exists e, normalize X_train X_val X_vars_normalize X_vars_log = Raise e.
Proof.
  intros Hc Hvs Hzero. unfold normalize.
  destruct (loc_columns X_train X_vars_normalize) as [tts|e] eqn:E1;
    [|now exists e]. cbn [bind].
  destruct (loc_columns X_val X_vars_normalize) as [vts|e] eqn:E2;
    [|now exists e]. cbn [bind].
  destruct (loc_columns tts X_vars_log) as [ttl|e] eqn:E3;
    [|now exists e]. cbn [bind].
  destruct (loc_columns vts X_vars_log) as [vtl|e] eqn:E4;
    [|now exists e]. cbn [bind].
  destruct (np_log_frame ttl) as [logged|e] eqn:E5; [|now exists e].
  cbn [bind].
  destruct (setitem_columns tts X_vars_log (map snd (data logged)))
    as [tts'|e] eqn:E6; [|now exists e]. cbn [bind].
  exists ValueError.
  destruct (loc_columns_Ok _ _ _ E1) as [_ [Dtts _]].
  destruct (loc_columns_Ok _ _ _ E3) as [_ [Dttl Httl]].
  pose proof (np_log_frame_Ok _ _ E5) as Hlog.
  (* the column of [c] that is logged is the training column *)
  assert (Hcol : column_of tts c = vs).
  { rewrite Forall_forall in Httl. specialize (Httl c Hc).
    rewrite Dtts in Httl. apply lookup_Some_In in Httl.
    apply in_map_iff in Httl. destruct Httl as [c' [[= -> E] _]].
    rewrite <- E. unfold column_of, getitem in *.
    destruct (lookup c (data X_train)); [now injection Hvs | discriminate]. }
  (* every logged column under [c] is the same, and holds minus infinity *)
  assert (Hlabels : map fst (data logged) = X_vars_log).
  { rewrite <- (map_fst_key (column_of tts) X_vars_log), <- Dttl.
    clear -Hlog. induction Hlog as [|? ? ? ? [H _] _ IH]; simpl;
      [reflexivity | now rewrite H, IH]. }
  assert (Hsame : forall w, In (c, w) (data logged) -> mapM np_log vs = Ok w).
  { intros w Hw.
    destruct (Forall2_In_right _ _ _ _ Hlog Hw) as [[k u] [Hku [Hk Hu]]].
    cbn [fst snd] in Hk, Hu. subst k. rewrite Dttl in Hku.
    apply in_map_iff in Hku. destruct Hku as [c' [[= -> <-] _]].
    now rewrite Hcol in Hu. }
  assert (Hcin : In c (map fst (data logged))) by now rewrite Hlabels.
  destruct (lookup_In_Some c (data logged) Hcin) as [lv Hlv].
  apply lookup_Some_In in Hlv. pose proof (Hsame lv Hlv) as Hlogvs.
  assert (Hinf : In (Float NegInf) lv).
  { apply Exists_exists in Hzero. destruct Hzero as [z [Hz Hzc]].
    apply mapM_Forall2 in Hlogvs.
    destruct (Forall2_In_left _ _ _ _ Hlogvs Hz) as [b [Hb Hzb]].
    rewrite (np_log_zero z Hzc) in Hzb. now injection Hzb as <-. }
  (* the frame handed to the scaler holds that column *)
  assert (Hfinal : lookup c (data tts') = Some lv).
  { unfold setitem_columns in E6.
    destruct (Nat.eqb _ _); [|discriminate]. injection E6 as <-.
    rewrite <- Hlabels, combine_fst_snd.
    apply fold_assign_same; [exact Hcin|].
    intros w Hw. specialize (Hsame w Hw). rewrite Hlogvs in Hsame.
    now injection Hsame. }
  apply lookup_Some_In in Hfinal.
  unfold fit_transform, fit.
  now rewrite (check_array_NegInf tts' c lv Hfinal Hinf).
Qed.

(** C2, refuted as stated.  With -5 in the logged training column
    [normalize] returns: the cell becomes NaN in the transformed matrix and
    the other cells are scaled. *)
Lemma normalize_negative_returns :
  exists (X_train_out X_val_out : DataFrame) (scaler : StandardScaler)
         (a b : float),
    normalize ex_negative_train ex_negative_val
      ["CRSElapsedTime"] ["CRSElapsedTime"]
    = Ok (X_train_out, X_val_out, scaler) /\
    getitem X_train_out "CRSElapsedTime" = Ok [Float NaN; Float a; Float b].
Proof.
  do 5 eexists. split; reflexivity.
Qed.

(** * Further properties of the pipeline *)

(** ** Airport restriction *)

Lemma combine_nth_lt {A B : Type} (a : list A) (b : list B) (p : nat)
    (x : A) (y : B) :
  p < List.length a -> p < List.length b ->
  nth p (combine a b) (x, y) = (nth p a x, nth p b y).
Proof.
  revert b p. induction a as [|u a IH]; intros [|v b] [|p]; simpl;
    intros Ha Hb; try lia; [reflexivity|].
  apply IH; lia.
Qed.

Lemma and_mask_length (a b : list bool) :
  List.length (and_mask a b) = Nat.min (List.length a) (List.length b).
Proof. unfold and_mask. now rewrite length_map, length_combine. Qed.

Lemma and_mask_nth (a b : list bool) (p : nat) :
  p < List.length (and_mask a b) ->
  nth p (and_mask a b) false = nth p a false && nth p b false.
Proof.
  intros Hp. rewrite and_mask_length in Hp. unfold and_mask.
  rewrite (nth_indep _ false ((fun q => fst q && snd q) (false, false)))
    by (rewrite length_map, length_combine; lia).
  rewrite (map_nth (fun q => fst q && snd q)).
  rewrite combine_nth_lt by lia. reflexivity.
Qed.

Lemma nth_map_isin (airports : list string) (col : list cell) (p : nat) :
  p < List.length col ->
  nth p (map (isin airports) col) false = isin airports (nth p col (Float NaN)).
Proof.
  intros Hp.
  rewrite (nth_indep _ false (isin airports (Float NaN)))
    by now rewrite length_map.
  apply (map_nth (isin airports)).
Qed.

(** The positions a restriction keeps: those below both column lengths at
    which both endpoints are in the list. *)
Lemma restrict_positions_spec (airports : list string) (dest orig : list cell)
    (p : nat) :
  In p (mask_positions (and_mask (map (isin airports) dest)
                                 (map (isin airports) orig))) <->
  p < List.length dest /\ p < List.length orig /\
  isin airports (nth p dest (Float NaN)) = true /\
  isin airports (nth p orig (Float NaN)) = true.
Proof.
  rewrite mask_positions_spec. split.
  - intros [Hp Hm]. rewrite and_mask_nth in Hm by exact Hp.
    rewrite and_mask_length, !length_map in Hp.
    rewrite !nth_map_isin in Hm by lia.
    apply andb_true_iff in Hm. intuition lia.
  - intros [Hd [Ho [H1 H2]]].
    assert (Hp : p < List.length (and_mask (map (isin airports) dest)
                                    (map (isin airports) orig)))
      by (rewrite and_mask_length, !length_map; lia).
    split; [exact Hp|]. rewrite and_mask_nth by exact Hp.
    rewrite !nth_map_isin by lia. now rewrite H1, H2.
Qed.

Lemma mask_positions_sorted (m : list bool) :
  StronglySorted lt (mask_positions m).
Proof.
  unfold mask_positions. generalize 0.
  induction (List.length m) as [|n IH]; intros s; simpl; [constructor|].
  assert (Hall : Forall (lt s) (filter (fun i => nth i m false) (seq (S s) n))).
  { apply Forall_forall. intros q Hq. apply filter_In in Hq.
    destruct Hq as [Hq _]. apply in_seq in Hq. lia. }
  destruct (nth s m false); [constructor|]; auto.
Qed.

Lemma mask_positions_all (m : list bool) :
  Forall (fun b => b = true) m ->
  mask_positions m = seq 0 (List.length m).
Proof.
  intros H. unfold mask_positions.
  rewrite (filter_ext_in _ (fun _ => true)).
  - induction (seq 0 (List.length m)) as [|a l IH]; simpl; congruence.
  - intros p Hp. apply in_seq in Hp. rewrite Forall_forall in H.
    apply H. apply nth_In. lia.
Qed.

Lemma take_rows_all (df : DataFrame) :
  Forall (fun c => List.length (snd c) = nrows df) (data df) ->
  take_rows (seq 0 (nrows df)) df = df.
Proof.
  intros H. destruct df as [idx cols]. unfold take_rows, nrows in *.
  cbn [index data] in *. f_equal; [apply take_seq|].
  induction H as [|[c v] cols Hc _ IH]; simpl; [reflexivity|].
  cbn [snd] in Hc. rewrite <- Hc at 1. now rewrite take_seq, IH.
Qed.

Lemma take_rows_shape (ps : list nat) (df : DataFrame) :
  Forall (fun c => List.length (snd c) = nrows (take_rows ps df))
         (data (take_rows ps df)).
Proof.
  rewrite nrows_take_rows. unfold take_rows. cbn [data].
  apply Forall_forall. intros col Hcol. apply in_map_iff in Hcol.
  destruct Hcol as [c [<- _]]. apply take_length.
Qed.

Lemma getitem_take_rows (ps : list nat) (df : DataFrame) (c : string)
    (v : list cell) :
  getitem df c = Ok v ->
  getitem (take_rows ps df) c = Ok (take ps v (Float NaN)).
Proof.
  unfold getitem. rewrite lookup_take_rows.
  destruct (lookup c (data df)); [intros [= ->]; reflexivity | discriminate].
Qed.

Lemma nth_take {A : Type} (ps : list nat) (l : list A) (d : A) (p : nat) :
  p < List.length ps -> nth p (take ps l d) d = nth (nth p ps 0) l d.
Proof.
  intros Hp. unfold take.
  rewrite (nth_indep _ d (nth 0 l d)) by now rewrite length_map.
  apply (map_nth (fun q => nth q l d)).
Qed.

(** X1.  [airport_restrict] keeps, in their original order, exactly the rows
    whose destination and origin are both in the list; in what it returns
    every destination and every origin is in the list. *)
Theorem airport_restrict_keeps_listed (df : DataFrame)
    (airports : list string) (dest orig : list cell) :
  getitem df "Dest" = Ok dest ->
  getitem df "Origin" = Ok orig ->
  exists ps dest' orig',
    airport_restrict df airports = Ok (take_rows ps df) /\
    StronglySorted lt ps /\
    (forall p, In p ps <->
       p < List.length dest /\ p < List.length orig /\
       isin airports (nth p dest (Float NaN)) = true /\
       isin airports (nth p orig (Float NaN)) = true) /\
    getitem (take_rows ps df) "Dest" = Ok dest' /\
    getitem (take_rows ps df) "Origin" = Ok orig' /\
    Forall (fun c => isin airports c = true) dest' /\
    Forall (fun c => isin airports c = true) orig'.
Proof.
  intros Hd Ho.
  set (ps := mask_positions (and_mask (map (isin airports) dest)
                                      (map (isin airports) orig))).
  exists ps, (take ps dest (Float NaN)), (take ps orig (Float NaN)).
  split; [unfold airport_restrict; now rewrite Hd, Ho|].
  split; [apply mask_positions_sorted|].
  split; [intros p; apply restrict_positions_spec|].
  split; [now apply getitem_take_rows|].
  split; [now apply getitem_take_rows|].
  split; apply Forall_forall; intros c Hc; apply in_map_iff in Hc;
    destruct Hc as [p [<- Hp]]; apply restrict_positions_spec in Hp; tauto.
Qed.

(** X2.  Restricting a second time to the same airports changes nothing. *)
Theorem airport_restrict_idempotent (df out : DataFrame)
    (airports : list string) :
  airport_restrict df airports = Ok out ->
  airport_restrict out airports = Ok out.
Proof.
  unfold airport_restrict at 1.
  destruct (getitem df "Dest") as [dest|e] eqn:Hd; [|discriminate].
  destruct (getitem df "Origin") as [orig|e] eqn:Ho; [|discriminate].
  cbn [bind]. intros [= <-]. unfold mask_rows.
  set (ps := mask_positions _).
  unfold airport_restrict.
  rewrite (getitem_take_rows ps df "Dest" dest Hd),
          (getitem_take_rows ps df "Origin" orig Ho). cbn [bind].
  unfold mask_rows. rewrite mask_positions_all.
  - rewrite and_mask_length, !length_map, !take_length, Nat.min_id.
    rewrite <- (nrows_take_rows ps df) at 1.
    now rewrite (take_rows_all _ (take_rows_shape ps df)).
  - apply Forall_forall. intros b Hb.
    apply In_nth with (d := false) in Hb. destruct Hb as [p [Hp <-]].
    rewrite and_mask_nth by exact Hp.
    rewrite and_mask_length, !length_map, !take_length, Nat.min_id in Hp.
    rewrite !nth_map_isin by now rewrite take_length.
    rewrite !nth_take by exact Hp.
    assert (Hin : In (nth p ps 0) ps) by now apply nth_In.
    apply restrict_positions_spec in Hin.
    destruct Hin as [_ [_ [-> ->]]]. reflexivity.
Qed.

(** ** Airline names *)

Lemma columns_set_col_present (c : string) (v : list cell)
    (l : list (string * list cell)) :
  In c (map fst l) -> map fst (set_col c v l) = map fst l.
Proof.
  induction l as [|[k w] l IH]; simpl; [tauto|].
  destruct (String.eqb_spec c k) as [->|Hne]; [reflexivity|].
  intros [E|H]; [congruence|]. simpl. now rewrite IH.
Qed.

Lemma getitem_In (df : DataFrame) (c : string) (v : list cell) :
  getitem df c = Ok v -> In c (columns df).
Proof.
  unfold getitem. destruct (lookup c (data df)) as [w|] eqn:E; [|discriminate].
  intros _. apply lookup_Some_In in E. unfold columns.
  change c with (fst (c, w)). now apply in_map.
Qed.

Lemma getitem_assign_same (df : DataFrame) (c : string) (v : list cell) :
  getitem (assign df c v) c = Ok v.
Proof. unfold getitem, assign. cbn [data]. now rewrite lookup_set_col_same. Qed.

Lemma getitem_assign_other (df : DataFrame) (c c' : string) (v : list cell) :
  c' <> c -> getitem (assign df c v) c' = getitem df c'.
Proof.
  intros H. unfold getitem, assign. cbn [data].
  now rewrite lookup_set_col_other.
Qed.

Lemma rename_merged_never (c : cell) : rename_merged c <> Str merged_name.
Proof.
  destruct c as [z|x|b|s]; simpl; try discriminate.
  destruct (String.eqb_spec s merged_name) as [->|Hne].
  - discriminate.
  - congruence.
Qed.

(** What [airline_names] returns. *)
Lemma airline_names_run (carriers df : DataFrame)
    (descriptions codes airline : list cell) :
  getitem carriers "Description" = Ok descriptions ->
  getitem carriers "Code" = Ok codes ->
  getitem df "Reporting_Airline" = Ok airline ->
  airline_names carriers df =
  Ok (assign (assign df "Reporting_Airline"
                (map (map_dict (combine codes descriptions)) airline))
        "Reporting_Airline"
        (map rename_merged
           (map (map_dict (combine codes descriptions)) airline))).
Proof.
  intros Hd Hc Ha. unfold airline_names. rewrite Hd, Hc, Ha. cbn [bind].
  now rewrite getitem_assign_same.
Qed.

(** X3.  [airline_names] touches one column only: the row index, the column
    labels and their order, and every column other than
    [Reporting_Airline] are those of the input; the airline column keeps
    its length. *)
Theorem airline_names_frame (carriers df : DataFrame)
    (descriptions codes airline : list cell) :
  getitem carriers "Description" = Ok descriptions ->
  getitem carriers "Code" = Ok codes ->
  getitem df "Reporting_Airline" = Ok airline ->
  exists df_new airline_new,
    airline_names carriers df = Ok df_new /\
    index df_new = index df /\
    columns df_new = columns df /\
    getitem df_new "Reporting_Airline" = Ok airline_new /\
    List.length airline_new = List.length airline /\
    (forall c, c <> "Reporting_Airline" -> getitem df_new c = getitem df c).
Proof.
  intros Hd Hc Ha. do 2 eexists.
  split; [exact (airline_names_run _ _ _ _ _ Hd Hc Ha)|].
  split; [reflexivity|]. split; [|split; [|split]].
  - unfold columns, assign. cbn [data].
    assert (Hin : In "Reporting_Airline" (map fst (data df)))
      by exact (getitem_In _ _ _ Ha).
    rewrite columns_set_col_present;
      [now apply columns_set_col_present|].
    now rewrite columns_set_col_present.
  - apply getitem_assign_same.
  - now rewrite !length_map.
  - intros c Hne. now rewrite !getitem_assign_other.
Qed.

(** X4.  The merger override of [airline_names]: row by row, a carrier code
    whose listed name is the merged airline's comes out as the successor's
    name, a code the lookup does not list comes out as NaN, any other code
    comes out as its listed name; the merged airline's name occurs nowhere
    in the returned column. *)
Theorem airline_names_merger (carriers df : DataFrame)
    (descriptions codes airline : list cell) :
  getitem carriers "Description" = Ok descriptions ->
  getitem carriers "Code" = Ok codes ->
  getitem df "Reporting_Airline" = Ok airline ->
  exists df_new airline_new,
    airline_names carriers df = Ok df_new /\
    getitem df_new "Reporting_Airline" = Ok airline_new /\
    ~ In (Str "Virgin America") airline_new /\
    (forall i code,
        nth_error airline i = Some code ->
        dict_last (combine codes descriptions) code
          = Some (Str "Virgin America") ->
        nth_error airline_new i = Some (Str "Alaska Airlines Inc.")) /\
    (forall i code,
        nth_error airline i = Some code ->
        dict_last (combine codes descriptions) code = None ->
        nth_error airline_new i = Some (Float NaN)) /\
    (forall i code name,
        nth_error airline i = Some code ->
        dict_last (combine codes descriptions) code = Some name ->
        name <> Str "Virgin America" ->
        nth_error airline_new i = Some name).
Proof.
  intros Hd Hc Ha. do 2 eexists.
  split; [exact (airline_names_run _ _ _ _ _ Hd Hc Ha)|].
  split; [apply getitem_assign_same|]. split; [|split; [|split]].
  - intros Hin. apply in_map_iff in Hin. destruct Hin as [c [Hc' _]].
    exact (rename_merged_never c Hc').
  - intros i code Hi Hl. rewrite map_map.
    rewrite nth_error_map, Hi. cbn [option_map]. unfold map_dict.
    now rewrite Hl.
  - intros i code Hi Hl. rewrite map_map.
    rewrite nth_error_map, Hi. cbn [option_map]. unfold map_dict.
    now rewrite Hl.
  - intros i code name Hi Hl Hne. rewrite map_map.
    rewrite nth_error_map, Hi. cbn [option_map]. unfold map_dict.
    rewrite Hl. f_equal. destruct name as [z|x|b|s]; try reflexivity.
    simpl. destruct (String.eqb_spec s merged_name) as [->|_];
      [contradiction | reflexivity].
Qed.

(** ** Feature builder *)

Lemma mapM_total {A B : Type} (f : A -> result B) (l : list A) :
  Forall (fun a => exists b, f a = Ok b) l -> exists r, mapM f l = Ok r.
Proof.
  induction 1 as [|a l [b Hb] _ [r Hr]]; simpl.
  - now exists [].
  - rewrite Hb, Hr. now exists (b :: r).
Qed.

Lemma mapM_length {A B : Type} (f : A -> result B) (l : list A) (r : list B) :
  mapM f l = Ok r -> List.length r = List.length l.
Proof.
  intros H. apply mapM_Forall2 in H.
  induction H; simpl; congruence.
Qed.

Lemma mapM_raises {A B : Type} (f : A -> result B) (l : list A) (a : A)
    (e : exn) :
  In a l -> f a = Raise e ->
  (forall x e', f x = Raise e' -> e' = e) ->
  mapM f l = Raise e.
Proof.
  intros Hin Ha Hone. induction l as [|x l IH]; simpl; [destruct Hin|].
  destruct (f x) as [b|e'] eqn:E.
  - cbn [bind]. destruct Hin as [->|Hin]; [congruence|].
    now rewrite (IH Hin).
  - cbn [bind]. now rewrite (Hone x e' E).
Qed.

Lemma column_of_getitem (df : DataFrame) (c : string) :
  In c (columns df) -> getitem df c = Ok (column_of df c).
Proof.
  intros H. unfold getitem, column_of.
  destruct (lookup_In_Some c (data df) H) as [v ->]. reflexivity.
Qed.

Lemma loc_columns_run (df : DataFrame) (labels : list string) :
  Forall (fun c => In c (columns df)) labels ->
  loc_columns df labels =
  Ok {| index := index df;
        data := map (fun c => (c, column_of df c)) labels |}.
Proof.
  intros H. unfold loc_columns.
  assert (E : mapM (fun c => v <- getitem df c ;; Ok (c, v)) labels =
              Ok (map (fun c => (c, column_of df c)) labels)).
  { induction H as [|c labels Hc _ IH]; simpl; [reflexivity|].
    rewrite (column_of_getitem df c Hc). cbn [bind]. now rewrite IH. }
  now rewrite E.
Qed.

(** A label that the frame lacks makes the selection fail. *)
Lemma loc_columns_missing (df : DataFrame) (labels : list string) (c : string) :
  In c labels -> ~ In c (columns df) -> loc_columns df labels = Raise KeyError.
Proof.
  intros Hin Hnot. unfold loc_columns.
  rewrite (mapM_raises _ labels c KeyError Hin); [reflexivity| |].
  - unfold getitem. apply lookup_None in Hnot. unfold columns in Hnot.
    now rewrite Hnot.
  - intros x e'. unfold getitem.
    destruct (lookup x (data df)); [discriminate | now intros [= <-]].
Qed.

Lemma dummy_columns_run (prefix : string) (col : list cell)
    (vals : list (option string)) :
  mapM category_value col = Ok vals ->
  dummy_columns prefix col =
  Ok (map (fun level => ((prefix ++ "_" ++ level)%string,
                         map (indicator level) vals))
        (sorted_unique (observed vals))).
Proof. intros H. unfold dummy_columns. now rewrite H. Qed.

Lemma dummy_columns_shape (prefix : string) (col : list cell)
    (cols : list (string * list cell)) :
  dummy_columns prefix col = Ok cols ->
  Forall (fun c => List.length (snd c) = List.length col) cols.
Proof.
  unfold dummy_columns.
  destruct (mapM category_value col) as [vals|e] eqn:E; [|discriminate].
  cbn [bind]. intros [= <-]. apply Forall_forall. intros c Hc.
  apply in_map_iff in Hc. destruct Hc as [level [<- _]]. cbn [snd].
  rewrite length_map. now apply mapM_length in E.
Qed.

(** Whatever [get_dummies] returns has the rows of its input: the same
    index, and columns of the same length. *)
Lemma get_dummies_shape (df X : DataFrame) (cols : list string) :
  get_dummies df cols = Ok X ->
  Forall (fun c => List.length (snd c) = nrows df) (data df) ->
  index X = index df /\
  Forall (fun c => List.length (snd c) = nrows df) (data X).
Proof.
  unfold get_dummies.
  destruct (loc_columns df cols) as [enc|e] eqn:E1; [|discriminate].
  cbn [bind].
  destruct (mapM _ (data enc)) as [dummies|e] eqn:E2; [|discriminate].
  cbn [bind]. intros HX Hshape.
  set (kept := if Nat.eqb _ _ then [] else [data (drop_columns df cols)]) in *.
  assert (Hpieces : Forall (Forall (fun c => List.length (snd c) = nrows df))
                           (kept ++ dummies)).
  { apply Forall_app. split.
    - unfold kept. destruct (Nat.eqb _ _); constructor; [|constructor].
      unfold drop_columns. cbn [data]. apply Forall_forall.
      intros c Hc. apply filter_In in Hc. destruct Hc as [Hc _].
      rewrite Forall_forall in Hshape. now apply Hshape.
    - destruct (loc_columns_Ok _ _ _ E1) as [_ [Denc Hlook]].
      apply mapM_Forall2 in E2. apply Forall_forall. intros piece Hp.
      destruct (Forall2_In_right _ _ _ _ E2 Hp) as [[c v] [Hcv Hd]].
      cbn [fst snd] in Hd. apply dummy_columns_shape in Hd.
      rewrite Denc in Hcv. apply in_map_iff in Hcv.
      destruct Hcv as [c' [[= -> <-] Hc']].
      rewrite Forall_forall in Hlook. specialize (Hlook c Hc').
      apply lookup_Some_In in Hlook.
      rewrite Forall_forall in Hshape. specialize (Hshape _ Hlook).
      cbn [snd] in Hshape. now rewrite Hshape in Hd. }
  destruct (kept ++ dummies) as [|p ps] eqn:Ep; [discriminate|].
  injection HX as <-. cbn [index data]. split; [reflexivity|].
  apply Forall_forall. intros c Hc.
  change (In c (List.concat (p :: ps))) in Hc. apply in_concat in Hc.
  destruct Hc as [piece [Hpiece Hc]].
  rewrite Forall_forall in Hpieces. specialize (Hpieces piece Hpiece).
  rewrite Forall_forall in Hpieces. now apply Hpieces.
Qed.

(** Whenever [predictors_and_target] returns, the feature matrix and the
    label vector carry the row index of the input and have one entry per
    row. *)
Lemma predictors_and_target_shape (df X : DataFrame) (y : Series)
    (X_vars cats : list string) (threshold : Z) :
  predictors_and_target df X_vars cats threshold = Ok (X, y) ->
  Forall (fun c => List.length (snd c) = nrows df) (data df) ->
  index X = index df /\ row_aligned X y /\
  Forall (fun c => List.length (snd c) = nrows X) (data X).
Proof.
  unfold predictors_and_target.
  destruct (loc_columns df X_vars) as [subset|e] eqn:E1; [|discriminate].
  cbn [bind].
  destruct (get_dummies subset cats) as [X'|e] eqn:E2; [|discriminate].
  cbn [bind].
  destruct (getitem df "ArrDelayMinutes") as [delay|e] eqn:E3; [|discriminate].
  cbn [bind].
  destruct (mapM (ge_cell threshold) delay) as [flags|e] eqn:E4;
    [|discriminate].
  cbn [bind]. intros [= <- <-] Hshape.
  destruct (loc_columns_Ok _ _ _ E1) as [Hidx [Dsub Hlook]].
  assert (Hsub : Forall (fun c => List.length (snd c) = nrows subset)
                        (data subset)).
  { unfold nrows. rewrite Hidx, Dsub. apply Forall_forall. intros c Hc.
    apply in_map_iff in Hc. destruct Hc as [c' [<- Hc']]. cbn [snd].
    rewrite Forall_forall in Hlook. specialize (Hlook c' Hc').
    apply lookup_Some_In in Hlook.
    rewrite Forall_forall in Hshape. exact (Hshape _ Hlook). }
  destruct (get_dummies_shape _ _ _ E2 Hsub) as [HidxX HshapeX].
  assert (HX : index X' = index df) by now rewrite HidxX.
  split; [exact HX|]. split; [|].
  - split; [cbn [s_index]; now rewrite HX|]. cbn [s_index values].
    rewrite length_map, (mapM_length _ _ _ E4).
    unfold getitem in E3.
    destruct (lookup "ArrDelayMinutes" (data df)) as [v|] eqn:El;
      [|discriminate].
    injection E3 as <-. apply lookup_Some_In in El.
    rewrite Forall_forall in Hshape. exact (Hshape _ El).
  - unfold nrows in *. now rewrite HidxX.
Qed.

Lemma column_of_selected (df : DataFrame) (labels : list string) (c : string) :
  In c labels ->
  column_of {| index := index df;
               data := map (fun c => (c, column_of df c)) labels |} c
  = column_of df c.
Proof.
  intros H. unfold column_of at 1. cbn [data].
  now rewrite (lookup_map_key (column_of df) c labels H).
Qed.

(** What [predictors_and_target] returns on a table that has every
    predictor, categories in the columns to encode and numbers in the
    delay column. *)
Lemma predictors_and_target_run (df : DataFrame)
    (X_vars cats : list string) (threshold : Z)
    (delay : list cell) (flags : list bool) :
  X_vars <> [] ->
  Forall (fun c => In c (columns df)) X_vars ->
  Forall (fun c => In c X_vars) cats ->
  Forall (fun c => exists vals,
            mapM category_value (column_of df c) = Ok vals) cats ->
  getitem df "ArrDelayMinutes" = Ok delay ->
  mapM (ge_cell threshold) delay = Ok flags ->
  predictors_and_target df X_vars cats threshold =
  Ok ({| index := index df;
         data := List.concat
                   ((if Nat.eqb (List.length cats) (List.length X_vars)
                     then []
                     else [filter (fun col => negb (mem (fst col) cats))
                             (map (fun c => (c, column_of df c)) X_vars)])
                    ++ map (dummies_of df) cats) |},
      {| s_index := index df; values := map Bool flags |}).
Proof.
  intros Hne Hvars Hcats Hcells Hdelay Hflags.
  unfold predictors_and_target.
  rewrite (loc_columns_run df X_vars Hvars). cbn [bind].
  set (subset := {| index := index df;
                    data := map (fun c => (c, column_of df c)) X_vars |}).
  assert (Hsel : Forall (fun c => In c (columns subset)) cats).
  { unfold columns, subset. cbn [data]. now rewrite map_fst_key. }
  unfold get_dummies. rewrite (loc_columns_run subset cats Hsel).
  cbn [bind data index].
  assert (Hd : mapM (fun c => dummy_columns (fst c) (snd c))
                 (map (fun c => (c, column_of subset c)) cats)
               = Ok (map (dummies_of df) cats)).
  { clear Hsel. induction cats as [|c cats IH]; [reflexivity|].
    inversion Hcats as [|? ? Hc Hcats']; subst.
    inversion Hcells as [|? ? [vals Hv] Hcells']; subst.
    cbn [map mapM fst snd]. unfold subset at 1.
    rewrite (column_of_selected df X_vars c Hc).
    rewrite (dummy_columns_run c _ vals Hv). cbn [bind].
    rewrite (IH Hcats' Hcells'). cbn [bind]. unfold dummies_of at 2.
    now rewrite Hv. }
  rewrite Hd. cbn [bind]. rewrite !length_map.
  unfold drop_columns. cbn [data index]. fold subset.
  replace (List.length (data subset)) with (List.length X_vars)
    by (unfold subset; cbn [data]; now rewrite length_map).
  destruct ((if Nat.eqb (List.length cats) (List.length X_vars)
             then []
             else [filter (fun col => negb (mem (fst col) cats))
                     (data subset)])
            ++ map (dummies_of df) cats) as [|p ps] eqn:Ep.
  - exfalso. apply app_eq_nil in Ep. destruct Ep as [Ek Ed].
    destruct (Nat.eqb_spec (List.length cats) (List.length X_vars)) as [El|_];
      [|discriminate Ek].
    destruct cats; [|discriminate Ed].
    destruct X_vars; [now apply Hne | discriminate El].
  - cbn [bind]. rewrite Hdelay. cbn [bind]. rewrite Hflags. cbn [bind].
    unfold subset in Ep. cbn [data] in Ep. now rewrite Ep.
Qed.

Lemma ge_cell_Int (threshold : Z) (delay : list cell) (flags : list bool)
    (i : nat) (z : Z) :
  mapM (ge_cell threshold) delay = Ok flags ->
  nth_error delay i = Some (Int z) ->
  nth_error (map Bool flags) i = Some (Bool (threshold <=? z)%Z).
Proof.
  intros H. apply mapM_Forall2 in H. revert i.
  induction H as [|c b delay flags Hc _ IH]; intros [|i]; simpl;
    try discriminate.
  - intros [= ->]. simpl in Hc. now injection Hc as <-.
  - apply IH.
Qed.

Lemma ge_cell_Float (threshold : Z) (delay : list cell) (flags : list bool)
    (i : nat) (r : R) :
  mapM (ge_cell threshold) delay = Ok flags ->
  nth_error delay i = Some (Float (Fin r)) ->
  exists b, nth_error (map Bool flags) i = Some (Bool b) /\
            (b = true <-> (IZR threshold <= r)%R).
Proof.
  intros H. apply mapM_Forall2 in H. revert i.
  induction H as [|c b delay flags Hc _ IH]; intros [|i]; simpl;
    try discriminate.
  - intros [= ->]. simpl in Hc. injection Hc as <-.
    eexists. split; [reflexivity|].
    destruct (Rle_dec (IZR threshold) r); split; congruence.
  - apply IH.
Qed.

(** X5.  The feature builder returns on a table that has every predictor, and
    its two results belong together: both carry the table's row index, the
    label vector has one label per row, and the label of a row is whether
    its arrival delay reaches the threshold. *)
Theorem predictors_and_target_labels (df : DataFrame)
    (X_vars cats : list string) (threshold : Z) (delay : list cell) :
  X_vars <> [] ->
  Forall (fun c => In c (columns df)) X_vars ->
  Forall (fun c => In c X_vars) cats ->
  Forall (fun c => exists vals,
            mapM category_value (column_of df c) = Ok vals) cats ->
  getitem df "ArrDelayMinutes" = Ok delay ->
  Forall (fun c => exists b, ge_cell threshold c = Ok b) delay ->
  Forall (fun c => List.length (snd c) = nrows df) (data df) ->
  exists X y,
    predictors_and_target df X_vars cats threshold = Ok (X, y) /\
    index X = index df /\ row_aligned X y /\
    List.length (values y) = nrows df /\
    (forall i z, nth_error delay i = Some (Int z) ->
        nth_error (values y) i = Some (Bool (threshold <=? z)%Z)) /\
    (forall i r, nth_error delay i = Some (Float (Fin r)) ->
        exists b, nth_error (values y) i = Some (Bool b) /\
                  (b = true <-> (IZR threshold <= r)%R)).
Proof.
  intros Hne Hvars Hcats Hcells Hdelay Hnum Hshape.
  destruct (mapM_total _ _ Hnum) as [flags Hflags].
  pose proof (predictors_and_target_run df X_vars cats threshold delay flags
                Hne Hvars Hcats Hcells Hdelay Hflags) as Hrun.
  destruct (predictors_and_target_shape _ _ _ _ _ _ Hrun Hshape)
    as [Hidx [Hal _]].
  do 2 eexists. split; [exact Hrun|]. split; [exact Hidx|].
  split; [exact Hal|]. split; [|split].
  - destruct Hal as [Hi Hl]. cbn [values s_index] in *.
    unfold nrows. now rewrite Hl.
  - intros i z. now apply ge_cell_Int.
  - intros i r. now apply ge_cell_Float.
Qed.

(** X6.  A predictor that the table lacks makes the feature builder fail with
    a KeyError. *)
Theorem predictors_and_target_missing_predictor (df : DataFrame)
    (X_vars cats : list string) (threshold : Z) (c : string) :
  In c X_vars -> ~ In c (columns df) ->
  predictors_and_target df X_vars cats threshold = Raise KeyError.
Proof.
  intros Hin Hnot. unfold predictors_and_target.
  now rewrite (loc_columns_missing df X_vars c Hin Hnot).
Qed.

Lemma observed_In (vals : list (option string)) (s : string) :
  In s (observed vals) <-> In (Some s) vals.
Proof.
  unfold observed. rewrite in_flat_map. split.
  - intros [[v|] [Hv Hs]]; [|destruct Hs].
    destruct Hs as [<-|[]]. exact Hv.
  - intros H. exists (Some s). split; [exact H | now left].
Qed.

Lemma dummies_of_In (df : DataFrame) (cat level : string)
    (vals : list (option string)) :
  mapM category_value (column_of df cat) = Ok vals ->
  In level (observed vals) ->
  In ((cat ++ "_" ++ level)%string, map (indicator level) vals)
     (dummies_of df cat).
Proof.
  intros Hv Hl. unfold dummies_of. rewrite Hv.
  apply (in_map (fun level => ((cat ++ "_" ++ level)%string,
                               map (indicator level) vals))).
  now apply sorted_unique_In.
Qed.

(** X7.  The columns of the feature matrix.  A predictor that is not
    categorical passes through unchanged.  A categorical predictor is
    replaced by one indicator column per category observed in it, named
    [<predictor>_<category>]: in a row of category s the column of s holds
    1 and the columns of the other categories hold 0.  The matrix has no
    other column. *)
Theorem predictors_and_target_columns (df : DataFrame)
    (X_vars cats : list string) (threshold : Z) (delay : list cell) :
  X_vars <> [] ->
  NoDup cats ->
  Forall (fun c => In c (columns df)) X_vars ->
  Forall (fun c => In c X_vars) cats ->
  Forall (fun c => exists vals,
            mapM category_value (column_of df c) = Ok vals) cats ->
  getitem df "ArrDelayMinutes" = Ok delay ->
  Forall (fun c => exists b, ge_cell threshold c = Ok b) delay ->
  exists X y,
    predictors_and_target df X_vars cats threshold = Ok (X, y) /\
    (forall c, In c X_vars -> ~ In c cats ->
        In (c, column_of df c) (data X)) /\
    (forall cat vals i s,
        In cat cats ->
        mapM category_value (column_of df cat) = Ok vals ->
        nth_error vals i = Some (Some s) ->
        (exists col, In ((cat ++ "_" ++ s)%string, col) (data X) /\
                     nth_error col i = Some (Int 1)) /\
        (forall level, In level (observed vals) -> level <> s ->
            exists col, In ((cat ++ "_" ++ level)%string, col) (data X) /\
                        nth_error col i = Some (Int 0))) /\
    (forall c col, In (c, col) (data X) ->
        (In c X_vars /\ ~ In c cats /\ col = column_of df c) \/
        (exists cat level vals,
            In cat cats /\
            mapM category_value (column_of df cat) = Ok vals /\
            In level (observed vals) /\
            c = (cat ++ "_" ++ level)%string /\
            col = map (indicator level) vals)).
Proof.
  intros Hne Hnd Hvars Hcats Hcells Hdelay Hnum.
  destruct (mapM_total _ _ Hnum) as [flags Hflags].
  do 2 eexists.
  split; [exact (predictors_and_target_run df X_vars cats threshold delay
                   flags Hne Hvars Hcats Hcells Hdelay Hflags)|].
  cbn [data].
  assert (Hdummy : forall cat level vals,
             In cat cats ->
             mapM category_value (column_of df cat) = Ok vals ->
             In level (observed vals) ->
             In ((cat ++ "_" ++ level)%string, map (indicator level) vals)
                (List.concat
                   ((if Nat.eqb (List.length cats) (List.length X_vars)
                     then []
                     else [filter (fun col => negb (mem (fst col) cats))
                             (map (fun c => (c, column_of df c)) X_vars)])
                    ++ map (dummies_of df) cats))).
  { intros cat level vals Hcat Hv Hl. apply in_concat.
    exists (dummies_of df cat). split.
    - apply in_or_app. right. now apply in_map.
    - now apply dummies_of_In. }
  split; [|split].
  - intros c Hc Hnot.
    assert (Hlen : Nat.eqb (List.length cats) (List.length X_vars) = false).
    { apply Nat.eqb_neq.
      assert (Hle : List.length (c :: cats) <= List.length X_vars).
      { apply NoDup_incl_length; [now constructor|].
        intros x [<-|Hx]; [exact Hc|].
        rewrite Forall_forall in Hcats. now apply Hcats. }
      simpl in Hle. lia. }
    rewrite Hlen. apply in_concat. eexists. split; [now left|].
    apply filter_In. split.
    + now apply (in_map (fun c => (c, column_of df c))).
    + cbn [fst]. apply negb_true_iff. now apply mem_not_In.
  - intros cat vals i s Hcat Hv Hi.
    assert (Hs : In s (observed vals)).
    { apply observed_In. now apply nth_error_In with (n := i). }
    split.
    + exists (map (indicator s) vals). split; [now apply Hdummy|].
      rewrite nth_error_map, Hi. cbn [option_map indicator].
      now rewrite String.eqb_refl.
    + intros level Hl Hne'.
      exists (map (indicator level) vals). split; [now apply Hdummy|].
      rewrite nth_error_map, Hi. cbn [option_map indicator].
      destruct (String.eqb_spec s level) as [E|_]; [congruence | reflexivity].
  - intros c col Hin. apply in_concat in Hin.
    destruct Hin as [piece [Hpiece Hin]]. apply in_app_or in Hpiece.
    destruct Hpiece as [Hk|Hd].
    + left. destruct (Nat.eqb _ _); [destruct Hk|].
      destruct Hk as [<-|[]]. apply filter_In in Hin.
      destruct Hin as [Hin Hm]. apply in_map_iff in Hin.
      destruct Hin as [c' [[= -> <-] Hc']]. cbn [fst] in Hm.
      apply negb_true_iff, mem_not_In in Hm. tauto.
    + right. apply in_map_iff in Hd. destruct Hd as [cat [<- Hcat]].
      rewrite Forall_forall in Hcells.
      destruct (Hcells cat Hcat) as [vals Hv].
      unfold dummies_of in Hin. rewrite Hv in Hin.
      apply in_map_iff in Hin. destruct Hin as [level [[= <- <-] Hl]].
      rewrite sorted_unique_In in Hl.
      exists cat, level, vals. repeat split; assumption || reflexivity.
Qed.

(** * The properties at concrete inputs *)

Lemma first_rows_ok : choice_ok first_rows.
Proof.
  intros N k Hk. unfold first_rows. split; [apply length_seq|].
  split; [apply seq_NoDup|].
  apply Forall_forall. intros p Hp. apply in_seq in Hp. lia.
Qed.

Lemma ex_val_labels : NoDup (columns ex_val).
Proof. apply nodupb_NoDup. reflexivity. Qed.

Lemma ex_val_wf : wf_frame ex_val.
Proof. split; [exact ex_val_labels | repeat constructor]. Qed.

Lemma ex_thousand_wf : wf_frame ex_thousand_X.
Proof.
  split; [apply nodupb_NoDup; reflexivity | repeat constructor].
Qed.

Lemma ex_thousand_aligned : row_aligned ex_thousand_X ex_thousand_y.
Proof. split; reflexivity. Qed.

Lemma ex_thousand_rows : (Z.of_nat (nrows ex_thousand_X) < 2 ^ 53)%Z.
Proof. reflexivity. Qed.

Lemma ex_half_exact :
  binary64 (inject_Z (Z.of_nat (nrows ex_thousand_X)) * (1 # 2))%Q.
Proof.
  exists 500%Z, 0%Z. split; [reflexivity|]. split; [lia | reflexivity].
Qed.

Lemma missing_cat_add_reference_schema_witness :
  NoDup (columns ex_val) /\
  exists X_val_new,
    missing_cat_add ex_train ex_val = Ok X_val_new /\
    columns X_val_new = ["CRSElapsedTime"; "Origin_ATL"; "Origin_JFK"] /\
    getitem X_val_new "Origin_ATL" = Ok [Int 0; Int 0] /\
    ~ In "Origin_SEA" (columns X_val_new).
Proof.
  split; [exact ex_val_labels|].
  destruct (missing_cat_add_reference_schema ex_train ex_val ex_val_labels)
    as [out [Hrun [Hcols [Hzero Hdrop]]]].
  exists out. split; [exact Hrun|]. split; [exact Hcols|]. split.
  - apply (Hzero "Origin_ATL").
    + simpl. tauto.
    + simpl. intros [H|[H|[H|[]]]]; discriminate H.
  - apply (Hdrop "Origin_SEA").
    + simpl. tauto.
    + simpl. intros [H|[H|[H|[]]]]; discriminate H.
Defined.

Lemma missing_cat_add_keeps_rows_witness :
  wf_frame ex_val /\
  exists X_val_new,
    missing_cat_add ex_train ex_val = Ok X_val_new /\
    index X_val_new = [0; 1]%Z /\
    getitem X_val_new "Origin_JFK" = Ok [Bool true; Bool false].
Proof.
  split; [exact ex_val_wf|].
  destruct (missing_cat_add_keeps_rows ex_train ex_val ex_val_wf)
    as [out [Hrun [Hidx [_ [_ Hsame]]]]].
  exists out. split; [exact Hrun|]. split; [exact Hidx|].
  apply (Hsame "Origin_JFK"); simpl; tauto.
Defined.

Lemma imbalanced_subsample_class_counts_witness :
  choice_ok first_rows /\ wf_frame ex_thousand_X /\
  row_aligned ex_thousand_X ex_thousand_y /\
  (0 < 1 # 2)%Q /\ (1 # 2 < 1)%Q /\
  (Z.of_nat (nrows ex_thousand_X) < 2 ^ 53)%Z /\
  exists X_samp y_samp,
    imbalanced_subsample first_rows ex_thousand_X ex_thousand_y (1 # 2)
    = Ok (X_samp, y_samp) /\
    count_label true (values y_samp) = 100 /\
    count_label false (values y_samp) = 250.
Proof.
  split; [exact first_rows_ok|]. split; [exact ex_thousand_wf|].
  split; [exact ex_thousand_aligned|]. split; [reflexivity|].
  split; [reflexivity|]. split; [exact ex_thousand_rows|].
  destruct (imbalanced_subsample_class_counts first_rows first_rows_ok
              ex_thousand_X ex_thousand_y (1 # 2) ex_thousand_wf
              ex_thousand_aligned eq_refl eq_refl ex_thousand_rows)
    as [Xs [ys [t [Hrun [_ [_ [_ [HT [HF Hexact]]]]]]]]].
  rewrite (Hexact ex_half_exact) in HT, HF.
  exists Xs, ys. split; [exact Hrun|].
  split; apply Nat2Z.inj; [rewrite HT | rewrite HF]; reflexivity.
Defined.

(** C4, refuted as stated.  The product of the row count and the fraction
    is a float.  With 20 rows, 10 of them positive, and the float 0.3, the
    product is 6.0 and the code draws 3 rows of each class, although
    floor(20*f/2) is 2 for the number f that the float 0.3 is.  With 100
    rows, 50 of them positive, and the float 0.58, the product is just
    below 58 and the code draws 28 rows of each class, although
    floor(100*0.58/2) is 29. *)
Lemma imbalanced_subsample_float_product :
  (exists X_samp y_samp,
      imbalanced_subsample first_rows (ex_rows_X 20) (ex_rows_y 20 10)
        (round_float64 (3 # 10)) = Ok (X_samp, y_samp) /\
      count_label true (values y_samp) = 3 /\
      count_label false (values y_samp) = 3) /\
  Z.min (Z.of_nat (count_label true (values (ex_rows_y 20 10))))
        (Qfloor (inject_Z 20 * round_float64 (3 # 10) / 2)%Q) = 2%Z /\
  (exists X_samp y_samp,
      imbalanced_subsample first_rows (ex_rows_X 100) (ex_rows_y 100 50)
        (round_float64 (58 # 100)) = Ok (X_samp, y_samp) /\
      count_label true (values y_samp) = 28 /\
      count_label false (values y_samp) = 28) /\
  Z.min (Z.of_nat (count_label true (values (ex_rows_y 100 50))))
        (Qfloor (inject_Z 100 * (58 # 100) / 2)%Q) = 29%Z.
Proof.
  split; [|split; [vm_compute; reflexivity|split; [|vm_compute; reflexivity]]].
  - destruct (imbalanced_subsample first_rows (ex_rows_X 20)
                (ex_rows_y 20 10) (round_float64 (3 # 10)))
      as [[Xs ys]|e] eqn:E; vm_compute in E; [|discriminate E].
    injection E as <- <-. do 2 eexists. split; [reflexivity|].
    split; reflexivity.
  - destruct (imbalanced_subsample first_rows (ex_rows_X 100)
                (ex_rows_y 100 50) (round_float64 (58 # 100)))
      as [[Xs ys]|e] eqn:E; vm_compute in E; [|discriminate E].
    injection E as <- <-. do 2 eexists. split; [reflexivity|].
    split; reflexivity.
Qed.

Lemma subsamplers_keep_row_alignment_witness :
  choice_ok first_rows /\ wf_frame ex_thousand_X /\
  row_aligned ex_thousand_X ex_thousand_y /\ (0 <= 35 # 100)%Q /\
  (Z.of_nat (nrows ex_thousand_X) < 2 ^ 53)%Z /\
  (exists X_samp y_samp,
      rand_subset first_rows ex_thousand_X ex_thousand_y (35 # 100)
      = Ok (X_samp, y_samp) /\
      row_aligned X_samp y_samp /\ drawn_from ex_thousand_X ex_thousand_y
                                     X_samp y_samp) /\
  (exists X_samp y_samp,
      imbalanced_subsample first_rows ex_thousand_X ex_thousand_y (35 # 100)
      = Ok (X_samp, y_samp) /\
      row_aligned X_samp y_samp /\ drawn_from ex_thousand_X ex_thousand_y
                                     X_samp y_samp).
Proof.
  split; [exact first_rows_ok|]. split; [exact ex_thousand_wf|].
  split; [exact ex_thousand_aligned|]. split; [discriminate|].
  split; [exact ex_thousand_rows|].
  destruct (subsamplers_keep_row_alignment first_rows first_rows_ok
              ex_thousand_X ex_thousand_y (35 # 100) ex_thousand_wf
              ex_thousand_aligned)
    as [[Xr [yr [Hr [Har [_ Hdr]]]]] [Xi [yi [Hi [Hai [_ Hdi]]]]]];
    [discriminate | exact ex_thousand_rows|].
  split; [exists Xr, yr | exists Xi, yi];
    (split; [assumption | split; assumption]).
Defined.

Lemma imbalanced_subsample_positives_first_witness :
  choice_ok first_rows /\ wf_frame ex_thousand_X /\
  row_aligned ex_thousand_X ex_thousand_y /\
  (0 < 1 # 2)%Q /\ (1 # 2 < 1)%Q /\
  (Z.of_nat (nrows ex_thousand_X) < 2 ^ 53)%Z /\
  exists X_samp y_samp pos_draw neg_draw,
    imbalanced_subsample first_rows ex_thousand_X ex_thousand_y (1 # 2)
    = Ok (X_samp, y_samp) /\
    List.length pos_draw = 100 /\ List.length neg_draw = 250 /\
    values y_samp
    = take pos_draw (values ex_thousand_y) (Float NaN)
      ++ take neg_draw (values ex_thousand_y) (Float NaN) /\
    forall i j ci cj,
      nth_error (values y_samp) i = Some ci ->
      nth_error (values y_samp) j = Some cj ->
      eq_bool true ci = true -> eq_bool false cj = true -> i < j.
Proof.
  split; [exact first_rows_ok|]. split; [exact ex_thousand_wf|].
  split; [exact ex_thousand_aligned|]. split; [reflexivity|].
  split; [reflexivity|]. split; [exact ex_thousand_rows|].
  destruct (imbalanced_subsample_positives_first first_rows first_rows_ok
              ex_thousand_X ex_thousand_y (1 # 2) ex_thousand_wf
              ex_thousand_aligned eq_refl eq_refl ex_thousand_rows)
    as [Xs [ys [pos [neg [Hrun [_ [Hsel [_ [_ [Hvals [_ [_ Horder]]]]]]]]]]]].
  destruct Hsel as [_ [_ [_ [_ [HlT HlF]]]]].
  exists Xs, ys, pos, neg. split; [exact Hrun|].
  split; [apply Nat2Z.inj; rewrite HlT; vm_compute; reflexivity|].
  split; [apply Nat2Z.inj; rewrite HlF; vm_compute; reflexivity|].
  split; [exact Hvals | exact Horder].
Defined.

Lemma ex_both_roles : forall a, In a ex_origs <-> In a ex_dests.
Proof. intros a. simpl. tauto. Qed.

Lemma airport_select_busiest_witness :
  sort_contract stable_sort_desc /\
  getitem (flights_table ex_origs ex_dests) "Origin" = Ok (map Str ex_origs) /\
  getitem (flights_table ex_origs ex_dests) "Dest" = Ok (map Str ex_dests) /\
  (forall a, In a ex_origs <-> In a ex_dests) /\ (0 <= 2)%Z /\
  exists airports,
    airport_select stable_sort_desc (flights_table ex_origs ex_dests) 2
    = Ok airports /\
    List.length airports = 2 /\
    (forall x y,
        (combined_count ex_origs ex_dests y
         < combined_count ex_origs ex_dests x)%Z ->
        In y airports -> precedes x y airports).
Proof.
  split; [exact stable_sort_desc_contract|]. split; [reflexivity|].
  split; [reflexivity|]. split; [exact ex_both_roles|].
  split; [discriminate|].
  destruct (airport_select_busiest stable_sort_desc stable_sort_desc_contract
              (flights_table ex_origs ex_dests) ex_origs ex_dests 2
              eq_refl eq_refl ex_both_roles)
    as [airports [Hrun [Hlen [_ [_ [_ [_ Hbefore]]]]]]]; [discriminate|].
  exists airports. split; [exact Hrun|]. split; [exact Hlen | exact Hbefore].
Defined.

Lemma airport_select_count_too_large_witness :
  sort_contract stable_sort_desc /\
  getitem (flights_table ex_origs ex_dests) "Origin" = Ok (map Str ex_origs) /\
  getitem (flights_table ex_origs ex_dests) "Dest" = Ok (map Str ex_dests) /\
  (Z.of_nat (List.length (distinct_airports ex_origs ex_dests)) < 5)%Z /\
  exists airports,
    airport_select stable_sort_desc (flights_table ex_origs ex_dests) 5
    = Ok airports /\
    Permutation airports (distinct_airports ex_origs ex_dests) /\
    (Z.of_nat (List.length airports) < 5)%Z.
Proof.
  split; [exact stable_sort_desc_contract|]. split; [reflexivity|].
  split; [reflexivity|]. split; [reflexivity|].
  exact (airport_select_count_too_large stable_sort_desc
           stable_sort_desc_contract (flights_table ex_origs ex_dests)
           ex_origs ex_dests 5 eq_refl eq_refl eq_refl).
Defined.

Lemma ex_times_packed :
  Forall (fun col => exists vs,
            getitem ex_times col = Ok (map Int vs) /\
            Forall (fun v => 0 <= v <= 2359)%Z vs) ["CRSDepTime"].
Proof.
  constructor; [|constructor].
  exists [1415; 0; 2359]%Z. split; [reflexivity|].
  repeat constructor; discriminate.
Qed.

Lemma convert_hours_decodes_witness :
  Forall (fun col => exists vs,
            getitem ex_times col = Ok (map Int vs) /\
            Forall (fun v => 0 <= v <= 2359)%Z vs) ["CRSDepTime"] /\
  exists out,
    convert_hours ex_times ["CRSDepTime"] = Ok out /\
    getitem out "CRSDepTime" =
      Ok [Float (Fin (IZR (1415 / 100) + IZR (1415 mod 100) / 60)%R);
          Float (Fin (IZR (0 / 100) + IZR (0 mod 100) / 60)%R);
          Float (Fin (IZR (2359 / 100) + IZR (2359 mod 100) / 60)%R)] /\
    getitem out "Month" = Ok [Int 1; Int 6; Int 12].
Proof.
  split; [exact ex_times_packed|].
  destruct (convert_hours_decodes ex_times ["CRSDepTime"] ex_times_packed)
    as [out [Hrun [_ [Hin [Hout _]]]]].
  exists out. split; [exact Hrun|]. split.
  - apply (Hin "CRSDepTime" [1415; 0; 2359]%Z); [now left | reflexivity].
  - rewrite (Hout "Month"); [reflexivity|].
    simpl. intros [H|[]]. discriminate H.
Defined.

Lemma ex_periods_keys : NoDup (dict_keys ex_periods).
Proof. apply nodupb_NoDup. reflexivity. Qed.

Lemma ex_periods_fresh : no_derived_keys (dict_keys ex_periods).
Proof.
  intros k k' [<-|[]] [<-|[]]. split; discriminate.
Qed.

Lemma ex_months_numeric :
  forall c P, In (c, P) ex_periods ->
    P <> 0%Z /\
    exists vs xs, getitem ex_months c = Ok vs /\
                  mapM to_float vs = Ok (map Fin xs).
Proof.
  intros c P [[= <- <-]|[]]. split; [discriminate|].
  exists [Int 9], [IZR 9]. split; reflexivity.
Qed.

Lemma convert_cyclical_encodes_witness :
  NoDup (dict_keys ex_periods) /\ no_derived_keys (dict_keys ex_periods) /\
  (forall c P, In (c, P) ex_periods ->
      P <> 0%Z /\
      exists vs xs, getitem ex_months c = Ok vs /\
                    mapM to_float vs = Ok (map Fin xs)) /\
  exists out,
    convert_cyclical ex_months ex_periods = Ok out /\
    ~ In "Month" (columns out) /\
    getitem out "sin(Month)" = Ok [Float (Fin (sin (2 * PI * 9 / 12)%R))] /\
    getitem out "cos(Month)" = Ok [Float (Fin (cos (2 * PI * 9 / 12)%R))] /\
    atan2 (sin (2 * PI * 9 / 12)%R) (cos (2 * PI * 9 / 12)%R)
    = (2 * PI * 9 / 12 - 2 * PI)%R.
Proof.
  split; [exact ex_periods_keys|]. split; [exact ex_periods_fresh|].
  split; [exact ex_months_numeric|].
  destruct (convert_cyclical_encodes ex_months ex_periods ex_periods_keys
              ex_periods_fresh ex_months_numeric)
    as [out [Hrun [_ [Hcols Hangle]]]].
  destruct (Hcols "Month" 12%Z [Int 9] [IZR 9] (or_introl eq_refl)
              eq_refl eq_refl) as [Hgone [Hsin Hcos]].
  exists out. split; [exact Hrun|]. split; [exact Hgone|].
  split; [exact Hsin|]. split; [exact Hcos|].
  apply (Hangle 12%Z 9%Z). lia.
Defined.

Lemma normalize_zero_fails_witness :
  In "CRSElapsedTime" ["CRSElapsedTime"] /\
  getitem ex_zero_train "CRSElapsedTime" = Ok [Int 0; Int 60; Int 120] /\
  Exists zero_cell [Int 0; Int 60; Int 120] /\
  exists e,
    normalize ex_zero_train ex_negative_val
      ["CRSElapsedTime"] ["CRSElapsedTime"] = Raise e.
Proof.
  assert (Hz : Exists zero_cell [Int 0; Int 60; Int 120])
    by (apply Exists_cons_hd; now left).
  split; [now left|]. split; [reflexivity|]. split; [exact Hz|].
  exact (normalize_zero_fails ex_zero_train ex_negative_val
           ["CRSElapsedTime"] ["CRSElapsedTime"] "CRSElapsedTime"
           [Int 0; Int 60; Int 120] (or_introl eq_refl) eq_refl Hz).
Defined.

(** ** TimeDecoder: shape, failure and the way back *)

Lemma assign_shape (df : DataFrame) (c : string) (v : list cell) :
  List.length v = nrows df ->
  Forall (fun col => List.length (snd col) = nrows df) (data df) ->
  Forall (fun col => List.length (snd col) = nrows (assign df c v))
         (data (assign df c v)).
Proof.
  intros Hv H. unfold assign, nrows. cbn [index data].
  apply Forall_forall. intros [k w] Hin. apply In_set_col in Hin.
  destruct Hin as [[-> ->]|Hin]; [exact Hv|].
  rewrite Forall_forall in H. exact (H _ Hin).
Qed.

Lemma foldM_invariant {A S : Type} (f : S -> A -> result S) (P : S -> Prop)
    (l : list A) :
  (forall s a s', In a l -> P s -> f s a = Ok s' -> P s') ->
  forall s out, P s -> foldM f l s = Ok out -> P out.
Proof.
  induction l as [|a l IH]; intros Hstep s out Hs; simpl.
  - now intros [= <-].
  - destruct (f s a) as [s'|e] eqn:E; [|discriminate]. cbn [bind].
    apply IH.
    + intros s0 a0 s1 Ha. apply Hstep. now right.
    + apply (Hstep s a s'); [now left | exact Hs | exact E].
Qed.

Lemma foldM_raises {A S : Type} (f : S -> A -> result S) (l : list A)
    (a : A) :
  In a l -> (forall s, exists e, f s a = Raise e) ->
  forall s, exists e, foldM f l s = Raise e.
Proof.
  intros Hin Hbad. induction l as [|x l IH]; intros s; [destruct Hin|].
  simpl. destruct (f s x) as [s'|e] eqn:E.
  - cbn [bind]. destruct Hin as [->|Hin]; [|now apply IH].
    destruct (Hbad s) as [e He]. congruence.
  - now exists e.
Qed.

Lemma convert_hours_rows (df out : DataFrame) (cols : list string) :
  convert_hours df cols = Ok out ->
  index out = index df /\
  (Forall (fun col => List.length (snd col) = nrows df) (data df) ->
   Forall (fun col => List.length (snd col) = nrows out) (data out)).
Proof.
  intros Hrun.
  pose (P := fun acc : DataFrame =>
               index acc = index df /\
               (Forall (fun col => List.length (snd col) = nrows df) (data df) ->
                Forall (fun col => List.length (snd col) = nrows acc)
                       (data acc))).
  unfold convert_hours in Hrun.
  refine (foldM_invariant _ P cols _ df out _ Hrun); [|now unfold P].
  intros acc col acc' _ [Hidx Hshape] Hstep.
  destruct (getitem df col) as [v|e] eqn:Ev; [|discriminate].
  cbn [bind] in Hstep.
  destruct (mapM hours_cell v) as [h|e] eqn:Eh; [|discriminate].
  cbn [bind] in Hstep. injection Hstep as <-.
  split; [exact Hidx|].
  intros Hdf. apply assign_shape; [|now apply Hshape].
  rewrite (mapM_length _ _ _ Eh). unfold nrows. rewrite Hidx.
  unfold getitem in Ev.
  destruct (lookup col (data df)) as [w|] eqn:El; [|discriminate].
  injection Ev as <-. apply lookup_Some_In in El.
  rewrite Forall_forall in Hdf. exact (Hdf _ El).
Qed.

(** X8.  Whenever [convert_hours] returns, the result has the rows and the
    columns of its input: the same row index, the same column labels in
    the same order, and as many cells in every column. *)
Theorem convert_hours_keeps_shape (df out : DataFrame) (cols : list string) :
  convert_hours df cols = Ok out ->
  index out = index df /\
  columns out = columns df /\
  (Forall (fun col => List.length (snd col) = nrows df) (data df) ->
   Forall (fun col => List.length (snd col) = nrows out) (data out)).
Proof.
  intros Hrun. destruct (convert_hours_rows _ _ _ Hrun) as [Hidx Hshape].
  split; [exact Hidx|]. split; [|exact Hshape].
  unfold convert_hours in Hrun.
  refine (foldM_invariant _ (fun acc => columns acc = columns df) cols _
            df out eq_refl Hrun).
  intros acc col acc' _ Hcols Hstep. cbn beta in *.
  destruct (getitem df col) as [v|e] eqn:Ev; [|discriminate].
  cbn [bind] in Hstep.
  destruct (mapM hours_cell v) as [h|e] eqn:Eh; [|discriminate].
  cbn [bind] in Hstep. injection Hstep as <-.
  transitivity (columns acc); [|exact Hcols].
  unfold columns at 1 2, assign. cbn [data].
  apply columns_set_col_present. fold (columns acc). rewrite Hcols.
  exact (getitem_In _ _ _ Ev).
Qed.

(** X9.  [convert_hours] returns nothing when a designated column is absent
    from the matrix. *)
Theorem convert_hours_missing_column (df : DataFrame) (cols : list string)
    (c : string) :
  In c cols -> ~ In c (columns df) ->
  exists e, convert_hours df cols = Raise e.
Proof.
  intros Hin Hnot. unfold convert_hours.
  apply foldM_raises with (a := c); [exact Hin|].
  intros s. exists KeyError. unfold getitem.
  apply lookup_None in Hnot. unfold columns in Hnot. now rewrite Hnot.
Qed.

(** X10.  The decimal hour of a valid packed time (hour below 24, minutes below
    60) lies in [0, 24) and gives the packed time back: the hundreds are
    its integer part and the rest is sixty times its fractional part.  Two
    valid packed times with the same decimal hour are the same. *)
Theorem hours_cell_round_trip (v : Z) :
  (0 <= v <= 2359)%Z -> (v mod 100 < 60)%Z ->
  exists h : R,
    hours_cell (Int v) = Ok (Float (Fin h)) /\
    (0 <= h < 24)%R /\
    Int_part h = (v / 100)%Z /\
    IZR v = (100 * IZR (Int_part h) + 60 * (h - IZR (Int_part h)))%R /\
    (forall w, (0 <= w <= 2359)%Z -> (w mod 100 < 60)%Z ->
        hours_cell (Int w) = Ok (Float (Fin h)) -> w = v).
Proof.
  intros Hv Hm.
  assert (Hparts : forall u, (0 <= u <= 2359)%Z -> (u mod 100 < 60)%Z ->
            (0 <= IZR (u mod 100) / 60 < 1)%R /\
            (0 <= IZR (u / 100) <= 23)%R /\
            Int_part (hours_of_int u) = (u / 100)%Z).
  { intros u Hu Hum.
    assert (H0 : (0 <= u mod 100)%Z) by (apply Z.mod_pos_bound; lia).
    assert (Hq : (0 <= u / 100 <= 23)%Z).
    { split; [apply Z.div_pos; lia|].
      assert (u / 100 < 24)%Z by (apply Z.div_lt_upper_bound; lia). lia. }
    assert (Hb : (0 <= IZR (u mod 100) < 60)%R).
    { split; [apply (IZR_le 0), H0 | apply (IZR_lt _ 60), Hum]. }
    assert (Hfrac : (0 <= IZR (u mod 100) / 60 < 1)%R) by lra.
    split; [exact Hfrac|]. split.
    - split; [apply (IZR_le 0) | apply (IZR_le _ 23)]; lia.
    - symmetry. apply Int_part_spec. unfold hours_of_int. lra. }
  destruct (Hparts v Hv Hm) as [Hfrac [Hq Hint]].
  exists (hours_of_int v). split; [reflexivity|]. split; [|split; [|split]].
  - unfold hours_of_int. lra.
  - exact Hint.
  - rewrite Hint. unfold hours_of_int.
    rewrite (Z.div_mod v 100) at 1 by lia. rewrite plus_IZR, mult_IZR. lra.
  - intros w Hw Hwm Heq. simpl in Heq. injection Heq as Heq.
    destruct (Hparts w Hw Hwm) as [Hfw [_ Hiw]].
    assert (Ediv : (w / 100 = v / 100)%Z) by congruence.
    assert (Emod : (w mod 100 = v mod 100)%Z).
    { apply eq_IZR. unfold hours_of_int in Heq. rewrite Ediv in Heq. lra. }
    rewrite (Z.div_mod w 100), (Z.div_mod v 100) by lia. congruence.
Qed.

(** ** CyclicalEncoder: shape, unit circle, period *)

Lemma drop_column_Ok (df out : DataFrame) (c : string) :
  drop_column df c = Ok out ->
  index out = index df /\
  data out = filter (fun col => negb (String.eqb c (fst col))) (data df).
Proof.
  unfold drop_column. destruct (mem c (columns df)); [|discriminate].
  intros [= <-]. now split.
Qed.

Lemma getitem_shape (df : DataFrame) (c : string) (v : list cell) :
  Forall (fun col => List.length (snd col) = nrows df) (data df) ->
  getitem df c = Ok v -> List.length v = nrows df.
Proof.
  intros H. unfold getitem.
  destruct (lookup c (data df)) as [w|] eqn:E; [|discriminate].
  intros [= <-]. apply lookup_Some_In in E.
  rewrite Forall_forall in H. exact (H _ E).
Qed.

(** One turn of the loop keeps the row index and the length of the
    columns. *)
Lemma encode_column_shape (d : dict Z) (acc acc' : DataFrame) (k : string) :
  encode_column d acc k = Ok acc' ->
  index acc' = index acc /\
  (Forall (fun col => List.length (snd col) = nrows acc) (data acc) ->
   Forall (fun col => List.length (snd col) = nrows acc') (data acc')).
Proof.
  unfold encode_column.
  destruct (dict_get d k) as [P|e]; [|discriminate]. cbn [bind].
  destruct (getitem acc k) as [v|e] eqn:Ev; [|discriminate]. cbn [bind].
  destruct (mapM (cyclical_cell sin P) v) as [s|e] eqn:Es; [|discriminate].
  cbn [bind].
  destruct (getitem (assign acc _ s) k) as [v'|e] eqn:Ev'; [|discriminate].
  cbn [bind].
  destruct (mapM (cyclical_cell cos P) v') as [c|e] eqn:Ec; [|discriminate].
  cbn [bind]. intros Hdrop.
  destruct (drop_column_Ok _ _ _ Hdrop) as [Hidx Hdata].
  split; [exact Hidx|]. intros Hshape.
  assert (H1 : Forall (fun col => List.length (snd col)
                                  = nrows (assign acc ("sin(" ++ k ++ ")") s))
                      (data (assign acc ("sin(" ++ k ++ ")") s))).
  { apply assign_shape; [|exact Hshape].
    rewrite (mapM_length _ _ _ Es). now apply (getitem_shape acc k). }
  assert (H2 : Forall (fun col => List.length (snd col) = nrows acc)
                      (data (assign (assign acc ("sin(" ++ k ++ ")") s)
                               ("cos(" ++ k ++ ")") c))).
  { apply (assign_shape (assign acc ("sin(" ++ k ++ ")") s)); [|exact H1].
    rewrite (mapM_length _ _ _ Ec).
    now apply (getitem_shape (assign acc ("sin(" ++ k ++ ")") s) k). }
  unfold nrows. rewrite Hidx, Hdata. cbn [index].
  apply Forall_forall. intros col Hcol. apply filter_In in Hcol.
  rewrite Forall_forall in H2. now apply H2.
Qed.

Lemma convert_cyclical_rows (df out : DataFrame) (d : dict Z) :
  convert_cyclical df d = Ok out ->
  index out = index df /\
  (Forall (fun col => List.length (snd col) = nrows df) (data df) ->
   Forall (fun col => List.length (snd col) = nrows out) (data out)).
Proof.
  intros Hrun. unfold convert_cyclical in Hrun.
  pose (P := fun acc : DataFrame =>
               index acc = index df /\
               (Forall (fun col => List.length (snd col) = nrows df) (data df) ->
                Forall (fun col => List.length (snd col) = nrows acc)
                       (data acc))).
  refine (foldM_invariant _ P (dict_keys d) _ df out _ Hrun);
    [|now unfold P].
  intros acc k acc' _ [Hidx Hshape] Hstep.
  destruct (encode_column_shape _ _ _ _ Hstep) as [Hidx' Hshape'].
  split; [now rewrite Hidx'|]. intros Hdf. now apply Hshape', Hshape.
Qed.

(** X11.  Every pair [convert_cyclical] emits is a point of the unit circle: row
    by row, the squares of the sine cell and of the cosine cell add up
    to 1. *)
Theorem convert_cyclical_unit_circle (df : DataFrame) (d : dict Z) :
  NoDup (dict_keys d) ->
  no_derived_keys (dict_keys d) ->
  (forall c P, In (c, P) d ->
      P <> 0%Z /\
      exists vs xs, getitem df c = Ok vs /\
                    mapM to_float vs = Ok (map Fin xs)) ->
  exists out,
    convert_cyclical df d = Ok out /\
    forall c P, In (c, P) d ->
      exists sines cosines,
        getitem out ("sin(" ++ c ++ ")") = Ok sines /\
        getitem out ("cos(" ++ c ++ ")") = Ok cosines /\
        List.length sines = List.length cosines /\
        forall i s, nth_error sines i = Some s ->
          exists a b, s = Float (Fin a) /\
                      nth_error cosines i = Some (Float (Fin b)) /\
                      (a * a + b * b = 1)%R.
Proof.
  intros Hnd Hfresh Hcols.
  assert (Hget : forall c vs, getitem df c = Ok vs ->
                              lookup c (data df) = Some vs).
  { intros c vs. unfold getitem.
    destruct (lookup c (data df)); [now intros [= ->] | discriminate]. }
  destruct (convert_cyclical_loop d (dict_keys d) Hnd) with (acc := df)
    as [out [Hrun [_ [Hkeys _]]]].
  - intros k Hk. unfold dict_keys in Hk. apply in_map_iff in Hk.
    destruct Hk as [[k' P] [<- Hin]]. exists P.
    split; [now apply In_lookup_NoDup | now destruct (Hcols k' P Hin)].
  - exact Hfresh.
  - intros k Hk. unfold dict_keys in Hk. apply in_map_iff in Hk.
    destruct Hk as [[k' P] [<- Hin]].
    destruct (Hcols k' P Hin) as [_ [vs [xs [Hvs Hxs]]]].
    exists vs, xs. split; [now apply Hget | exact Hxs].
  - exists out. split; [exact Hrun|]. intros c P Hin.
    destruct (Hcols c P Hin) as [_ [vs [xs [Hvs Hxs]]]].
    assert (Hk : In c (dict_keys d)).
    { unfold dict_keys. change c with (fst (c, P)). now apply in_map. }
    destruct (Hkeys c P vs xs Hk (In_lookup_NoDup c P d Hnd Hin)
                (Hget c vs Hvs) Hxs) as [_ [H2 H3]].
    exists (encoded sin P xs), (encoded cos P xs). unfold getitem.
    rewrite H2, H3. split; [reflexivity|]. split; [reflexivity|].
    split; [unfold encoded; now rewrite !length_map|].
    intros i s Hi. unfold encoded in *. rewrite nth_error_map in *.
    destruct (nth_error xs i) as [r|]; [|discriminate].
    cbn [option_map] in *. injection Hi as <-.
    do 2 eexists. split; [reflexivity|]. split; [reflexivity|].
    pose proof (sin2_cos2 (2 * PI * r / IZR P)) as H.
    unfold Rsqr in H. exact H.
Qed.

(** ** SchemaAligner: repetition, column order, duplicate labels *)

Lemma data_by_labels {A : Type} (d : A) (l : list (string * A)) :
  NoDup (map fst l) ->
  map (fun c => (c, match lookup c l with Some v => v | None => d end))
      (map fst l) = l.
Proof.
  intros Hnd. rewrite map_map.
  rewrite <- (map_id l) at 2. apply map_ext_in. intros [c v] Hin.
  cbn [fst]. now rewrite (In_lookup_NoDup c v l Hnd Hin).
Qed.

Lemma lookup_Permutation {A : Type} (l l' : list (string * A)) (c : string) :
  NoDup (map fst l) -> Permutation l l' -> lookup c l = lookup c l'.
Proof.
  intros Hnd Hp.
  assert (Hnd' : NoDup (map fst l'))
    by (apply (Permutation_NoDup (Permutation_map fst Hp)), Hnd).
  destruct (lookup c l) as [v|] eqn:E.
  - symmetry. apply In_lookup_NoDup; [exact Hnd'|].
    apply (Permutation_in _ Hp). now apply lookup_Some_In.
  - symmetry. apply lookup_None. apply lookup_None in E.
    intros Hin. apply E.
    apply (Permutation_in _ (Permutation_sym (Permutation_map fst Hp))), Hin.
Qed.

(** The aligned matrix in one form: the target's columns fetched by the
    reference's labels. *)
Lemma missing_cat_add_by_labels (X_train X_val : DataFrame) :
  NoDup (columns X_val) ->
  missing_cat_add X_train X_val =
  Ok {| index := index X_val;
        data := map (fun c => (c, match lookup c (data X_val) with
                                  | Some v => v
                                  | None => repeat (Int 0) (nrows X_val)
                                  end)) (columns X_train) |}.
Proof.
  intros Hnd. unfold missing_cat_add, reindex_columns.
  destruct (labels_eqb (columns X_val) (columns X_train)) eqn:E.
  - apply labels_eqb_eq in E. rewrite <- E. unfold columns.
    rewrite (data_by_labels _ (data X_val) Hnd). now destruct X_val.
  - apply nodupb_NoDup in Hnd. now rewrite Hnd.
Qed.

(** X13.  Aligning an aligned matrix again changes nothing. *)
Theorem missing_cat_add_idempotent (X_train X_val X_val_new : DataFrame) :
  missing_cat_add X_train X_val = Ok X_val_new ->
  missing_cat_add X_train X_val_new = Ok X_val_new.
Proof.
  intros H.
  assert (Hcols : columns X_val_new = columns X_train).
  { unfold missing_cat_add, reindex_columns in H.
    destruct (labels_eqb (columns X_val) (columns X_train)) eqn:E.
    - injection H as <-. now apply labels_eqb_eq.
    - destruct (nodupb (columns X_val)); [|discriminate].
      injection H as <-. unfold columns. cbn [data]. apply map_fst_key. }
  unfold missing_cat_add, reindex_columns.
  apply labels_eqb_eq in Hcols. now rewrite Hcols.
Qed.

(** X14.  The aligned matrix does not depend on the order in which the target
    holds its columns. *)
Theorem missing_cat_add_column_order (X_train X_val X_val' : DataFrame) :
  NoDup (columns X_val) ->
  index X_val' = index X_val ->
  Permutation (data X_val) (data X_val') ->
  missing_cat_add X_train X_val' = missing_cat_add X_train X_val.
Proof.
  intros Hnd Hidx Hperm.
  assert (Hnd' : NoDup (columns X_val'))
    by (apply (Permutation_NoDup (Permutation_map fst Hperm)), Hnd).
  rewrite (missing_cat_add_by_labels X_train X_val Hnd),
          (missing_cat_add_by_labels X_train X_val' Hnd').
  unfold nrows. rewrite Hidx. do 2 f_equal. apply map_ext. intros c.
  now rewrite (lookup_Permutation _ _ c Hnd Hperm).
Qed.

(** X15.  A target that holds one label twice cannot be aligned to a reference
    with other labels: the reindexing raises a ValueError. *)
Theorem missing_cat_add_duplicate_labels (X_train X_val : DataFrame) :
  ~ NoDup (columns X_val) ->
  columns X_val <> columns X_train ->
  missing_cat_add X_train X_val = Raise ValueError.
Proof.
  intros Hdup Hne. unfold missing_cat_add, reindex_columns.
  destruct (labels_eqb (columns X_val) (columns X_train)) eqn:E;
    [apply labels_eqb_eq in E; contradiction|].
  destruct (nodupb (columns X_val)) eqn:En; [|reflexivity].
  apply nodupb_NoDup in En. contradiction.
Qed.

(** ** AirportSelector: any table, any count *)

(** The entry the summed series holds for a label: the combined count when
    the airport is seen in both roles, NaN otherwise. *)
Lemma series_add_entries (origs dests : list string) :
  series_add
    (map (fun k => (k, Z.of_nat (count_occ string_dec dests k)))
       (sorted_unique dests))
    (map (fun k => (k, Z.of_nat (count_occ string_dec origs k)))
       (sorted_unique origs)) =
  map (fun k => (k, if mem k dests && mem k origs
                    then Some (combined_count origs dests k) else None))
    (sorted_unique (sorted_unique dests ++ sorted_unique origs)).
Proof.
  unfold series_add. rewrite !map_fst_key. apply map_ext. intros k.
  rewrite !lookup_count.
  destruct (mem k dests), (mem k origs); try reflexivity.
  unfold combined_count. cbn [andb]. do 2 f_equal. lia.
Qed.

Lemma slice_to_firstn {A : Type} (K : Z) (l : list A) :
  slice_to K l =
  firstn (if (0 <=? K)%Z then Z.to_nat K
          else List.length l - Z.to_nat (- K)) l.
Proof. unfold slice_to. now destruct (0 <=? K)%Z. Qed.

Section AirportSelectorAnyTable.

Variable sorter : list (string * option Z) -> list (string * option Z).
Hypothesis sorter_ok : sort_contract sorter.

(** X16.  On any table of flight records and for any count K, [airport_select]
    returns observed airports, none of them twice: min(K, n) of the n
    observed airports when K is not negative, all but the last -K
    otherwise.  An airport seen in one role only is never listed ahead of
    an airport seen both as origin and as destination: the sum of its two
    counts is undefined and the sort puts it last. *)
Theorem airport_select_any_table (df : DataFrame)
    (origs dests : list string) (K : Z) :
  getitem df "Origin" = Ok (map Str origs) ->
  getitem df "Dest" = Ok (map Str dests) ->
  exists airports,
    airport_select sorter df K = Ok airports /\
    NoDup airports /\
    (forall a, In a airports -> In a (distinct_airports origs dests)) /\
    List.length airports =
      (if (0 <=? K)%Z
       then Nat.min (Z.to_nat K)
                    (List.length (distinct_airports origs dests))
       else List.length (distinct_airports origs dests) - Z.to_nat (- K)) /\
    (forall x y, In x origs -> In x dests ->
        In y airports -> ~ (In y origs /\ In y dests) ->
        precedes x y airports).
Proof.
  intros Ho Hd.
  rewrite (airport_select_codes sorter df origs dests K Ho Hd).
  rewrite series_add_entries.
  set (U := sorted_unique (sorted_unique dests ++ sorted_unique origs)).
  set (value := fun k => if mem k dests && mem k origs
                         then Some (combined_count origs dests k)
                         else @None Z).
  set (flights := map (fun k => (k, value k)) U).
  destruct (sorter_ok flights) as [Hperm Hsorted].
  set (S := sorter flights) in *.
  rewrite slice_to_firstn.
  set (m := if (0 <=? K)%Z then Z.to_nat K
            else List.length S - Z.to_nat (- K)).
  assert (Hfull : Permutation (map fst S) (distinct_airports origs dests)).
  { rewrite (Permutation_map fst Hperm). unfold flights.
    rewrite map_fst_key. apply union_index_perm. }
  assert (Hentry : forall e, In e S -> snd e = value (fst e)).
  { intros e He. apply (Permutation_in _ Hperm) in He. unfold flights in He.
    apply in_map_iff in He. now destruct He as [k [<- _]]. }
  assert (Hsplit : S = firstn m S ++ skipn m S)
    by (symmetry; apply firstn_skipn).
  exists (map fst (firstn m S)). split; [reflexivity|].
  split; [|split; [|split]].
  - rewrite <- firstn_map.
    assert (Hnd : NoDup (map fst S)).
    { apply (Permutation_NoDup (Permutation_sym Hfull)), NoDup_nodup. }
    rewrite <- (firstn_skipn m (map fst S)) in Hnd.
    exact (NoDup_app_remove_r _ _ Hnd).
  - intros a Ha. apply (Permutation_in _ Hfull).
    rewrite Hsplit, map_app. apply in_or_app. now left.
  - rewrite length_map, length_firstn. unfold m.
    rewrite <- (Permutation_length Hfull), length_map.
    destruct (0 <=? K)%Z; lia.
  - intros x y Hxo Hxd Hy Hnot.
    apply in_map_iff in Hy. destruct Hy as [ey [Hfy Hey]].
    assert (Hvy : snd ey = None).
    { rewrite (Hentry ey) by (rewrite Hsplit; apply in_or_app; now left).
      rewrite Hfy. unfold value.
      destruct (mem y dests) eqn:E1; [|reflexivity].
      destruct (mem y origs) eqn:E2; [|reflexivity].
      apply mem_In in E1, E2. tauto. }
    assert (Hvx : value x = Some (combined_count origs dests x)).
    { unfold value. apply mem_In in Hxo, Hxd. now rewrite Hxo, Hxd. }
    assert (Hex : In (x, value x) S).
    { apply (Permutation_in _ (Permutation_sym Hperm)). unfold flights.
      apply (in_map (fun k => (k, value k))). unfold U.
      rewrite sorted_unique_In, in_app_iff, !sorted_unique_In. now left. }
    rewrite Hsplit in Hsorted.
    destruct (StronglySorted_app_inv _ _ _ Hsorted) as [Hs1 [_ Hcross]].
    assert (Hex1 : In (x, value x) (firstn m S)).
    { rewrite Hsplit in Hex. apply in_app_or in Hex.
      destruct Hex as [?|Hex]; [assumption|]. exfalso.
      specialize (Hcross ey (x, value x) Hey Hex). unfold key_ge in Hcross.
      cbn [snd] in Hcross. rewrite Hvy, Hvx in Hcross. discriminate. }
    destruct (in_split _ _ Hey) as [l1 [l3 Hl]]. rewrite Hl in Hs1, Hex1.
    destruct (StronglySorted_app_inv _ _ _ Hs1) as [_ [Hs2 _]].
    inversion Hs2 as [|? ? _ Hf]; subst. rewrite Forall_forall in Hf.
    apply in_app_or in Hex1. destruct Hex1 as [Hx1|[Hx2|Hx3]].
    + destruct (in_split _ _ Hx1) as [a [b ->]].
      exists (map fst a), (map fst b), (map fst l3).
      rewrite Hl, !map_app. cbn [map fst]. rewrite <- app_assoc.
      reflexivity.
    + exfalso. rewrite Hx2 in Hvy. cbn [snd] in Hvy. congruence.
    + exfalso. specialize (Hf _ Hx3). unfold key_ge in Hf.
      cbn [snd] in Hf. rewrite Hvy, Hvx in Hf. discriminate.
Qed.

End AirportSelectorAnyTable.

(** ** Subsampler: size of the draw, no row twice *)

Lemma columns_drop_y (ps : list nat) (l : list (string * list cell)) :
  map fst (filter (fun col => negb (String.eqb "y" (fst col)))
             (map (fun c => (fst c, take ps (snd c) (Float NaN))) l)) =
  filter (fun c => negb (String.eqb "y" c)) (map fst l).
Proof.
  induction l as [|[c w] l IH]; [reflexivity|].
  cbn [map filter fst snd].
  destruct (String.eqb "y" c); cbn [negb map fst]; now rewrite IH.
Qed.

Lemma columns_without_y (X : DataFrame) (v : list cell) (ps : list nat) :
  columns (without_y (take_rows ps (assign X "y" v))) =
  filter (fun c => negb (String.eqb "y" c)) (columns X).
Proof.
  unfold columns, without_y, take_rows, assign. cbn [data].
  induction (data X) as [|[c w] l IH]; [reflexivity|].
  cbn [set_col map fst].
  destruct (String.eqb "y" c) eqn:E.
  - cbn [map filter fst]. rewrite String.eqb_refl, E. cbn [negb].
    apply columns_drop_y.
  - cbn [map filter fst]. rewrite E. cbn [negb map fst]. now rewrite IH.
Qed.

Lemma selected_columns (X : DataFrame) (v : list cell) (ps : list nat)
    (c : string) (vs : list cell) :
  In (c, vs) (data (without_y (take_rows ps (assign X "y" v)))) ->
  exists vs', In (c, vs') (data X) /\ vs = take ps vs' (Float NaN).
Proof.
  intros Hin. simpl in Hin. apply filter_In in Hin.
  destruct Hin as [Hin Hc]. apply in_map_iff in Hin.
  destruct Hin as [[c' v'] [[= -> <-] Hin']]. cbn [fst snd] in *.
  exists v'. split; [|reflexivity].
  apply In_set_col in Hin'. destruct Hin' as [[-> _]|?]; [|assumption].
  discriminate Hc.
Qed.

Section SubsamplerDraws.

Variable choice : nat -> nat -> list nat.
Hypothesis choice_good : choice_ok choice.

(** X17.  Below fraction 1, [rand_subset] returns k rows of the n it is
    given (n below 2^53), no row twice, features and label of a row
    together, where k is the integer nearest to the float product f*n,
    the even one at a tie, and the float product is a binary64 number
    nearest to the exact product; the feature matrix keeps its columns,
    except that a feature column named "y" is lost. *)
Theorem rand_subset_draw (X : DataFrame) (y : Series) (f : Q) :
  row_aligned X y -> (0 <= f)%Q -> (f < 1)%Q ->
  (Z.of_nat (nrows X) < 2 ^ 53)%Z ->
  exists X_samp y_samp ps num_rows,
    rand_subset choice X y f = Ok (X_samp, y_samp) /\
    NoDup ps /\ Forall (fun p => p < nrows X) ps /\
    num_rows = float_mul f (float_of_int (Z.of_nat (nrows X))) /\
    nearest_binary64 (f * inject_Z (Z.of_nat (nrows X)))%Q num_rows /\
    (Qabs (num_rows - inject_Z (Z.of_nat (List.length ps))) <= 1 # 2)%Q /\
    ((Qabs (num_rows - inject_Z (Z.of_nat (List.length ps))) == 1 # 2)%Q ->
     Z.even (Z.of_nat (List.length ps)) = true) /\
    nrows X_samp = List.length ps /\
    index X_samp = take ps (index X) 0%Z /\
    s_index y_samp = take ps (index X) 0%Z /\
    values y_samp = take ps (values y) (Float NaN) /\
    columns X_samp = filter (fun c => negb (String.eqb "y" c)) (columns X) /\
    (forall c vs, In (c, vs) (data X_samp) ->
        exists vs', In (c, vs') (data X) /\ vs = take ps vs' (Float NaN)).
Proof.
  intros Hal Hf0 Hf1 Hrows.
  destruct (rand_subset_run choice choice_good X y f Hal Hf0 Hf1 Hrows)
    as [sel [Hrun [Hnd [Hsel Hlen]]]].
  destruct (float_product_nearest (Z.of_nat (nrows X)) f) as [_ Hnear];
    [lia | exact Hf0 | now apply Qlt_le_weak|].
  do 2 eexists. exists sel, (float_mul f (float_of_int (Z.of_nat (nrows X)))).
  split; [exact Hrun|]. split; [exact Hnd|]. split; [exact Hsel|].
  split; [reflexivity|]. split; [exact Hnear|].
  rewrite Hlen.
  split; [apply py_round_half|]. split; [apply py_round_even|].
  split; [unfold nrows; cbn [without_y index take_rows]; apply take_length|].
  split; [reflexivity|]. split; [reflexivity|]. split; [reflexivity|].
  split; [apply columns_without_y | apply selected_columns].
Qed.

(** X18.  Below fraction 1, [imbalanced_subsample] returns rows of its
    input (of fewer than 2^53 rows), no row twice, features and label of a
    row together. *)
Theorem imbalanced_subsample_distinct_rows (X : DataFrame) (y : Series)
    (f : Q) :
  NoDup (columns X) -> row_aligned X y -> (0 <= f)%Q -> (f < 1)%Q ->
  (Z.of_nat (nrows X) < 2 ^ 53)%Z ->
  exists X_samp y_samp ps,
    imbalanced_subsample choice X y f = Ok (X_samp, y_samp) /\
    NoDup ps /\ Forall (fun p => p < nrows X) ps /\
    index X_samp = take ps (index X) 0%Z /\
    s_index y_samp = take ps (index X) 0%Z /\
    values y_samp = take ps (values y) (Float NaN) /\
    (forall c vs, In (c, vs) (data X_samp) ->
        exists vs', In (c, vs') (data X) /\ vs = take ps vs' (Float NaN)).
Proof.
  intros Hnd Hal Hf0 Hf1 Hrows.
  destruct (imbalanced_subsample_run choice choice_good X y f Hnd Hal Hf0
              Hf1 Hrows)
    as [selT [selF [Hrun [HT [HF [HndT [HndF _]]]]]]].
  do 2 eexists. exists (selT ++ selF). split; [exact Hrun|].
  split.
  { apply NoDup_app; [exact HndT | exact HndF |].
    intros p HpT HpF. rewrite Forall_forall in HT, HF.
    exact (eq_bool_exclusive _ (proj2 (HT p HpT)) (proj2 (HF p HpF))). }
  split.
  { apply Forall_app. split; eapply Forall_impl; eauto; simpl; tauto. }
  split; [reflexivity|]. split; [reflexivity|]. split; [reflexivity|].
  apply selected_columns.
Qed.

End SubsamplerDraws.

(** ** Normalizer: column lists, what is left alone, where the scaler
       comes from *)

Lemma fold_assign_index (pairs : list (string * list cell)) (df : DataFrame) :
  index (fold_left (fun d cv => assign d (fst cv) (snd cv)) pairs df)
  = index df.
Proof.
  revert df. induction pairs as [|p pairs IH]; intros df; simpl;
    [reflexivity | now rewrite IH].
Qed.

Lemma fold_assign_columns (pairs : list (string * list cell))
    (df : DataFrame) :
  Forall (fun p => In (fst p) (columns df)) pairs ->
  columns (fold_left (fun d cv => assign d (fst cv) (snd cv)) pairs df)
  = columns df.
Proof.
  revert df. induction pairs as [|p pairs IH]; intros df H; simpl;
    [reflexivity|].
  inversion H as [|? ? Hp Hrest]; subst.
  assert (E : columns (assign df (fst p) (snd p)) = columns df).
  { unfold columns, assign. cbn [data]. now apply columns_set_col_present. }
  rewrite IH; [exact E|]. now rewrite E.
Qed.

Lemma combine_keys {A B : Type} (l : list A) (r : list B) (p : A * B) :
  In p (combine l r) -> In (fst p) l.
Proof. destruct p as [a b]. apply in_combine_l. Qed.

(** Writing a list of columns keeps the row index, touches no column
    outside the list and, when the labels exist already, keeps the column
    labels and their order. *)
Lemma setitem_columns_Ok (df out : DataFrame) (labels : list string)
    (value : list (list cell)) :
  setitem_columns df labels value = Ok out ->
  index out = index df /\
  (forall c, ~ In c labels -> getitem out c = getitem df c) /\
  (Forall (fun c => In c (columns df)) labels -> columns out = columns df).
Proof.
  unfold setitem_columns. destruct (Nat.eqb _ _); [|discriminate].
  intros [= <-]. split; [apply fold_assign_index|]. split.
  - intros c Hc. unfold getitem. rewrite fold_assign_other; [reflexivity|].
    intros Hin. apply Hc. apply in_map_iff in Hin.
    destruct Hin as [p [<- Hp]]. now apply combine_keys in Hp.
  - intros Hall. apply fold_assign_columns. apply Forall_forall.
    intros p Hp. apply combine_keys in Hp.
    rewrite Forall_forall in Hall. now apply Hall.
Qed.

Lemma loc_columns_labels (df out : DataFrame) (labels : list string) :
  loc_columns df labels = Ok out ->
  columns out = labels /\ Forall (fun c => In c (columns df)) labels.
Proof.
  intros H. destruct (loc_columns_Ok _ _ _ H) as [_ [Hd Hl]]. split.
  - unfold columns. rewrite Hd. apply map_fst_key.
  - eapply Forall_impl; [|exact Hl]. intros c Hc. cbn beta in Hc.
    apply lookup_Some_In in Hc. unfold columns.
    change c with (fst (c, column_of df c)). now apply in_map.
Qed.

(** X19.  The comment of the notebook's configuration, as the code enforces it:
    the columns to log must be among the columns to normalize.  With both
    matrices holding the columns to normalize, a column to log that is not
    one of them makes [normalize] fail with a KeyError. *)
Theorem normalize_log_not_normalized (X_train X_val : DataFrame)
    (X_vars_normalize X_vars_log : list string) (c : string) :
  Forall (fun c => In c (columns X_train)) X_vars_normalize ->
  Forall (fun c => In c (columns X_val)) X_vars_normalize ->
  In c X_vars_log -> ~ In c X_vars_normalize ->
  normalize X_train X_val X_vars_normalize X_vars_log = Raise KeyError.
Proof.
  intros Ht Hv Hc Hnot. unfold normalize.
  rewrite (loc_columns_run X_train _ Ht), (loc_columns_run X_val _ Hv).
  cbn [bind]. rewrite (loc_columns_missing _ X_vars_log c Hc); [reflexivity|].
  unfold columns. cbn [data]. now rewrite map_fst_key.
Qed.

(** X20.  Whenever [normalize] returns, both matrices come back with their own
    row index, their column labels in the same order and every column
    outside the normalize list unchanged; the scaler holds one mean and
    one scale per column of the normalize list. *)
Theorem normalize_leaves_the_rest (X_train X_val : DataFrame)
    (X_vars_normalize X_vars_log : list string)
    (X_train_out X_val_out : DataFrame) (scaler : StandardScaler) :
  normalize X_train X_val X_vars_normalize X_vars_log
    = Ok (X_train_out, X_val_out, scaler) ->
  (index X_train_out = index X_train /\
   columns X_train_out = columns X_train /\
   forall c, ~ In c X_vars_normalize ->
     getitem X_train_out c = getitem X_train c) /\
  (index X_val_out = index X_val /\
   columns X_val_out = columns X_val /\
   forall c, ~ In c X_vars_normalize ->
     getitem X_val_out c = getitem X_val c) /\
  List.length (mean_ scaler) = List.length X_vars_normalize /\
  List.length (scale_ scaler) = List.length X_vars_normalize.
Proof.
  unfold normalize.
  destruct (loc_columns X_train X_vars_normalize) as [tts|e] eqn:E1;
    [|discriminate]. cbn [bind].
  destruct (loc_columns X_val X_vars_normalize) as [vts|e] eqn:E2;
    [|discriminate]. cbn [bind].
  destruct (loc_columns tts X_vars_log) as [ttl|e] eqn:E3;
    [|discriminate]. cbn [bind].
  destruct (loc_columns vts X_vars_log) as [vtl|e] eqn:E4;
    [|discriminate]. cbn [bind].
  destruct (np_log_frame ttl) as [logged|e] eqn:E5; [|discriminate].
  cbn [bind].
  destruct (setitem_columns tts X_vars_log (map snd (data logged)))
    as [tts'|e] eqn:E6; [|discriminate]. cbn [bind].
  destruct (fit_transform tts') as [[sc train_scaled]|e] eqn:E7;
    [|discriminate]. cbn [bind].
  destruct (setitem_columns X_train X_vars_normalize train_scaled)
    as [Xt|e] eqn:E8; [|discriminate]. cbn [bind].
  destruct (np_log_frame vtl) as [vlogged|e] eqn:E9; [|discriminate].
  cbn [bind].
  destruct (setitem_columns vts X_vars_log (map snd (data vlogged)))
    as [vts'|e] eqn:E10; [|discriminate]. cbn [bind].
  destruct (transform sc vts') as [val_scaled|e] eqn:E11; [|discriminate].
  cbn [bind].
  destruct (setitem_columns X_val X_vars_normalize val_scaled)
    as [Xv|e] eqn:E12; [|discriminate]. cbn [bind].
  intros [= <- <- <-].
  destruct (loc_columns_labels _ _ _ E1) as [Ctts Hint].
  destruct (loc_columns_labels _ _ _ E2) as [_ Hinv].
  destruct (loc_columns_labels _ _ _ E3) as [_ Hlog].
  destruct (setitem_columns_Ok _ _ _ _ E8) as [It [Ot Ct]].
  destruct (setitem_columns_Ok _ _ _ _ E12) as [Iv [Ov Cv]].
  destruct (setitem_columns_Ok _ _ _ _ E6) as [_ [_ Ctts']].
  split; [split; [exact It | split; [now apply Ct | exact Ot]]|].
  split; [split; [exact Iv | split; [now apply Cv | exact Ov]]|].
  (* the scaler is fitted on a frame with the columns to normalize *)
  unfold fit_transform, fit in E7.
  destruct (check_array tts') as [cols|e] eqn:E13; [|discriminate].
  cbn [bind] in E7.
  destruct (transform _ tts') as [scaled|e]; [|discriminate].
  cbn [bind] in E7. injection E7 as <- _. cbn [mean_ scale_].
  assert (Hn : List.length cols = List.length X_vars_normalize).
  { unfold check_array in E13.
    destruct (mapM _ (data tts')) as [cs|e] eqn:E14; [|discriminate].
    destruct (existsb _ cs); [discriminate|].
    destruct (Nat.eqb (nrows tts') 0); [discriminate|].
    destruct (Nat.eqb (List.length cs) 0); [discriminate|].
    injection E13 as <-. rewrite (mapM_length _ _ _ E14).
    rewrite <- Ctts, <- (Ctts' Hlog). unfold columns. now rewrite length_map. }
  now rewrite !length_map.
Qed.

(** X21.  The scaler is fitted on the training matrix alone: two runs of
    [normalize] on one training matrix return the same scaler and the same
    transformed training matrix, whatever the validation matrices are. *)
Theorem normalize_fits_on_training_only (X_train X_val X_val' : DataFrame)
    (X_vars_normalize X_vars_log : list string)
    (out1 out2 val1 val2 : DataFrame) (scaler1 scaler2 : StandardScaler) :
  normalize X_train X_val X_vars_normalize X_vars_log
    = Ok (out1, val1, scaler1) ->
  normalize X_train X_val' X_vars_normalize X_vars_log
    = Ok (out2, val2, scaler2) ->
  scaler1 = scaler2 /\ out1 = out2.
Proof.
  unfold normalize.
  destruct (loc_columns X_train X_vars_normalize) as [tts|e];
    [|discriminate]. cbn [bind].
  destruct (loc_columns X_val X_vars_normalize) as [vts|e];
    [|discriminate].
  destruct (loc_columns X_val' X_vars_normalize) as [vts2|e];
    [|discriminate]. cbn [bind].
  destruct (loc_columns tts X_vars_log) as [ttl|e]; [|discriminate].
  cbn [bind].
  destruct (loc_columns vts X_vars_log) as [vtl|e]; [|discriminate].
  destruct (loc_columns vts2 X_vars_log) as [vtl2|e]; [|discriminate].
  cbn [bind].
  destruct (np_log_frame ttl) as [logged|e]; [|discriminate]. cbn [bind].
  destruct (setitem_columns tts X_vars_log (map snd (data logged)))
    as [tts'|e]; [|discriminate]. cbn [bind].
  destruct (fit_transform tts') as [[sc train_scaled]|e]; [|discriminate].
  cbn [bind].
  destruct (setitem_columns X_train X_vars_normalize train_scaled)
    as [Xt|e]; [|discriminate]. cbn [bind].
  destruct (np_log_frame vtl) as [vl|e]; [|discriminate].
  destruct (np_log_frame vtl2) as [vl2|e]; [|discriminate]. cbn [bind].
  destruct (setitem_columns vts X_vars_log (map snd (data vl)))
    as [vts'|e]; [|discriminate].
  destruct (setitem_columns vts2 X_vars_log (map snd (data vl2)))
    as [vts2'|e]; [|discriminate]. cbn [bind].
  destruct (transform sc vts') as [s1|e]; [|discriminate].
  destruct (transform sc vts2') as [s2|e]; [|discriminate]. cbn [bind].
  destruct (setitem_columns X_val X_vars_normalize s1) as [o1|e];
    [|discriminate].
  destruct (setitem_columns X_val' X_vars_normalize s2) as [o2|e];
    [|discriminate]. cbn [bind].
  intros [= <- _ <-] [= <- _ <-]. now split.
Qed.

Lemma Forall2_nth_error_left {A B : Type} (R : A -> B -> Prop)
    (l : list A) (r : list B) (i : nat) (a : A) :
  Forall2 R l r -> nth_error l i = Some a ->
  exists b, nth_error r i = Some b /\ R a b.
Proof.
  intros H. revert i. induction H as [|x y l r Hxy _ IH]; intros [|i]; simpl;
    try discriminate.
  - intros [= <-]. now exists y.
  - apply IH.
Qed.

Lemma map3_nth_error {A B C D : Type} (f : A -> B -> C -> D)
    (la : list A) (lb : list B) (lc : list C) (i : nat) (a : A) (b : B)
    (c : C) :
  nth_error la i = Some a -> nth_error lb i = Some b ->
  nth_error lc i = Some c ->
  nth_error (map3 f la lb lc) i = Some (f a b c).
Proof.
  revert lb lc i.
  induction la as [|a' la IH]; intros [|b' lb] [|c' lc] [|i]; simpl;
    try discriminate.
  - now intros [= <-] [= <-] [= <-].
  - apply IH.
Qed.

Lemma combine_nth_unique {A : Type} (labels : list string) (vs : list A)
    (i : nat) (c : string) (w : A) :
  NoDup labels -> nth_error labels i = Some c ->
  In (c, w) (combine labels vs) -> nth_error vs i = Some w.
Proof.
  revert vs i.
  induction labels as [|k labels IH]; intros [|v vs] [|i] Hnd Hi Hin;
    simpl in *; try discriminate; try contradiction.
  - injection Hi as ->. destruct Hin as [[= <-]|Hin]; [reflexivity|].
    apply in_combine_l in Hin. now inversion Hnd.
  - inversion Hnd as [|? ? Hk Hnd']; subst.
    destruct Hin as [[= -> _]|Hin].
    + exfalso. apply Hk. now apply (nth_error_In _ i).
    + now apply IH.
Qed.

Lemma combine_labels {A B : Type} (l : list A) (r : list B) :
  List.length l = List.length r -> map fst (combine l r) = l.
Proof.
  revert r. induction l as [|a l IH]; intros [|b r]; simpl;
    try discriminate; [reflexivity|].
  intros [= H]. now rewrite IH.
Qed.

(** Under distinct labels, writing a list of columns leaves under the i-th
    label the i-th column. *)
Lemma setitem_columns_nth (df out : DataFrame) (labels : list string)
    (value : list (list cell)) (i : nat) (c : string) (w : list cell) :
  NoDup labels ->
  setitem_columns df labels value = Ok out ->
  nth_error labels i = Some c -> nth_error value i = Some w ->
  getitem out c = Ok w.
Proof.
  intros Hnd Hset Hc Hw. unfold setitem_columns in Hset.
  destruct (Nat.eqb _ _) eqn:El; [|discriminate]. injection Hset as <-.
  apply Nat.eqb_eq in El. unfold getitem.
  rewrite (fold_assign_same _ _ c w); [reflexivity| |].
  - rewrite combine_labels by exact El. now apply (nth_error_In _ i).
  - intros w' Hin. pose proof (combine_nth_unique _ _ _ _ _ Hnd Hc Hin) as H.
    congruence.
Qed.

Lemma check_array_Ok (df : DataFrame) (cols : list (list float)) :
  check_array df = Ok cols ->
  Forall2 (fun col fl => mapM to_float (snd col) = Ok fl) (data df) cols.
Proof.
  unfold check_array.
  destruct (mapM _ (data df)) as [cs|e] eqn:E; [|discriminate].
  destruct (existsb _ cs); [discriminate|].
  destruct (Nat.eqb (nrows df) 0); [discriminate|].
  destruct (Nat.eqb (List.length cs) 0); [discriminate|].
  intros [= <-]. now apply mapM_Forall2 in E.
Qed.

(** The frame handed to the scaler: under each label to normalize, in
    their order, the column of the matrix, logged when it is a column to
    log. *)
Lemma prepared_frame (df ts tl lg ts' : DataFrame)
    (X_vars_normalize X_vars_log : list string) :
  NoDup X_vars_normalize ->
  loc_columns df X_vars_normalize = Ok ts ->
  loc_columns ts X_vars_log = Ok tl ->
  np_log_frame tl = Ok lg ->
  setitem_columns ts X_vars_log (map snd (data lg)) = Ok ts' ->
  map fst (data ts') = X_vars_normalize /\
  forall c, In c X_vars_normalize ->
    exists v w, getitem df c = Ok v /\
                (if mem c X_vars_log then mapM np_log v else Ok v) = Ok w /\
                lookup c (data ts') = Some w.
Proof.
  intros Hnd E1 E3 E5 E6.
  destruct (loc_columns_Ok _ _ _ E1) as [_ [Dts Hts]].
  destruct (loc_columns_Ok _ _ _ E3) as [_ [Dtl Htl]].
  destruct (loc_columns_labels _ _ _ E1) as [Cts _].
  destruct (loc_columns_labels _ _ _ E3) as [_ Hlog].
  pose proof (np_log_frame_Ok _ _ E5) as Hlg.
  assert (Hlabels : map fst (data lg) = X_vars_log).
  { rewrite <- (map_fst_key (column_of ts) X_vars_log), <- Dtl.
    clear -Hlg. induction Hlg as [|? ? ? ? [H _] _ IH]; simpl;
      [reflexivity | now rewrite H, IH]. }
  assert (Hcol : forall c, In c X_vars_normalize ->
             lookup c (data ts) = Some (column_of df c) /\
             getitem df c = Ok (column_of df c)).
  { intros c Hc. split.
    - rewrite Dts. now apply lookup_map_key.
    - rewrite Forall_forall in Hts. unfold getitem. now rewrite (Hts c Hc). }
  unfold setitem_columns in E6.
  destruct (Nat.eqb _ _); [|discriminate]. injection E6 as <-.
  assert (Ecomb : combine X_vars_log (map snd (data lg)) = data lg)
    by (rewrite <- Hlabels at 1; apply combine_fst_snd).
  rewrite Ecomb. split.
  - change (map fst (data ?d)) with (columns d).
    rewrite fold_assign_columns; [exact Cts|].
    apply Forall_forall. intros p Hp. rewrite Forall_forall in Hlog.
    apply Hlog. rewrite <- Hlabels. now apply in_map.
  - intros c Hc. destruct (Hcol c Hc) as [Hl Hg].
    exists (column_of df c).
    destruct (mem c X_vars_log) eqn:Em.
    + apply mem_In in Em.
      assert (Hcin : In c (map fst (data lg))) by now rewrite Hlabels.
      assert (Hsame : forall w, In (c, w) (data lg) ->
                        mapM np_log (column_of df c) = Ok w).
      { intros w Hw.
        destruct (Forall2_In_right _ _ _ _ Hlg Hw) as [[k u] [Hku [Hk Hu]]].
        cbn [fst snd] in Hk, Hu. subst k. rewrite Dtl in Hku.
        apply in_map_iff in Hku. destruct Hku as [c' [[= -> <-] _]].
        unfold column_of in Hu at 1. now rewrite Hl in Hu. }
      destruct (lookup_In_Some c (data lg) Hcin) as [lv Hlv].
      apply lookup_Some_In in Hlv. pose proof (Hsame lv Hlv) as Hlogv.
      exists lv. split; [exact Hg|]. split; [exact Hlogv|].
      apply fold_assign_same; [exact Hcin|].
      intros w Hw. specialize (Hsame w Hw). congruence.
    + apply mem_not_In in Em. exists (column_of df c).
      split; [exact Hg|]. split; [reflexivity|].
      rewrite fold_assign_other by now rewrite Hlabels. exact Hl.
Qed.

(** The i-th column the scaler reads off a prepared frame. *)
Lemma prepared_frame_column (df ts' : DataFrame)
    (X_vars_normalize X_vars_log : list string) (cols : list (list float))
    (i : nat) (c : string) :
  NoDup X_vars_normalize ->
  map fst (data ts') = X_vars_normalize ->
  (forall c, In c X_vars_normalize ->
     exists v w, getitem df c = Ok v /\
                 (if mem c X_vars_log then mapM np_log v else Ok v) = Ok w /\
                 lookup c (data ts') = Some w) ->
  check_array ts' = Ok cols ->
  nth_error X_vars_normalize i = Some c ->
  exists fl, nth_error cols i = Some fl /\
             prepared_column df X_vars_log c = Ok fl.
Proof.
  intros Hnd Hlab Hcols Hchk Hi.
  pose proof (check_array_Ok _ _ Hchk) as HF.
  destruct (Hcols c (nth_error_In _ _ Hi)) as [v [w [Hv [Hw Hl]]]].
  assert (Hnth : nth_error (data ts') i = Some (c, w)).
  { rewrite <- Hlab in Hi, Hnd. rewrite nth_error_map in Hi.
    destruct (nth_error (data ts') i) as [[k u]|] eqn:E; [|discriminate].
    cbn [option_map fst] in Hi. injection Hi as ->.
    apply nth_error_In in E.
    rewrite (In_lookup_NoDup c u (data ts') Hnd E) in Hl. congruence. }
  destruct (Forall2_nth_error_left _ _ _ _ _ HF Hnth) as [fl [Hfl Hto]].
  exists fl. split; [exact Hfl|].
  unfold prepared_column. rewrite Hv. cbn [bind]. rewrite Hw. cbn [bind].
  exact Hto.
Qed.

(** X22.  The validation matrix goes through the transform fitted on the
    training matrix.  Whenever [normalize] returns for distinct columns to
    normalize, the scaler holds, for each of them, the mean and the scale
    of the training column (logged where it is to be logged), and in both
    returned matrices the column is the input column, logged likewise,
    less that mean and divided by that scale: the validation column is
    scaled with the statistics of the training column, not with its
    own. *)
Theorem normalize_same_transform (X_train X_val : DataFrame)
    (X_vars_normalize X_vars_log : list string)
    (X_train_out X_val_out : DataFrame) (scaler : StandardScaler) :
  NoDup X_vars_normalize ->
  normalize X_train X_val X_vars_normalize X_vars_log
    = Ok (X_train_out, X_val_out, scaler) ->
  forall i c, nth_error X_vars_normalize i = Some c ->
    exists train_column val_column,
      prepared_column X_train X_vars_log c = Ok train_column /\
      prepared_column X_val X_vars_log c = Ok val_column /\
      nth_error (mean_ scaler) i = Some (nanmean train_column) /\
      nth_error (scale_ scaler) i = Some (scale_of (nanvar train_column)) /\
      getitem X_train_out c
      = Ok (map (scaled_with train_column) train_column) /\
      getitem X_val_out c = Ok (map (scaled_with train_column) val_column).
Proof.
  intros Hnd. unfold normalize.
  destruct (loc_columns X_train X_vars_normalize) as [tts|e] eqn:E1;
    [|discriminate]. cbn [bind].
  destruct (loc_columns X_val X_vars_normalize) as [vts|e] eqn:E2;
    [|discriminate]. cbn [bind].
  destruct (loc_columns tts X_vars_log) as [ttl|e] eqn:E3;
    [|discriminate]. cbn [bind].
  destruct (loc_columns vts X_vars_log) as [vtl|e] eqn:E4;
    [|discriminate]. cbn [bind].
  destruct (np_log_frame ttl) as [logged|e] eqn:E5; [|discriminate].
  cbn [bind].
  destruct (setitem_columns tts X_vars_log (map snd (data logged)))
    as [tts'|e] eqn:E6; [|discriminate]. cbn [bind].
  unfold fit_transform, fit.
  destruct (check_array tts') as [tcols|e] eqn:E7; [|discriminate].
  cbn [bind].
  set (sc := {| mean_ := map nanmean tcols;
                scale_ := map (fun c => scale_of (nanvar c)) tcols |}).
  unfold transform at 1. rewrite E7. cbn [bind].
  destruct (Nat.eqb (List.length tcols) (List.length (mean_ sc))) eqn:E8;
    [|discriminate]. cbn [bind].
  destruct (setitem_columns X_train X_vars_normalize _) as [Xt|e] eqn:E9;
    [|discriminate]. cbn [bind].
  destruct (np_log_frame vtl) as [vlogged|e] eqn:E10; [|discriminate].
  cbn [bind].
  destruct (setitem_columns vts X_vars_log (map snd (data vlogged)))
    as [vts'|e] eqn:E11; [|discriminate]. cbn [bind].
  unfold transform.
  destruct (check_array vts') as [vcols|e] eqn:E12; [|discriminate].
  cbn [bind].
  destruct (Nat.eqb (List.length vcols) (List.length (mean_ sc))) eqn:E13;
    [|discriminate]. cbn [bind].
  destruct (setitem_columns X_val X_vars_normalize _) as [Xv|e] eqn:E14;
    [|discriminate]. cbn [bind].
  intros [= <- <- <-] i c Hi.
  destruct (prepared_frame _ _ _ _ _ _ _ Hnd E1 E3 E5 E6) as [LT CT].
  destruct (prepared_frame _ _ _ _ _ _ _ Hnd E2 E4 E10 E11) as [LV CV].
  destruct (prepared_frame_column _ _ _ _ _ _ _ Hnd LT CT E7 Hi)
    as [tcol [Htcol Htprep]].
  destruct (prepared_frame_column _ _ _ _ _ _ _ Hnd LV CV E12 Hi)
    as [vcol [Hvcol Hvprep]].
  assert (Hmean : nth_error (mean_ sc) i = Some (nanmean tcol))
    by (cbn [mean_ sc]; now rewrite nth_error_map, Htcol).
  assert (Hscale : nth_error (scale_ sc) i = Some (scale_of (nanvar tcol)))
    by (cbn [scale_ sc]; now rewrite nth_error_map, Htcol).
  exists tcol, vcol. split; [exact Htprep|]. split; [exact Hvprep|].
  split; [exact Hmean|]. split; [exact Hscale|]. split.
  - apply (setitem_columns_nth _ _ _ _ i c _ Hnd E9 Hi).
    exact (map3_nth_error
             (fun m s col => map (fun x => Float (standardize m s x)) col)
             _ _ _ i _ _ _ Hmean Hscale Htcol).
  - apply (setitem_columns_nth _ _ _ _ i c _ Hnd E14 Hi).
    exact (map3_nth_error
             (fun m s col => map (fun x => Float (standardize m s x)) col)
             _ _ _ i _ _ _ Hmean Hscale Hvcol).
Qed.

Lemma loc_columns_KeyError (df : DataFrame) (labels : list string) (e : exn) :
  loc_columns df labels = Raise e -> e = KeyError.
Proof.
  unfold loc_columns.
  induction labels as [|c labels IH]; simpl; [discriminate|].
  unfold getitem at 1. destruct (lookup c (data df)) as [v|]; cbn [bind].
  - destruct (mapM _ labels) as [cols|e']; cbn [bind] in *; [discriminate|].
    intros [= <-]. now apply IH.
  - now intros [= <-].
Qed.

(** X23.  [normalize] looks the columns to normalize up in the validation matrix
    as it comes: a column to normalize that the validation matrix lacks
    makes it fail with a KeyError, whether or not the training matrix has
    the column. *)
Theorem normalize_missing_validation_column (X_train X_val : DataFrame)
    (X_vars_normalize X_vars_log : list string) (c : string) :
  In c X_vars_normalize -> ~ In c (columns X_val) ->
  normalize X_train X_val X_vars_normalize X_vars_log = Raise KeyError.
Proof.
  intros Hin Hnot. unfold normalize.
  destruct (loc_columns X_train X_vars_normalize) as [tts|e] eqn:E1;
    cbn [bind].
  - now rewrite (loc_columns_missing X_val _ c Hin Hnot).
  - now rewrite (loc_columns_KeyError _ _ _ E1).
Qed.

(** The last writes of a run of [normalize]: both matrices receive columns
    under the labels to normalize, which both hold already. *)
Lemma normalize_run (X_train X_val : DataFrame)
    (X_vars_normalize X_vars_log : list string)
    (X_train_out X_val_out : DataFrame) (scaler : StandardScaler) :
  normalize X_train X_val X_vars_normalize X_vars_log
    = Ok (X_train_out, X_val_out, scaler) ->
  exists train_scaled val_scaled,
    setitem_columns X_train X_vars_normalize train_scaled = Ok X_train_out /\
    setitem_columns X_val X_vars_normalize val_scaled = Ok X_val_out /\
    Forall (fun c => In c (columns X_train)) X_vars_normalize /\
    Forall (fun c => In c (columns X_val)) X_vars_normalize.
Proof.
  unfold normalize.
  destruct (loc_columns X_train X_vars_normalize) as [tts|e] eqn:E1;
    [|discriminate]. cbn [bind].
  destruct (loc_columns X_val X_vars_normalize) as [vts|e] eqn:E2;
    [|discriminate]. cbn [bind].
  destruct (loc_columns tts X_vars_log) as [ttl|e]; [|discriminate].
  cbn [bind].
  destruct (loc_columns vts X_vars_log) as [vtl|e]; [|discriminate].
  cbn [bind].
  destruct (np_log_frame ttl) as [logged|e]; [|discriminate]. cbn [bind].
  destruct (setitem_columns tts X_vars_log (map snd (data logged)))
    as [tts'|e]; [|discriminate]. cbn [bind].
  destruct (fit_transform tts') as [[sc train_scaled]|e]; [|discriminate].
  cbn [bind].
  destruct (setitem_columns X_train X_vars_normalize train_scaled)
    as [Xt|e] eqn:E8; [|discriminate]. cbn [bind].
  destruct (np_log_frame vtl) as [vlogged|e]; [|discriminate]. cbn [bind].
  destruct (setitem_columns vts X_vars_log (map snd (data vlogged)))
    as [vts'|e]; [|discriminate]. cbn [bind].
  destruct (transform sc vts') as [val_scaled|e]; [|discriminate].
  cbn [bind].
  destruct (setitem_columns X_val X_vars_normalize val_scaled)
    as [Xv|e] eqn:E12; [|discriminate]. cbn [bind].
  intros [= <- <- <-]. exists train_scaled, val_scaled.
  split; [exact E8|]. split; [exact E12|].
  split; [exact (proj2 (loc_columns_labels _ _ _ E1))
         | exact (proj2 (loc_columns_labels _ _ _ E2))].
Qed.

(** ** Import: the stages together *)

Lemma identity_selection (X : DataFrame) (y : Series) :
  Forall (fun c => List.length (snd c) = nrows X) (data X) ->
  row_aligned X y -> drawn_from X y X y.
Proof.
  intros Hcols [Hidx Hlen]. exists (seq 0 (nrows X)).
  split; [apply Forall_forall; intros p Hp; apply in_seq in Hp; lia|].
  split; [symmetry; apply take_seq|].
  split; [unfold nrows; rewrite <- Hidx; symmetry; apply take_seq|].
  split.
  - unfold nrows. rewrite <- Hidx, <- Hlen. symmetry. apply take_seq.
  - intros c vs Hin. exists vs. split; [exact Hin|].
    rewrite Forall_forall in Hcols. rewrite <- (Hcols _ Hin). simpl.
    symmetry. apply take_seq.
Qed.

Lemma airline_names_shape (carriers df out : DataFrame) :
  airline_names carriers df = Ok out ->
  Forall (fun c => List.length (snd c) = nrows df) (data df) ->
  index out = index df /\
  Forall (fun c => List.length (snd c) = nrows out) (data out).
Proof.
  unfold airline_names.
  destruct (getitem carriers "Description") as [ds|e]; [|discriminate].
  destruct (getitem carriers "Code") as [cs|e]; [|discriminate].
  cbn [bind].
  destruct (getitem df "Reporting_Airline") as [airline|e] eqn:Ea;
    [|discriminate]. cbn [bind].
  rewrite getitem_assign_same. cbn [bind]. intros [= <-] Hshape.
  split; [reflexivity|].
  apply assign_shape.
  - rewrite !length_map. now apply (getitem_shape df "Reporting_Airline").
  - apply assign_shape; [|exact Hshape].
    rewrite length_map. now apply (getitem_shape df "Reporting_Airline").
Qed.

Section ImportData.

Variable read_flight_csv : list string -> list string -> result DataFrame.
Variable carriers : DataFrame.
Variable sorter : list (string * option Z) -> list (string * option Z).
Variable choice : nat -> nat -> list nat.
Hypothesis choice_good : choice_ok choice.

(** A subsample of a co-indexed pair is a row selection of that pair. *)
Lemma subsample_selection (X : DataFrame) (y : Series) (f : Q)
    (imbalanced : bool) (X_samp : DataFrame) (y_samp : Series) :
  Forall (fun c => List.length (snd c) = nrows X) (data X) ->
  row_aligned X y -> (0 <= f)%Q ->
  (imbalanced = true -> NoDup (columns X)) ->
  (if imbalanced then imbalanced_subsample choice X y f
   else rand_subset choice X y f) = Ok (X_samp, y_samp) ->
  row_aligned X_samp y_samp /\ drawn_from X y X_samp y_samp.
Proof.
  intros Hshape Hal Hf0 Hnd Hrun.
  destruct (Qlt_le_dec f 1) as [Hf1|Hf1].
  - destruct imbalanced.
    + destruct (imbalanced_subsample_inv choice choice_good X y f _ _
                  (Hnd eq_refl) Hal Hf1 Hrun)
        as [selT [selF [-> [-> [HT [HF _]]]]]].
      assert (Hsel : Forall (fun p => p < nrows X) (selT ++ selF)).
      { apply Forall_app. split; eapply Forall_impl; eauto; simpl; tauto. }
      destruct (selection_drawn_from X y _ Hal Hsel) as [H1 [_ H2]].
      now split.
    + destruct (rand_subset_inv choice choice_good X y f _ _ Hal Hf1 Hrun)
        as [sel [-> [-> [_ [Hsel _]]]]].
      destruct (selection_drawn_from X y _ Hal Hsel) as [H1 [_ H2]].
      now split.
  - assert (E : (X_samp, y_samp) = (X, y)).
    { destruct imbalanced;
        [unfold imbalanced_subsample in Hrun | unfold rand_subset in Hrun];
        (destruct (Qlt_le_dec f 1) as [Hlt|_];
         [exfalso; exact (Qlt_not_le _ _ Hlt Hf1) | congruence]). }
    injection E as -> ->. split; [exact Hal|].
    now apply identity_selection.
Qed.

(** X24.  Whenever [import_data] returns, what it returns belongs together: the
    full feature matrix and the full label vector are co-indexed, the
    sample is a selection of rows of that pair, features and label of a
    row together, and an airport list passed in is handed back unchanged. *)
Theorem import_data_consistent
    (filenames : list string) (rand_frac : Q)
    (X_vars X_vars_categorical y_var : list string) (delay_minutes : Z)
    (X_vars_hours : list string) (X_vars_cyclical_dict : dict Z)
    (num_airports : option Z) (airports_list : option (list string))
    (subsample_imbalanced : bool)
    (X_samp : DataFrame) (y_samp : Series) (airports : list string)
    (X_full : DataFrame) (y_full : Series) :
  import_data read_flight_csv carriers sorter choice filenames rand_frac
    X_vars X_vars_categorical y_var delay_minutes X_vars_hours
    X_vars_cyclical_dict num_airports airports_list subsample_imbalanced
  = Ok (X_samp, y_samp, airports, X_full, y_full) ->
  (0 <= rand_frac)%Q ->
  (subsample_imbalanced = true -> NoDup (columns X_full)) ->
  row_aligned X_full y_full /\
  Forall (fun c => List.length (snd c) = nrows X_full) (data X_full) /\
  row_aligned X_samp y_samp /\
  drawn_from X_full y_full X_samp y_samp /\
  (forall l, airports_list = Some l -> airports = l).
Proof.
  unfold import_data.
  destruct (read_flight_csv filenames (X_vars ++ y_var)) as [df|e];
    [|discriminate]. cbn [bind].
  destruct (match airports_list with
            | Some l => Ok l
            | None => airport_select_opt sorter (dropna df) num_airports
            end) as [ap|e] eqn:Eap; [|discriminate]. cbn [bind].
  destruct (airport_restrict (dropna df) ap) as [restricted|e] eqn:Er;
    [|discriminate]. cbn [bind].
  destruct (airline_names carriers restricted) as [named|e] eqn:En;
    [|discriminate]. cbn [bind].
  destruct (predictors_and_target named X_vars X_vars_categorical
              delay_minutes) as [[X y]|e] eqn:Ep; [|discriminate].
  cbn [bind].
  destruct (convert_hours X X_vars_hours) as [X_hours|e] eqn:Eh;
    [|discriminate]. cbn [bind].
  destruct (convert_cyclical X_hours X_vars_cyclical_dict) as [Xf|e] eqn:Ec;
    [|discriminate]. cbn [bind].
  destruct (if subsample_imbalanced
            then imbalanced_subsample choice Xf y rand_frac
            else rand_subset choice Xf y rand_frac)
    as [[Xs ys]|e] eqn:Es; [|discriminate]. cbn [bind].
  intros [= <- <- <- <- <-] Hf Hnd.
  (* the restricted table has one cell per row in every column *)
  assert (Hr : Forall (fun c => List.length (snd c) = nrows restricted)
                      (data restricted)).
  { unfold airport_restrict in Er.
    destruct (getitem (dropna df) "Dest"); [|discriminate].
    destruct (getitem (dropna df) "Origin"); [|discriminate].
    cbn [bind] in Er. injection Er as <-. apply take_rows_shape. }
  destruct (airline_names_shape _ _ _ En Hr) as [_ Hn].
  destruct (predictors_and_target_shape _ _ _ _ _ _ Ep Hn)
    as [_ [[Hyi Hyl] HX]].
  destruct (convert_hours_rows _ _ _ Eh) as [Hhi Hhs].
  specialize (Hhs HX).
  destruct (convert_cyclical_rows _ _ _ Ec) as [Hci Hcs].
  specialize (Hcs Hhs).
  assert (Hal : row_aligned Xf y).
  { split; [now rewrite Hci, Hhi | exact Hyl]. }
  destruct (subsample_selection Xf y rand_frac subsample_imbalanced Xs ys
              Hcs Hal Hf Hnd Es) as [H1 H2].
  split; [exact Hal|]. split; [exact Hcs|]. split; [exact H1|].
  split; [exact H2|].
  intros l ->. now injection Eap.
Qed.

End ImportData.

(** ** Normalizer, then SchemaAligner *)

(** X25.  The matrices handed to the model.  The notebook aligns the validation
    matrix after normalizing it; whenever [normalize] returns for a
    validation matrix with distinct column labels, [missing_cat_add]
    returns as well, and the validation matrix then has the columns of the
    normalized training matrix, which are those of the training matrix, in
    their order, and its own rows. *)
Theorem normalized_matrices_share_columns (X_train X_val : DataFrame)
    (X_vars_normalize X_vars_log : list string)
    (X_train_normalized X_val_norm0 : DataFrame) (scaler : StandardScaler) :
  NoDup (columns X_val) ->
  normalize X_train X_val X_vars_normalize X_vars_log
    = Ok (X_train_normalized, X_val_norm0, scaler) ->
  exists X_val_normalized,
    missing_cat_add X_train_normalized X_val_norm0 = Ok X_val_normalized /\
    columns X_val_normalized = columns X_train_normalized /\
    columns X_train_normalized = columns X_train /\
    index X_val_normalized = index X_val.
Proof.
  intros Hnd Hrun.
  destruct (normalize_run _ _ _ _ _ _ _ Hrun)
    as [ts [vs [Et [Ev [Hint Hinv]]]]].
  destruct (setitem_columns_Ok _ _ _ _ Et) as [_ [_ Ct]].
  destruct (setitem_columns_Ok _ _ _ _ Ev) as [Iv [_ Cv]].
  assert (Hnd0 : NoDup (columns X_val_norm0)) by now rewrite (Cv Hinv).
  destruct (missing_cat_add_Ok X_train_normalized X_val_norm0 Hnd0)
    as [out [Hout [Hidx [Hcols _]]]].
  exists out. split; [exact Hout|]. split; [exact Hcols|].
  split; [exact (Ct Hint)|]. now rewrite Hidx.
Qed.

(** * The further properties at concrete inputs *)

Lemma airport_restrict_keeps_listed_witness :
  getitem (flights_table ex_origs ex_dests) "Dest" = Ok (map Str ex_dests) /\
  getitem (flights_table ex_origs ex_dests) "Origin" = Ok (map Str ex_origs) /\
  exists ps dest' orig',
    airport_restrict (flights_table ex_origs ex_dests) ["A"; "B"]
    = Ok (take_rows ps (flights_table ex_origs ex_dests)) /\
    (In 0 ps /\ ~ In 2 ps) /\
    getitem (take_rows ps (flights_table ex_origs ex_dests)) "Dest"
    = Ok dest' /\
    getitem (take_rows ps (flights_table ex_origs ex_dests)) "Origin"
    = Ok orig' /\
    Forall (fun c => isin ["A"; "B"] c = true) dest' /\
    Forall (fun c => isin ["A"; "B"] c = true) orig'.
Proof.
  split; [reflexivity|]. split; [reflexivity|].
  destruct (airport_restrict_keeps_listed (flights_table ex_origs ex_dests)
              ["A"; "B"] (map Str ex_dests) (map Str ex_origs)
              eq_refl eq_refl)
    as [ps [dest' [orig' [Hrun [_ [Hps [Hd [Ho [HFd HFo]]]]]]]]].
  exists ps, dest', orig'. split; [exact Hrun|]. split.
  - split.
    + apply Hps. simpl. repeat split; lia || reflexivity.
    + intros H. apply Hps in H. destruct H as [_ [_ [H _]]].
      discriminate H.
  - repeat split; assumption.
Defined.

Lemma airport_restrict_idempotent_witness :
  exists out,
    airport_restrict (flights_table ex_origs ex_dests) ["A"; "B"] = Ok out /\
    airport_restrict out ["A"; "B"] = Ok out.
Proof.
  eexists. split; [reflexivity|].
  apply (airport_restrict_idempotent (flights_table ex_origs ex_dests)).
  reflexivity.
Defined.

Lemma airline_names_frame_witness :
  getitem ex_carriers "Description"
  = Ok [Str "Alaska Airlines Inc."; Str "Delta Air Lines Inc.";
        Str "Virgin America"] /\
  getitem ex_carriers "Code" = Ok [Str "AS"; Str "DL"; Str "VX"] /\
  getitem ex_flights "Reporting_Airline"
  = Ok [Str "DL"; Str "VX"; Str "AS"; Str "DL"; Str "ZZ"; Str "VX"] /\
  exists df_new,
    airline_names ex_carriers ex_flights = Ok df_new /\
    index df_new = index ex_flights /\
    columns df_new = columns ex_flights /\
    getitem df_new "Origin" = getitem ex_flights "Origin".
Proof.
  split; [reflexivity|]. split; [reflexivity|]. split; [reflexivity|].
  destruct (airline_names_frame ex_carriers ex_flights _ _ _
              eq_refl eq_refl eq_refl)
    as [df_new [airline_new [Hrun [Hidx [Hcols [_ [_ Hrest]]]]]]].
  exists df_new. split; [exact Hrun|]. split; [exact Hidx|].
  split; [exact Hcols|]. apply Hrest. discriminate.
Defined.

Lemma airline_names_merger_witness :
  getitem ex_carriers "Description"
  = Ok [Str "Alaska Airlines Inc."; Str "Delta Air Lines Inc.";
        Str "Virgin America"] /\
  getitem ex_carriers "Code" = Ok [Str "AS"; Str "DL"; Str "VX"] /\
  getitem ex_flights "Reporting_Airline"
  = Ok [Str "DL"; Str "VX"; Str "AS"; Str "DL"; Str "ZZ"; Str "VX"] /\
  exists df_new airline_new,
    airline_names ex_carriers ex_flights = Ok df_new /\
    getitem df_new "Reporting_Airline" = Ok airline_new /\
    ~ In (Str "Virgin America") airline_new /\
    nth_error airline_new 0 = Some (Str "Delta Air Lines Inc.") /\
    nth_error airline_new 1 = Some (Str "Alaska Airlines Inc.") /\
    nth_error airline_new 4 = Some (Float NaN).
Proof.
  split; [reflexivity|]. split; [reflexivity|]. split; [reflexivity|].
  destruct (airline_names_merger ex_carriers ex_flights _ _ _
              eq_refl eq_refl eq_refl)
    as [df_new [airline_new [Hrun [Hget [Hnever [Hvx [Hnone Hname]]]]]]].
  exists df_new, airline_new. split; [exact Hrun|]. split; [exact Hget|].
  split; [exact Hnever|]. split; [|split].
  - apply (Hname 0 (Str "DL")); [reflexivity | reflexivity | discriminate].
  - apply (Hvx 1 (Str "VX")); reflexivity.
  - apply (Hnone 4 (Str "ZZ")); reflexivity.
Defined.

Lemma ex_predictors_present :
  Forall (fun c => In c (columns ex_flights)) ex_predictors.
Proof.
  apply Forall_forall. intros c Hc. apply mem_In. revert c Hc.
  apply forallb_forall. reflexivity.
Qed.

Lemma ex_categorical_predictors :
  Forall (fun c => In c ex_predictors) ex_categorical.
Proof.
  apply Forall_forall. intros c Hc. apply mem_In. revert c Hc.
  apply forallb_forall. reflexivity.
Qed.

Lemma ex_categorical_cells :
  Forall (fun c => exists vals,
            mapM category_value (column_of ex_flights c) = Ok vals)
    ex_categorical.
Proof. repeat constructor; eexists; reflexivity. Qed.

Lemma ex_delays_comparable :
  Forall (fun c => exists b, ge_cell 15 c = Ok b)
    [Float (Fin 0); Float (Fin 22); Float (Fin 15);
     Float NaN; Float (Fin 3); Float (Fin 60)].
Proof. repeat constructor; eexists; reflexivity. Qed.

Lemma ex_flights_shape :
  Forall (fun c => List.length (snd c) = nrows ex_flights) (data ex_flights).
Proof. repeat constructor. Qed.

Lemma predictors_and_target_labels_witness :
  ex_predictors <> [] /\
  Forall (fun c => In c (columns ex_flights)) ex_predictors /\
  Forall (fun c => In c ex_predictors) ex_categorical /\
  Forall (fun c => exists vals,
            mapM category_value (column_of ex_flights c) = Ok vals)
    ex_categorical /\
  getitem ex_flights "ArrDelayMinutes"
  = Ok [Float (Fin 0); Float (Fin 22); Float (Fin 15);
        Float NaN; Float (Fin 3); Float (Fin 60)] /\
  Forall (fun c => exists b, ge_cell 15 c = Ok b)
    [Float (Fin 0); Float (Fin 22); Float (Fin 15);
     Float NaN; Float (Fin 3); Float (Fin 60)] /\
  Forall (fun c => List.length (snd c) = nrows ex_flights) (data ex_flights) /\
  exists X y,
    predictors_and_target ex_flights ex_predictors ex_categorical 15
    = Ok (X, y) /\
    row_aligned X y /\
    nth_error (values y) 1 = Some (Bool true) /\
    nth_error (values y) 4 = Some (Bool false).
Proof.
  split; [discriminate|]. split; [exact ex_predictors_present|].
  split; [exact ex_categorical_predictors|].
  split; [exact ex_categorical_cells|]. split; [reflexivity|].
  split; [exact ex_delays_comparable|]. split; [exact ex_flights_shape|].
  destruct (predictors_and_target_labels ex_flights ex_predictors
              ex_categorical 15 _ ltac:(discriminate) ex_predictors_present
              ex_categorical_predictors ex_categorical_cells eq_refl
              ex_delays_comparable ex_flights_shape)
    as [X [y [Hrun [_ [Hal [_ [_ Hfloat]]]]]]].
  exists X, y. split; [exact Hrun|]. split; [exact Hal|]. split.
  - destruct (Hfloat 1 22%R eq_refl) as [b [Hb Hiff]].
    rewrite Hb. do 2 f_equal. apply Hiff. lra.
  - destruct (Hfloat 4 3%R eq_refl) as [b [Hb Hiff]].
    rewrite Hb. do 2 f_equal. destruct b; [|reflexivity].
    exfalso. assert (H : (IZR 15 <= 3)%R) by now apply Hiff. lra.
Defined.

Lemma predictors_and_target_missing_predictor_witness :
  In "Distance" ["Month"; "Distance"] /\
  ~ In "Distance" (columns ex_flights) /\
  predictors_and_target ex_flights ["Month"; "Distance"] [] 15
  = Raise KeyError.
Proof.
  assert (Hin : In "Distance" ["Month"; "Distance"]) by (simpl; tauto).
  assert (Hout : ~ In "Distance" (columns ex_flights)).
  { simpl. intros H. repeat destruct H as [H|H]; discriminate || exact H. }
  split; [exact Hin|]. split; [exact Hout|].
  exact (predictors_and_target_missing_predictor ex_flights
           ["Month"; "Distance"] [] 15 "Distance" Hin Hout).
Defined.

Lemma ex_categorical_distinct : NoDup ex_categorical.
Proof. apply nodupb_NoDup. reflexivity. Qed.

Lemma predictors_and_target_columns_witness :
  ex_predictors <> [] /\ NoDup ex_categorical /\
  Forall (fun c => In c (columns ex_flights)) ex_predictors /\
  Forall (fun c => In c ex_predictors) ex_categorical /\
  Forall (fun c => exists vals,
            mapM category_value (column_of ex_flights c) = Ok vals)
    ex_categorical /\
  getitem ex_flights "ArrDelayMinutes"
  = Ok [Float (Fin 0); Float (Fin 22); Float (Fin 15);
        Float NaN; Float (Fin 3); Float (Fin 60)] /\
  Forall (fun c => exists b, ge_cell 15 c = Ok b)
    [Float (Fin 0); Float (Fin 22); Float (Fin 15);
     Float NaN; Float (Fin 3); Float (Fin 60)] /\
  exists X y,
    predictors_and_target ex_flights ex_predictors ex_categorical 15
    = Ok (X, y) /\
    In ("Month", [Int 1; Int 1; Int 6; Int 6; Int 12; Int 12]) (data X) /\
    (exists col, In ("Origin_SEA", col) (data X) /\
                 nth_error col 3 = Some (Int 1)) /\
    (exists col, In ("Origin_ATL", col) (data X) /\
                 nth_error col 3 = Some (Int 0)).
Proof.
  split; [discriminate|]. split; [exact ex_categorical_distinct|].
  split; [exact ex_predictors_present|].
  split; [exact ex_categorical_predictors|].
  split; [exact ex_categorical_cells|]. split; [reflexivity|].
  split; [exact ex_delays_comparable|].
  destruct (predictors_and_target_columns ex_flights ex_predictors
              ex_categorical 15 _ ltac:(discriminate)
              ex_categorical_distinct ex_predictors_present
              ex_categorical_predictors ex_categorical_cells eq_refl
              ex_delays_comparable)
    as [X [y [Hrun [Hkept [Hdummy _]]]]].
  exists X, y. split; [exact Hrun|]. split.
  - apply (Hkept "Month").
    + simpl. tauto.
    + simpl. intros H. repeat destruct H as [H|H]; discriminate || exact H.
  - destruct (Hdummy "Origin" _ 3 "SEA" (or_introl eq_refl) eq_refl eq_refl)
      as [Hone Hzero].
    split; [exact Hone|].
    apply (Hzero "ATL"); [simpl; tauto | discriminate].
Defined.

Lemma convert_hours_keeps_shape_witness :
  exists out,
    convert_hours ex_times ["CRSDepTime"] = Ok out /\
    index out = index ex_times /\
    columns out = ["CRSDepTime"; "Month"].
Proof.
  eexists. split; [reflexivity|].
  destruct (convert_hours_keeps_shape ex_times _ ["CRSDepTime"] eq_refl)
    as [Hidx [Hcols _]].
  split; [exact Hidx | exact Hcols].
Defined.

Lemma convert_hours_missing_column_witness :
  In "CRSArrTime" ["CRSDepTime"; "CRSArrTime"] /\
  ~ In "CRSArrTime" (columns ex_times) /\
  exists e, convert_hours ex_times ["CRSDepTime"; "CRSArrTime"] = Raise e.
Proof.
  assert (Hin : In "CRSArrTime" ["CRSDepTime"; "CRSArrTime"])
    by (simpl; tauto).
  assert (Hout : ~ In "CRSArrTime" (columns ex_times)).
  { simpl. intros H. repeat destruct H as [H|H]; discriminate || exact H. }
  split; [exact Hin|]. split; [exact Hout|].
  exact (convert_hours_missing_column ex_times ["CRSDepTime"; "CRSArrTime"]
           "CRSArrTime" Hin Hout).
Defined.

Lemma hours_cell_round_trip_witness :
  (0 <= 1415 <= 2359)%Z /\ (1415 mod 100 < 60)%Z /\
  exists h : R,
    hours_cell (Int 1415) = Ok (Float (Fin h)) /\
    (0 <= h < 24)%R /\ Int_part h = 14%Z.
Proof.
  split; [lia|]. split; [reflexivity|].
  destruct (hours_cell_round_trip 1415 ltac:(lia) eq_refl)
    as [h [Hrun [Hrange [Hpart _]]]].
  exists h. split; [exact Hrun|]. split; [exact Hrange | exact Hpart].
Defined.

Lemma convert_cyclical_unit_circle_witness :
  NoDup (dict_keys ex_periods) /\ no_derived_keys (dict_keys ex_periods) /\
  (forall c P, In (c, P) ex_periods ->
      P <> 0%Z /\
      exists vs xs, getitem ex_months c = Ok vs /\
                    mapM to_float vs = Ok (map Fin xs)) /\
  exists out sines cosines,
    convert_cyclical ex_months ex_periods = Ok out /\
    getitem out "sin(Month)" = Ok sines /\
    getitem out "cos(Month)" = Ok cosines /\
    forall i s, nth_error sines i = Some s ->
      exists a b, s = Float (Fin a) /\
                  nth_error cosines i = Some (Float (Fin b)) /\
                  (a * a + b * b = 1)%R.
Proof.
  split; [exact ex_periods_keys|]. split; [exact ex_periods_fresh|].
  split; [exact ex_months_numeric|].
  destruct (convert_cyclical_unit_circle ex_months ex_periods
              ex_periods_keys ex_periods_fresh ex_months_numeric)
    as [out [Hrun Hcircle]].
  destruct (Hcircle "Month" 12%Z (or_introl eq_refl))
    as [sines [cosines [Hs [Hc [_ Hunit]]]]].
  exists out, sines, cosines.
  split; [exact Hrun|]. split; [exact Hs|]. split; [exact Hc | exact Hunit].
Defined.

Lemma missing_cat_add_idempotent_witness :
  exists X_val_new,
    missing_cat_add ex_train ex_val = Ok X_val_new /\
    missing_cat_add ex_train X_val_new = Ok X_val_new.
Proof.
  eexists. split; [reflexivity|].
  apply (missing_cat_add_idempotent ex_train ex_val). reflexivity.
Defined.

Lemma missing_cat_add_column_order_witness :
  NoDup (columns ex_val) /\ index ex_val_reordered = index ex_val /\
  Permutation (data ex_val) (data ex_val_reordered) /\
  missing_cat_add ex_train ex_val_reordered = missing_cat_add ex_train ex_val.
Proof.
  assert (Hperm : Permutation (data ex_val) (data ex_val_reordered)).
  { simpl. eapply perm_trans; [apply perm_skip, perm_swap | apply perm_swap]. }
  split; [exact ex_val_labels|]. split; [reflexivity|].
  split; [exact Hperm|].
  exact (missing_cat_add_column_order ex_train ex_val ex_val_reordered
           ex_val_labels eq_refl Hperm).
Defined.

Lemma missing_cat_add_duplicate_labels_witness :
  ~ NoDup (columns ex_val_twice) /\
  columns ex_val_twice <> columns ex_train /\
  missing_cat_add ex_train ex_val_twice = Raise ValueError.
Proof.
  assert (Hdup : ~ NoDup (columns ex_val_twice)).
  { intros H. simpl in H. apply NoDup_cons_iff in H. destruct H as [_ H].
    apply NoDup_cons_iff in H. destruct H as [H _]. apply H. now left. }
  assert (Hne : columns ex_val_twice <> columns ex_train) by discriminate.
  split; [exact Hdup|]. split; [exact Hne|].
  exact (missing_cat_add_duplicate_labels ex_train ex_val_twice Hdup Hne).
Defined.

Lemma airport_select_any_table_witness :
  sort_contract stable_sort_desc /\
  getitem (flights_table one_way_origs one_way_dests) "Origin"
  = Ok (map Str one_way_origs) /\
  getitem (flights_table one_way_origs one_way_dests) "Dest"
  = Ok (map Str one_way_dests) /\
  exists airports,
    airport_select stable_sort_desc
      (flights_table one_way_origs one_way_dests) 2 = Ok airports /\
    NoDup airports /\ List.length airports = 2 /\
    (In "X" airports -> precedes "Y" "X" airports).
Proof.
  split; [exact stable_sort_desc_contract|]. split; [reflexivity|].
  split; [reflexivity|].
  destruct (airport_select_any_table stable_sort_desc
              stable_sort_desc_contract
              (flights_table one_way_origs one_way_dests)
              one_way_origs one_way_dests 2 eq_refl eq_refl)
    as [airports [Hrun [Hnd [_ [Hlen Hroles]]]]].
  exists airports. split; [exact Hrun|]. split; [exact Hnd|].
  split; [exact Hlen|].
  intros HX. apply Hroles; [| |exact HX|].
  - unfold one_way_origs. apply in_or_app. right. simpl. tauto.
  - unfold one_way_dests. apply in_or_app. left. simpl. tauto.
  - intros [_ H]. unfold one_way_dests in H.
    apply in_app_or in H. destruct H as [H|H];
      [|apply in_app_or in H; destruct H as [H|H]];
      apply repeat_spec in H; discriminate H.
Defined.

Lemma rand_subset_draw_witness :
  choice_ok first_rows /\ row_aligned (ex_rows_X 45) (ex_rows_y 45 10) /\
  (0 <= round_float64 (7 # 10))%Q /\ (round_float64 (7 # 10) < 1)%Q /\
  (Z.of_nat (nrows (ex_rows_X 45)) < 2 ^ 53)%Z /\
  exists X_samp y_samp (ps : list nat),
    rand_subset first_rows (ex_rows_X 45) (ex_rows_y 45 10)
      (round_float64 (7 # 10)) = Ok (X_samp, y_samp) /\
    NoDup ps /\ nrows X_samp = List.length ps /\
    List.length ps = 31.
Proof.
  assert (Hal : row_aligned (ex_rows_X 45) (ex_rows_y 45 10))
    by (split; reflexivity).
  assert (Hf0 : (0 <= round_float64 (7 # 10))%Q)
    by (vm_compute; discriminate).
  assert (Hf1 : (round_float64 (7 # 10) < 1)%Q) by (vm_compute; reflexivity).
  assert (Hrows : (Z.of_nat (nrows (ex_rows_X 45)) < 2 ^ 53)%Z)
    by reflexivity.
  split; [exact first_rows_ok|]. split; [exact Hal|]. split; [exact Hf0|].
  split; [exact Hf1|]. split; [exact Hrows|].
  destruct (rand_subset_draw first_rows first_rows_ok (ex_rows_X 45)
              (ex_rows_y 45 10) (round_float64 (7 # 10)) Hal Hf0 Hf1 Hrows)
    as [Xs [ys [ps [t [Hrun [Hnd [_ [Et [_ [Hhalf [_ [Hlen _]]]]]]]]]]]].
  exists Xs, ys, ps. split; [exact Hrun|]. split; [exact Hnd|].
  split; [exact Hlen|].
  apply Qabs_diff_Qle_condition in Hhalf. destruct Hhalf as [Hlo Hhi].
  assert (A1 : (61 # 2 < t)%Q) by (rewrite Et; vm_compute; reflexivity).
  assert (A2 : (t < 63 # 2)%Q) by (rewrite Et; vm_compute; reflexivity).
  assert (B1 : (inject_Z 30 < inject_Z (Z.of_nat (List.length ps)))%Q)
    by (change (inject_Z 30) with 30%Q; Lqa.lra).
  assert (B2 : (inject_Z (Z.of_nat (List.length ps)) < inject_Z 32)%Q)
    by (change (inject_Z 32) with 32%Q; Lqa.lra).
  rewrite <- Zlt_Qlt in B1, B2. lia.
Defined.

Lemma imbalanced_subsample_distinct_rows_witness :
  choice_ok first_rows /\ NoDup (columns ex_thousand_X) /\
  row_aligned ex_thousand_X ex_thousand_y /\
  (0 <= 1 # 2)%Q /\ (1 # 2 < 1)%Q /\
  (Z.of_nat (nrows ex_thousand_X) < 2 ^ 53)%Z /\
  exists X_samp y_samp ps,
    imbalanced_subsample first_rows ex_thousand_X ex_thousand_y (1 # 2)
    = Ok (X_samp, y_samp) /\
    NoDup ps /\ Forall (fun p => p < nrows ex_thousand_X) ps /\
    values y_samp = take ps (values ex_thousand_y) (Float NaN).
Proof.
  split; [exact first_rows_ok|]. split; [exact (proj1 ex_thousand_wf)|].
  split; [exact ex_thousand_aligned|]. split; [discriminate|].
  split; [reflexivity|]. split; [exact ex_thousand_rows|].
  destruct (imbalanced_subsample_distinct_rows first_rows first_rows_ok
              ex_thousand_X ex_thousand_y (1 # 2) (proj1 ex_thousand_wf)
              ex_thousand_aligned ltac:(discriminate) eq_refl
              ex_thousand_rows)
    as [Xs [ys [ps [Hrun [Hnd [Hin [_ [_ [Hvals _]]]]]]]]].
  exists Xs, ys, ps. split; [exact Hrun|]. split; [exact Hnd|].
  split; [exact Hin | exact Hvals].
Defined.

Lemma normalize_log_not_normalized_witness :
  Forall (fun c => In c (columns ex_train)) ["CRSElapsedTime"] /\
  Forall (fun c => In c (columns ex_val)) ["CRSElapsedTime"] /\
  In "Origin_JFK" ["Origin_JFK"] /\ ~ In "Origin_JFK" ["CRSElapsedTime"] /\
  normalize ex_train ex_val ["CRSElapsedTime"] ["Origin_JFK"]
  = Raise KeyError.
Proof.
  assert (Ht : Forall (fun c => In c (columns ex_train)) ["CRSElapsedTime"])
    by (repeat constructor).
  assert (Hv : Forall (fun c => In c (columns ex_val)) ["CRSElapsedTime"])
    by (repeat constructor).
  assert (Hin : In "Origin_JFK" ["Origin_JFK"]) by now left.
  assert (Hout : ~ In "Origin_JFK" ["CRSElapsedTime"]).
  { intros [H|[]]. discriminate H. }
  split; [exact Ht|]. split; [exact Hv|]. split; [exact Hin|].
  split; [exact Hout|].
  exact (normalize_log_not_normalized ex_train ex_val ["CRSElapsedTime"]
           ["Origin_JFK"] "Origin_JFK" Ht Hv Hin Hout).
Defined.

Lemma normalize_leaves_the_rest_witness :
  exists X_train_out X_val_out scaler,
    normalize ex_train ex_val ["CRSElapsedTime"] ["CRSElapsedTime"]
    = Ok (X_train_out, X_val_out, scaler) /\
    columns X_val_out = columns ex_val /\
    getitem X_val_out "Origin_SEA" = Ok [Bool false; Bool true] /\
    List.length (mean_ scaler) = 1.
Proof.
  do 3 eexists. split; [reflexivity|].
  destruct (normalize_leaves_the_rest ex_train ex_val ["CRSElapsedTime"]
              ["CRSElapsedTime"] _ _ _ eq_refl)
    as [_ [[_ [Hcols Hrest]] [Hmean _]]].
  split; [exact Hcols|]. split; [|exact Hmean].
  rewrite Hrest; [reflexivity|]. intros [H|[]]. discriminate H.
Defined.

Lemma normalize_fits_on_training_only_witness :
  exists out1 val1 scaler1 out2 val2 scaler2,
    normalize ex_train ex_val ["CRSElapsedTime"] ["CRSElapsedTime"]
    = Ok (out1, val1, scaler1) /\
    normalize ex_train ex_negative_val ["CRSElapsedTime"] ["CRSElapsedTime"]
    = Ok (out2, val2, scaler2) /\
    scaler1 = scaler2 /\ out1 = out2.
Proof.
  do 6 eexists. split; [reflexivity|]. split; [reflexivity|].
  apply (normalize_fits_on_training_only ex_train ex_val ex_negative_val
           ["CRSElapsedTime"] ["CRSElapsedTime"] _ _ _ _ _ _
           eq_refl eq_refl).
Defined.

Lemma normalize_same_transform_witness :
  NoDup ["CRSElapsedTime"] /\
  exists X_train_out X_val_out scaler,
    normalize ex_train ex_val ["CRSElapsedTime"] ["CRSElapsedTime"]
    = Ok (X_train_out, X_val_out, scaler) /\
    exists train_column val_column,
      prepared_column ex_train ["CRSElapsedTime"] "CRSElapsedTime"
      = Ok train_column /\
      prepared_column ex_val ["CRSElapsedTime"] "CRSElapsedTime"
      = Ok val_column /\
      nth_error (mean_ scaler) 0 = Some (nanmean train_column) /\
      getitem X_val_out "CRSElapsedTime"
      = Ok (map (scaled_with train_column) val_column).
Proof.
  assert (Hnd : NoDup ["CRSElapsedTime"]) by (apply nodupb_NoDup; reflexivity).
  split; [exact Hnd|].
  do 3 eexists. split; [reflexivity|].
  destruct (normalize_same_transform ex_train ex_val ["CRSElapsedTime"]
              ["CRSElapsedTime"] _ _ _ Hnd eq_refl 0 "CRSElapsedTime"
              eq_refl)
    as [tc [vc [Ht [Hv [Hm [_ [_ Hout]]]]]]].
  exists tc, vc. split; [exact Ht|]. split; [exact Hv|].
  split; [exact Hm | exact Hout].
Defined.

Lemma normalize_missing_validation_column_witness :
  In "Origin_ATL" ["CRSElapsedTime"; "Origin_ATL"] /\
  ~ In "Origin_ATL" (columns ex_val) /\
  normalize ex_train ex_val ["CRSElapsedTime"; "Origin_ATL"]
    ["CRSElapsedTime"] = Raise KeyError.
Proof.
  assert (Hin : In "Origin_ATL" ["CRSElapsedTime"; "Origin_ATL"])
    by (simpl; tauto).
  assert (Hout : ~ In "Origin_ATL" (columns ex_val)).
  { simpl. intros H. repeat destruct H as [H|H]; discriminate || exact H. }
  split; [exact Hin|]. split; [exact Hout|].
  exact (normalize_missing_validation_column ex_train ex_val
           ["CRSElapsedTime"; "Origin_ATL"] ["CRSElapsedTime"] "Origin_ATL"
           Hin Hout).
Defined.

Lemma normalized_matrices_share_columns_witness :
  NoDup (columns ex_val) /\
  exists X_train_normalized X_val_norm0 scaler X_val_normalized,
    normalize ex_train ex_val ["CRSElapsedTime"] ["CRSElapsedTime"]
    = Ok (X_train_normalized, X_val_norm0, scaler) /\
    missing_cat_add X_train_normalized X_val_norm0 = Ok X_val_normalized /\
    columns X_val_normalized = ["CRSElapsedTime"; "Origin_ATL"; "Origin_JFK"] /\
    index X_val_normalized = [0; 1]%Z.
Proof.
  split; [exact ex_val_labels|].
  do 3 eexists.
  destruct (normalized_matrices_share_columns ex_train ex_val
              ["CRSElapsedTime"] ["CRSElapsedTime"] _ _ _ ex_val_labels
              eq_refl)
    as [out [Hrun [Hcols [Htrain Hidx]]]].
  exists out. split; [reflexivity|]. split; [exact Hrun|].
  split; [now rewrite Hcols, Htrain | exact Hidx].
Defined.

Lemma import_data_consistent_witness :
  choice_ok first_rows /\ (0 <= 1 # 2)%Q /\
  exists X_samp y_samp airports X_full y_full,
    import_data ex_reader ex_carriers stable_sort_desc first_rows
      ["2018_1.csv"] (1 # 2) ex_predictors ex_categorical
      ["ArrDelayMinutes"] 15 ["CRSDepTime"] ex_cycles (Some 2%Z) None false
    = Ok (X_samp, y_samp, airports, X_full, y_full) /\
    airports = ["ATL"; "JFK"] /\
    nrows X_full = 4 /\ nrows X_samp = 2 /\
    row_aligned X_full y_full /\ row_aligned X_samp y_samp /\
    drawn_from X_full y_full X_samp y_samp.
Proof.
  split; [exact first_rows_ok|]. split; [discriminate|].
  destruct (import_data ex_reader ex_carriers stable_sort_desc first_rows
              ["2018_1.csv"] (1 # 2) ex_predictors ex_categorical
              ["ArrDelayMinutes"] 15 ["CRSDepTime"] ex_cycles (Some 2%Z)
              None false)
    as [[[[[Xs ys] a] Xf] yf]|e] eqn:Erun.
  - pose proof Erun as Ev.
    cbv -[IZR Rplus Rmult Rdiv Rminus Rinv Ropp sin cos PI Rle_dec] in Ev.
    injection Ev as <- <- <- <- <-.
    destruct (import_data_consistent ex_reader ex_carriers stable_sort_desc
                first_rows first_rows_ok ["2018_1.csv"] (1 # 2)
                ex_predictors ex_categorical ["ArrDelayMinutes"] 15
                ["CRSDepTime"] ex_cycles (Some 2%Z) None false _ _ _ _ _
                Erun ltac:(discriminate) ltac:(discriminate))
      as [Hfull [_ [Hsamp [Hdrawn _]]]].
    do 5 eexists. split; [exact Erun|].
    split; [reflexivity|]. split; [reflexivity|]. split; [reflexivity|].
    split; [exact Hfull|]. split; [exact Hsamp | exact Hdrawn].
  - cbv -[IZR Rplus Rmult Rdiv Rminus Rinv Ropp sin cos PI Rle_dec] in Erun.
    discriminate Erun.
Defined.
